(** * RAG_cook: the data-preparation module

    A shallow embedding of [rag_modules/data_preparation.py]
    (class [DataPreparationModule]) and the properties of its metadata
    enrichment, Markdown splitting and parent aggregation.

    Python [str] values are modelled as Rocq strings holding the UTF-8
    encoding of the text.  UTF-8 is self-synchronising, so the substring
    test [x in y] on code points and on encoded bytes agree; [len] counts
    code points and is modelled by [Str.len] below.

    What lies outside the repository enters as a parameter: the
    identifiers [uuid.uuid4] returns, the fragments
    [MarkdownHeaderTextSplitter.split_text] cuts a text into, and the
    files [rglob] finds with the text read from each
    ([load_documents_reading] takes what reading each file comes to, a
    text or an exception).  [pathlib.Path] is modelled in its POSIX
    flavour.

    Documents are objects in a store.  In the main embedding a document
    owns its metadata; module [Ref] embeds [_markdown_header_split] over
    a store in which the dictionaries are objects too, for what depends
    on which dictionary a document refers to. *)

From Stdlib Require Import Ascii String.
From stdpp Require Import gmap strings list fin_maps.

(** ** Python values stored in metadata maps *)

Inductive value :=
  | VStr (s : string)
  | VInt (n : Z).

#[global] Instance value_eq_dec : EqDecision value.
Proof. solve_decision. Defined.

(** Truthiness of the result of [dict.get(key)]: [None], the empty string
    and [0] are falsy. *)
Definition truthy (v : option value) : bool :=
  match v with
  | None => false
  | Some (VStr s) => negb (String.eqb s "")
  | Some (VInt n) => negb (n =? 0)%Z
  end.

(** ** [str] primitives *)

Module Str.

(** [needle in hay] *)
Fixpoint contains (needle hay : string) : bool :=
  String.prefix needle hay ||
  match hay with
  | EmptyString => false
  | String _ hay' => contains needle hay'
  end.

(** A byte [10xxxxxx] continues a code point started earlier. *)
Definition is_continuation (c : ascii) : bool :=
  let n := nat_of_ascii c in (128 <=? n) && (n <? 192).

(** [len(s)]: the number of code points. *)
Fixpoint len (s : string) : nat :=
  match s with
  | EmptyString => 0
  | String c s' => (if is_continuation c then 0 else 1) + len s'
  end.

(** [s.split(sep)] for a one-character separator. *)
Fixpoint split (sep : ascii) (s : string) : list string :=
  match s with
  | EmptyString => [EmptyString]
  | String c s' =>
      if Ascii.eqb c sep then EmptyString :: split sep s'
      else match split sep s' with
           | [] => [String c EmptyString]
           | w :: ws => String c w :: ws
           end
  end.

(** [s.rfind(c)], with [None] for Python's [-1]. *)
Fixpoint rfind (c : ascii) (s : string) : option nat :=
  match s with
  | EmptyString => None
  | String a s' =>
      match rfind c s' with
      | Some i => Some (S i)
      | None => if Ascii.eqb a c then Some 0 else None
      end
  end.

(** [s * n] *)
Fixpoint repeat (s : string) (n : nat) : string :=
  match n with
  | O => EmptyString
  | S n' => s +:+ repeat s n'
  end.

End Str.

(** ** [pathlib.Path], POSIX flavour

    [Path(p)] keeps a root and the list of the remaining segments. *)

Module Path.

Record t := mk { root : string; tail : list string }.

(** [posixpath.splitroot]: exactly two leading slashes are kept as the
    root, one or more than two collapse to a single slash. *)
Definition splitroot (p : string) : string * string :=
  match p with
  | String "/"%char (String "/"%char (String "/"%char r)) =>
      ("/", String "/"%char (String "/"%char r))
  | String "/"%char (String "/"%char r) => ("//", r)
  | String "/"%char r => ("/", r)
  | _ => ("", p)
  end.

Definition keep_segment (x : string) : bool :=
  negb (String.eqb x "") && negb (String.eqb x ".").

(** [Path(p)] *)
Definition of_str (p : string) : t :=
  let '(root, rel) := splitroot p in
  mk root (List.filter keep_segment (Str.split "/"%char rel)).

(** [path.parts] *)
Definition parts (p : t) : list string :=
  (if String.eqb (root p) "" then [] else [root p]) ++ tail p.

(** [path.name] *)
Definition name (p : t) : string := List.last (tail p) "".

(** [path.stem] *)
Definition stem (p : t) : string :=
  let name := name p in
  match Str.rfind "."%char name with
  | Some i =>
      if (0 <? i) && (i <? String.length name - 1)
      then String.substring 0 i name
      else name
  | None => name
  end.

End Path.

(** ** Metadata enrichment: the pure tables *)

Definition category_mapping : list (string * string) :=
  [ ("meat_dish", "荤菜");
    ("vegetable", "素菜");
    ("soup", "汤品");
    ("desert", "甜品");
    ("breakfast", "早餐");
    ("staple", "主食");
    ("squatic", "水产");
    ("condiment", "调料");
    ("drink", "饮品") ].

Definition default_category : string := "其他".

Definition star : string := "★".

(** ** Objects, exceptions and the pipeline state

    A [Document] is a mutable object: it lives in a store and is passed
    around by reference (a store address).  Every [Document] owns its
    metadata dictionary here; module [Ref] below keeps the dictionaries
    as objects of their own. *)

Record Document := mkDocument {
  page_content : string;
  metadata : gmap string value
}.

Inductive exn :=
  | ValueError (msg : string)
  | KeyError (key : string)
  | TypeError
  | AttributeError (attr : string)
  (** a file that cannot be opened or read *)
  | OSError
  (** a file whose bytes are not UTF-8 *)
  | UnicodeDecodeError
  (** Only in the model: a reference to no object.  Python references
      always point to an object. *)
  | DanglingReference.

Inductive outcome (A : Type) :=
  | Return (a : A)
  | Raise (e : exn).
Arguments Return {A} a.
Arguments Raise {A} e.

(** The instance [self] together with the object store and the number of
    identifiers drawn from [uuid.uuid4] so far. *)
Record pipeline := mkPipeline {
  store : gmap nat Document;
  uuids_drawn : nat;
  documents : list nat;
  chunks : list nat;
  parent_child_map : gmap string value
}.

Definition with_store (f : gmap nat Document → gmap nat Document)
    (st : pipeline) : pipeline :=
  mkPipeline (f (store st)) (uuids_drawn st) (documents st) (chunks st)
    (parent_child_map st).

(** A computation runs on a state and leaves a state behind also when it
    raises: what it wrote before the exception stays written. *)
Definition M (A : Type) : Type := pipeline → outcome A * pipeline.

#[global] Instance M_ret : MRet M := λ A a st, (Return a, st).

#[global] Instance M_bind : MBind M := λ A B f m st,
  match m st with
  | (Return a, st') => f a st'
  | (Raise e, st') => (Raise e, st')
  end.

Definition raise {A} (e : exn) : M A := λ st, (Raise e, st).

Definition deref (doc : nat) : M Document := λ st,
  match store st !! doc with
  | Some d => (Return d, st)
  | None => (Raise DanglingReference, st)
  end.

Definition assign (doc : nat) (d : Document) : M unit := λ st,
  (Return (), with_store <[doc := d]> st).

(** [Document(page_content=..., metadata=...)] *)
Definition new_Document (content : string) (md : gmap string value) : M nat :=
  λ st,
    let doc := fresh (dom (store st)) in
    (Return doc, with_store <[doc := mkDocument content md]> st).

(** [doc.page_content] *)
Definition get_page_content (doc : nat) : M string :=
  d ← deref doc; mret (page_content d).

(** [doc.metadata], read as a whole *)
Definition get_metadata (doc : nat) : M (gmap string value) :=
  d ← deref doc; mret (metadata d).

(** [doc.metadata.get(key)] *)
Definition metadata_get (doc : nat) (key : string) : M (option value) :=
  md ← get_metadata doc; mret (md !! key).

(** [doc.metadata[key]] *)
Definition metadata_getitem (doc : nat) (key : string) : M value :=
  md ← get_metadata doc;
  match md !! key with
  | Some v => mret v
  | None => raise (KeyError key)
  end.

(** [doc.metadata[key] = v] *)
Definition metadata_setitem (doc : nat) (key : string) (v : value) : M unit :=
  d ← deref doc;
  assign doc (mkDocument (page_content d) (<[key := v]> (metadata d))).

(** [doc.metadata.update(other)]: the entries of [other] win. *)
Definition metadata_update (doc : nat) (other : gmap string value) : M unit :=
  d ← deref doc;
  assign doc (mkDocument (page_content d) (other ∪ metadata d)).

(** [for x in xs: body(x)] *)
Fixpoint for_each {A} (xs : list A) (body : A → M unit) : M unit :=
  match xs with
  | [] => mret ()
  | x :: xs' => body x;; for_each xs' body
  end.

(** [enumerate(xs)] *)
Definition enumerate {A} (xs : list A) : list (nat * A) :=
  zip (seq 0 (length xs)) xs.

(** ** [_enhance_metadata] *)

(** [Path(v)]: a path for a string, a [TypeError] for an int. *)
Definition Path_of (v : value) : M Path.t :=
  match v with
  | VStr s => mret (Path.of_str s)
  | VInt _ => raise TypeError
  end.

(** The loop over [category_mapping.items()], with its [break]. *)
Fixpoint category_loop (items : list (string * string))
    (path_parts : list string) (doc : nat) : M unit :=
  match items with
  | [] => mret ()
  | (key, value) :: items' =>
      if bool_decide (key ∈ path_parts)
      then metadata_setitem doc "category" (VStr value)
      else category_loop items' path_parts doc
  end.

Definition _enhance_metadata (doc : nat) : M unit :=
  source ← metadata_get doc "source";
  file_path ← Path_of (default (VStr "") source);
  let path_parts := Path.parts file_path in
  metadata_setitem doc "category" (VStr "其他");;
  category_loop category_mapping path_parts doc;;
  metadata_setitem doc "dish_name" (VStr (Path.stem file_path));;
  content ← get_page_content doc;
  if Str.contains "★★★★★" content then
    metadata_setitem doc "difficulty" (VStr "非常困难")
  else if Str.contains "★★★★" content then
    metadata_setitem doc "difficulty" (VStr "困难")
  else if Str.contains "★★★" content then
    metadata_setitem doc "difficulty" (VStr "中等")
  else if Str.contains "★★" content then
    metadata_setitem doc "difficulty" (VStr "比较简单")
  else if Str.contains "★" content then
    metadata_setitem doc "difficulty" (VStr "简单")
  else
    metadata_setitem doc "difficulty" (VStr "难度未知").

(** ** Local dictionaries of [get_parent_documents]

    Iteration order matters for these (the keys are sorted with a stable
    sort), so they are association lists in insertion order. *)

Definition dict_get {V} (d : list (value * V)) (k : value) : option V :=
  snd <$> List.find (λ kv, bool_decide (kv.1 = k)) d.

(** [d[k] = v]: an existing key keeps its place. *)
Fixpoint dict_set {V} (d : list (value * V)) (k : value) (v : V)
    : list (value * V) :=
  match d with
  | [] => [(k, v)]
  | (k', v') :: d' =>
      if bool_decide (k' = k) then (k', v) :: d'
      else (k', v') :: dict_set d' k v
  end.

Definition dict_keys {V} (d : list (value * V)) : list value := d.*1.

(** [sorted(xs, key=key, reverse=True)]: descending and stable, equal keys
    keep their relative order. *)
Fixpoint insert_desc {A} (key : A → nat) (x : A) (l : list A) : list A :=
  match l with
  | [] => [x]
  | y :: l' =>
      if (key y <=? key x)%nat then x :: y :: l'
      else y :: insert_desc key x l'
  end.

Definition sorted_reverse {A} (key : A → nat) (xs : list A) : list A :=
  foldr (insert_desc key) [] xs.

(** What a Python variable of [get_parent_documents] can hold as a
    document: a [Document] reference or, as the code is written, a key
    of the parent-child map. *)
Inductive pyobj :=
  | ODoc (doc : nat)
  | OStr (s : string).

(** The value a call of [get_parent_documents] evaluates to. *)
Inductive pyresult :=
  | PyNone
  | PyList (xs : list pyobj).

(** [for x in xs: acc = body(x, acc)] *)
Fixpoint for_fold {A B} (xs : list A) (acc : B) (body : A → B → M B) : M B :=
  match xs with
  | [] => mret acc
  | x :: xs' => acc' ← body x acc; for_fold xs' acc' body
  end.

(** [[f(x) for x in xs]] *)
Fixpoint for_list {A B} (xs : list A) (f : A → M B) : M (list B) :=
  match xs with
  | [] => mret []
  | x :: xs' => y ← f x; ys ← for_list xs' f; mret (y :: ys)
  end.

Definition gets {A} (f : pipeline → A) : M A := λ st, (Return (f st), st).

Definition set_documents (docs : list nat) : M unit := λ st,
  (Return (), mkPipeline (store st) (uuids_drawn st) docs (chunks st)
                (parent_child_map st)).

Definition set_chunks (cs : list nat) : M unit := λ st,
  (Return (), mkPipeline (store st) (uuids_drawn st) (documents st) cs
                (parent_child_map st)).

(** [self.parent_child_map[key] = v] *)
Definition parent_child_map_setitem (key : string) (v : value) : M unit :=
  λ st,
    (Return (), mkPipeline (store st) (uuids_drawn st) (documents st)
                  (chunks st) (<[key := v]> (parent_child_map st))).

(** [s.metadata] on a [str]: there is no such attribute. *)
Definition str_metadata (s : string) : M (gmap string value) :=
  raise (AttributeError "metadata").

Section Pipeline.

(** The text of the identifier that the n-th call of [uuid.uuid4]
    returns. *)
Variable uuid4_str : nat → string.

(** [MarkdownHeaderTextSplitter(headers_to_split_on, strip_headers=False)
    .split_text]: the text and the local metadata of each fragment, in
    emission order.  The splitter is external to the repository. *)
Variable split_text_fragments : string → list (string * gmap string value).

(** [str(uuid.uuid4())] *)
Definition uuid4 : M string := λ st,
  (Return (uuid4_str (uuids_drawn st)),
   mkPipeline (store st) (S (uuids_drawn st)) (documents st) (chunks st)
     (parent_child_map st)).

(** [markdown_splitter.split_text(text)]: every fragment is a new
    [Document] object. *)
Definition split_text (text : string) : M (list nat) :=
  for_list (split_text_fragments text)
    (λ fragment, new_Document fragment.1 fragment.2).

(** [load_documents], on the files that [rglob("*.md")] yields, each
    with the text read from it. *)
Definition load_documents (files : list (string * string)) : M (list nat) :=
  documents ← for_list files (λ file,
    let '(md_file, content) := file in
    parent_id ← uuid4;
    new_Document content
      {[ "source" := VStr md_file;
         "parent_id" := VStr parent_id;
         "doc_type" := VStr "parent" ]});
  for_each documents _enhance_metadata;;
  set_documents documents;;
  mret documents.

(** The body of the loop over [enumerate(md_chunks)]. *)
Definition link_chunk (doc : nat) (parent_id : value) (item : nat * nat)
    : M unit :=
  let '(i, chunk) := item in
  child_id ← uuid4;
  doc_metadata ← get_metadata doc;
  metadata_update chunk doc_metadata;;
  metadata_update chunk
    {[ "chunk_id" := VStr child_id;
       "parent_id" := parent_id;
       "doc_type" := VStr "child";
       "chunk_index" := VInt (Z.of_nat i) ]};;
  parent_child_map_setitem child_id parent_id.

(** The body of the loop over [self.documents]. *)
Definition split_document (doc : nat) (all_chunks : list nat)
    : M (list nat) :=
  content ← get_page_content doc;
  md_chunks ← split_text content;
  parent_id ← metadata_getitem doc "parent_id";
  for_each (enumerate md_chunks) (link_chunk doc parent_id);;
  mret (all_chunks ++ md_chunks).

Definition _markdown_header_split : M (list nat) :=
  docs ← gets documents;
  for_fold docs [] split_document.

(** The body of the loop over [enumerate(chunks)]. *)
Definition stamp_chunk (item : nat * nat) : M unit :=
  let '(i, chunk) := item in
  md ← get_metadata chunk;
  (if bool_decide (md !! "chunk_id" = None)
   then child_id ← uuid4; metadata_setitem chunk "chunk_id" (VStr child_id)
   else mret ());;
  metadata_setitem chunk "batch_index" (VInt (Z.of_nat i));;
  content ← get_page_content chunk;
  metadata_setitem chunk "chunk_size" (VInt (Z.of_nat (Str.len content))).

Definition chunk_documents : M (list nat) :=
  docs ← gets documents;
  match docs with
  | [] => raise (ValueError "先加载文档")
  | _ :: _ =>
      chunks ← _markdown_header_split;
      for_each (enumerate chunks) stamp_chunk;;
      set_chunks chunks;;
      mret chunks
  end.

(** [for doc in self.parent_child_map: ...]: the loop runs over the
    keys of the map, which are strings. *)
Fixpoint find_parent (keys : list string) (parent_id : value)
    (parent_docs_map : list (value * pyobj)) : M (list (value * pyobj)) :=
  match keys with
  | [] => mret parent_docs_map
  | doc :: keys' =>
      md ← str_metadata doc;
      if bool_decide (md !! "parent_id" = Some parent_id)
      then mret (dict_set parent_docs_map parent_id (OStr doc))
      else find_parent keys' parent_id parent_docs_map
  end.

(** What [get_parent_documents] does for a chunk whose [parent_id] is
    truthy; it ends in [return parent_doc]. *)
Definition vote_and_return (parent_id : value)
    (parent_relevance : list (value * nat))
    (parent_docs_map : list (value * pyobj)) : M pyresult :=
  let parent_relevance :=
    dict_set parent_relevance parent_id
      (default 0 (dict_get parent_relevance parent_id) + 1) in
  parent_docs_map ←
    (if bool_decide (dict_get parent_docs_map parent_id = None)
     then index ← gets parent_child_map;
          find_parent (map_to_list index).*1 parent_id parent_docs_map
     else mret parent_docs_map);
  let sorted_parent_ids :=
    sorted_reverse (λ x, default 0 (dict_get parent_relevance x))
      (dict_keys parent_relevance) in
  let parent_doc :=
    omap (λ parent_id, dict_get parent_docs_map parent_id)
      sorted_parent_ids in
  mret (PyList parent_doc).

(** The loop over [child_chunks]; falling off its end, the function
    returns [None]. *)
Fixpoint scan_chunks (child_chunks : list nat)
    (parent_relevance : list (value * nat))
    (parent_docs_map : list (value * pyobj)) : M pyresult :=
  match child_chunks with
  | [] => mret PyNone
  | chunk :: child_chunks' =>
      parent_id ← metadata_get chunk "parent_id";
      match parent_id with
      | Some pid =>
          if truthy parent_id
          then vote_and_return pid parent_relevance parent_docs_map
          else scan_chunks child_chunks' parent_relevance parent_docs_map
      | None => scan_chunks child_chunks' parent_relevance parent_docs_map
      end
  end.

Definition get_parent_documents (child_chunks : list nat) : M pyresult :=
  scan_chunks child_chunks [] [].

End Pipeline.


(** ** Reading the state *)

Definition empty_pipeline : pipeline := mkPipeline ∅ 0 [] [] ∅.

(** The metadata entry [key] of the object [doc], if both exist. *)
Definition read_metadata (st : pipeline) (doc : nat) (key : string)
    : option value :=
  d ← store st !! doc; metadata d !! key.

(** The content of the object [doc]. *)
Definition read_content (st : pipeline) (doc : nat) : option string :=
  page_content <$> store st !! doc.

(** Every listed document is an object that carries a [parent_id], as the
    ones [load_documents] creates do. *)
Definition documents_loaded (st : pipeline) : Prop :=
  ∀ doc, doc ∈ documents st →
    ∃ d, store st !! doc = Some d ∧ is_Some (metadata d !! "parent_id").

(** ** What enrichment computes, in closed form *)

(** The label of the first key of [category_mapping], in the order of the
    mapping, that is one of the path segments. *)
Definition category_in_mapping_order (path_parts : list string) : string :=
  match List.find (λ kv, bool_decide (kv.1 ∈ path_parts)) category_mapping with
  | Some kv => kv.2
  | None => default_category
  end.

(** The reading of the specification: the label of the first path segment,
    in path order, that is a key of [category_mapping]. *)
Definition category_first_in_path_order (path_parts : list string) : string :=
  match List.find (λ seg, bool_decide (seg ∈ category_mapping.*1)) path_parts with
  | Some seg =>
      match List.find (λ kv, String.eqb kv.1 seg) category_mapping with
      | Some kv => kv.2
      | None => default_category
      end
  | None => default_category
  end.

(** [k] consecutive star glyphs *)
Definition stars (k : nat) : string := Str.repeat star k.

(** The content has [k] consecutive star glyphs somewhere. *)
Definition has_star_run (k : nat) (content : string) : bool :=
  Str.contains (stars k) content.

Fixpoint longest_star_run_upto (n : nat) (content : string) : nat :=
  match n with
  | O => 0
  | S n' =>
      if has_star_run n content then n
      else longest_star_run_upto n' content
  end.

(** The length of the longest run of consecutive star glyphs in the
    content; 0 when it has no star. *)
Definition longest_star_run (content : string) : nat :=
  longest_star_run_upto (String.length content) content.

(** The difficulty scale, by run length. *)
Definition difficulty_tier (run : nat) : string :=
  match run with
  | 0 => "难度未知"
  | 1 => "简单"
  | 2 => "比较简单"
  | 3 => "中等"
  | 4 => "困难"
  | _ => "非常困难"
  end.

(** The chain of substring tests of [_enhance_metadata], as a function of
    the content. *)
Definition infer_difficulty (content : string) : string :=
  if Str.contains "★★★★★" content then "非常困难"
  else if Str.contains "★★★★" content then "困难"
  else if Str.contains "★★★" content then "中等"
  else if Str.contains "★★" content then "比较简单"
  else if Str.contains "★" content then "简单"
  else "难度未知".

(** The object [doc] replaced by [d]. *)
Definition set_obj (st : pipeline) (doc : nat) (d : Document) : pipeline :=
  with_store <[doc := d]> st.

(** A document with source path [source] after enrichment. *)
Definition enhanced (d : Document) (source : string) : Document :=
  mkDocument (page_content d)
    (<["difficulty" := VStr (infer_difficulty (page_content d))]>
       (<["dish_name" := VStr (Path.stem (Path.of_str source))]>
          (<["category" :=
               VStr (category_in_mapping_order
                       (Path.parts (Path.of_str source)))]>
             (metadata d)))).

(** The metadata [load_documents] gives a new document. *)
Definition loaded_metadata (md_file parent_id : string) : gmap string value :=
  {[ "source" := VStr md_file;
     "parent_id" := VStr parent_id;
     "doc_type" := VStr "parent" ]}.

(** The source path [Path] is built from: the [source] entry, or the empty
    string when there is none. *)
Definition source_of (d : Document) : value :=
  default (VStr "") (metadata d !! "source").

(** The keys [_enhance_metadata] writes. *)
Definition enriched_keys : list string := ["category"; "dish_name"; "difficulty"].

(** The keys the splitter sets itself on every section. *)
Definition section_keys : list string := ["chunk_id"; "doc_type"; "chunk_index"].

(** ** What splitting produces *)

(** The metadata of the [i]-th section of a document: the entries the
    splitter sets, over the document's entries, over the fragment's own. *)
Definition section_metadata (child_id : string) (parent_id : value) (i : nat)
    (doc_metadata local : gmap string value) : gmap string value :=
  {[ "chunk_id" := VStr child_id;
     "parent_id" := parent_id;
     "doc_type" := VStr "child";
     "chunk_index" := VInt (Z.of_nat i) ]} ∪ (doc_metadata ∪ local).

Section SectionsOf.

Variable split_text_fragments : string → list (string * gmap string value).

(** [group] is the list of sections made from [doc]: one new object per
    fragment of the document's content, in emission order, the [i]-th
    with the fragment's text and the metadata of position [i]. *)
Definition sections_of (st st' : pipeline) (doc : nat) (group : list nat)
    : Prop :=
  ∃ d parent_id,
    store st !! doc = Some d ∧
    metadata d !! "parent_id" = Some parent_id ∧
    length group = length (split_text_fragments (page_content d)) ∧
    ∀ i chunk, group !! i = Some chunk →
      store st !! chunk = None ∧
      ∃ fragment child_id,
        split_text_fragments (page_content d) !! i = Some fragment ∧
        store st' !! chunk =
          Some (mkDocument fragment.1
                  (section_metadata child_id parent_id i (metadata d)
                     fragment.2)).

End SectionsOf.

(** [d'] is [d] up to the two entries that [chunk_documents] stamps on a
    section after splitting. *)
Definition stamped (d d' : Document) : Prop :=
  page_content d' = page_content d ∧
  ∀ key, key ≠ "batch_index" → key ≠ "chunk_size" →
         metadata d' !! key = metadata d !! key.

(** ** The claims that the code does not meet, as propositions *)

(** Splitting and aggregation both refuse to run on an empty document set,
    and leave the state as it was. *)
Definition fails_fast_when_unloaded (uuid4_str : nat → string)
    (split_text_fragments : string → list (string * gmap string value))
    : Prop :=
  ∀ st, documents st = [] →
    (∃ msg, chunk_documents uuid4_str split_text_fragments st
            = (Raise (ValueError msg), st)) ∧
    (∀ child_chunks, ∃ msg,
        get_parent_documents child_chunks st = (Raise (ValueError msg), st)).

(** ** Example inputs *)

(** A source of identifiers: [uuid-], [uuid-x], [uuid-xx], ... *)
Definition example_uuid4 (n : nat) : string :=
  "uuid-" +:+ Str.repeat "x" n.

(** A splitter that cuts before every [#] and keeps it; the empty text has
    no fragment. *)
Definition example_split_text (text : string)
    : list (string * gmap string value) :=
  List.map (λ x, (String "#"%char x, ∅))
    (List.filter (λ x, negb (String.eqb x "")) (Str.split "#"%char text)).

(** Two recipes: the first splits into two sections, the second into one. *)
Definition two_recipes : list (string * string) :=
  [ ("dishes/soup/p1.md", "# P1★★## steps");
    ("dishes/drink/p2.md", "# P2") ].

(** The state after loading [two_recipes]. *)
Definition two_recipes_loaded : pipeline :=
  (load_documents example_uuid4 two_recipes empty_pipeline).2.

(** The state after loading and splitting [two_recipes]. *)
Definition two_recipes_split : pipeline :=
  ((load_documents example_uuid4 two_recipes;;
    chunk_documents example_uuid4 example_split_text) empty_pipeline).2.

(** The same state with one more section, whose parent identity names no
    document. *)
Definition with_orphan_section : pipeline :=
  (new_Document "# lost" {[ "parent_id" := VStr "no-such-parent" ]}
     two_recipes_split).2.

(** An empty recipe file. *)
Definition empty_recipe : list (string * string) := [ ("dishes/empty.md", "") ].

(** The state after loading [empty_recipe]. *)
Definition empty_recipe_loaded : pipeline :=
  (load_documents example_uuid4 empty_recipe empty_pipeline).2.

(** A recipe below two category directories, as [load_documents] creates
    it, and a store that holds it. *)
Definition stew : Document :=
  mkDocument "# stew ★ and ★★★★★"
    {[ "source" := VStr "dishes/soup/meat_dish/stew.md";
       "parent_id" := VStr "uuid-";
       "doc_type" := VStr "parent" ]}.

Definition stew_store : pipeline := set_obj empty_pipeline 0 stew.


(** ** More to state about enrichment *)

(** [c in s] for a character [c] *)
Fixpoint has_char (c : ascii) (s : string) : bool :=
  match s with
  | EmptyString => false
  | String a s' => Ascii.eqb a c || has_char c s'
  end.

(** The labels a category can be: the default and the values of
    [category_mapping]. *)
Definition category_labels : list string :=
  default_category :: category_mapping.*2.

(** The labels a difficulty can be. *)
Definition difficulty_labels : list string :=
  ["非常困难"; "困难"; "中等"; "比较简单"; "简单"; "难度未知"].

(** A document without a [source] entry, and a store that holds it. *)
Definition note : Document :=
  mkDocument "a note ★★★" {[ "parent_id" := VStr "uuid-" ]}.

Definition note_store : pipeline := set_obj empty_pipeline 0 note.

(** A document whose [source] entry is a number. *)
Definition numbered : Document :=
  mkDocument "# numbered" {[ "source" := VInt 7 ]}.

Definition numbered_store : pipeline := set_obj empty_pipeline 0 numbered.

(** ** More example inputs *)

(** The split recipes together with one more section that carries no
    [parent_id]. *)
Definition with_unlinked_section : pipeline :=
  (new_Document "# loose" ∅ two_recipes_split).2.

(** ** More to state about splitting *)

(** The parent-child map after the identifiers [ids] were registered, one
    after the other, for the parent [parent_id]. *)
Definition register_ids (ids : list string) (parent_id : value)
    (index : gmap string value) : gmap string value :=
  foldl (λ m id, <[id := parent_id]> m) index ids.

(** The keys that splitting sets on a section, whatever the document and
    the fragment carry. *)
Definition stamped_keys : list string :=
  ["chunk_id"; "parent_id"; "doc_type"; "chunk_index"; "batch_index";
   "chunk_size"].

(** A pipeline whose second document carries no [parent_id]. *)
Definition with_unlinked_document : pipeline :=
  mkPipeline (<[6 := mkDocument "# lost" ∅]> (store two_recipes_loaded))
    (uuids_drawn two_recipes_loaded) [0; 6; 1] [] ∅.

(** ** Reading the files

    [load_documents] once more, with the reading of the files made
    explicit: every file that [rglob("*.md")] yields comes with what
    opening and reading it gives, the text or the exception raised. *)

(** [with open(md_file, "r", encoding="utf-8") as f: content = f.read()] *)
Definition read_text (reading : outcome string) : M string :=
  λ st, (reading, st).

Section Reading.

Variable uuid4_str : nat → string.

Definition load_documents_reading (files : list (string * outcome string))
    : M (list nat) :=
  documents ← for_list files (λ file,
    let '(md_file, reading) := file in
    content ← read_text reading;
    parent_id ← uuid4 uuid4_str;
    new_Document content
      {[ "source" := VStr md_file;
         "parent_id" := VStr parent_id;
         "doc_type" := VStr "parent" ]});
  for_each documents _enhance_metadata;;
  set_documents documents;;
  mret documents.

End Reading.

(** A file that is read without an error. *)
Definition readable (file : string * string) : string * outcome string :=
  (file.1, Return file.2).

(** The exception of the first file, in the order of the files, whose
    reading raises. *)
Fixpoint first_unreadable (files : list (string * outcome string))
    : option exn :=
  match files with
  | [] => None
  | (_, Return _) :: files' => first_unreadable files'
  | (_, Raise e) :: _ => Some e
  end.

(** The number of fragments of a file: of its text when it is read. *)
Definition fragments_read
    (split_text_fragments : string → list (string * gmap string value))
    (file : string * outcome string) : nat :=
  match file.2 with
  | Return content => length (split_text_fragments content)
  | Raise _ => 0
  end.

(** Two recipes of which the second is not UTF-8. *)
Definition one_unreadable : list (string * outcome string) :=
  [ ("dishes/soup/p1.md", Return "# P1★★## steps");
    ("dishes/drink/p2.md", Raise UnicodeDecodeError) ].

(** ** Dictionaries as objects

    A Python [dict] is an object too: [doc.metadata] is a reference to a
    dictionary, and two documents can hold the same dictionary, so that
    an assignment through one is seen through the other.  For the
    question whether a section shares its metadata with its document,
    [_markdown_header_split] is embedded a second time over a store that
    keeps the dictionaries apart from the documents that refer to them. *)

Module Ref.

Record Document := mkDocument {
  page_content : string;
  (** the address of the metadata dictionary *)
  metadata : nat
}.

Record pipeline := mkPipeline {
  objects : gmap nat Document;
  dicts : gmap nat (gmap string value);
  uuids_drawn : nat;
  documents : list nat;
  chunks : list nat;
  parent_child_map : gmap string value
}.

Definition with_objects (f : gmap nat Document → gmap nat Document)
    (st : pipeline) : pipeline :=
  mkPipeline (f (objects st)) (dicts st) (uuids_drawn st) (documents st)
    (chunks st) (parent_child_map st).

Definition with_dicts
    (f : gmap nat (gmap string value) → gmap nat (gmap string value))
    (st : pipeline) : pipeline :=
  mkPipeline (objects st) (f (dicts st)) (uuids_drawn st) (documents st)
    (chunks st) (parent_child_map st).

Definition M (A : Type) : Type := pipeline → outcome A * pipeline.

#[export] Instance M_ret : MRet M := λ A a st, (Return a, st).

#[export] Instance M_bind : MBind M := λ A B f m st,
  match m st with
  | (Return a, st') => f a st'
  | (Raise e, st') => (Raise e, st')
  end.

Definition raise {A} (e : exn) : M A := λ st, (Raise e, st).

Definition gets {A} (f : pipeline → A) : M A := λ st, (Return (f st), st).

Definition deref (doc : nat) : M Document := λ st,
  match objects st !! doc with
  | Some d => (Return d, st)
  | None => (Raise DanglingReference, st)
  end.

Definition dict_read (md : nat) : M (gmap string value) := λ st,
  match dicts st !! md with
  | Some entries => (Return entries, st)
  | None => (Raise DanglingReference, st)
  end.

Definition dict_write (md : nat) (entries : gmap string value) : M unit :=
  λ st, (Return (), with_dicts <[md := entries]> st).

(** A dictionary that the caller builds: a new object. *)
Definition new_dict (entries : gmap string value) : M nat := λ st,
  let md := fresh (dom (dicts st)) in
  (Return md, with_dicts <[md := entries]> st).

(** [Document(page_content=..., metadata=md)]: the new object refers to
    the dictionary it is given. *)
Definition new_Document (content : string) (md : nat) : M nat := λ st,
  let doc := fresh (dom (objects st)) in
  (Return doc, with_objects <[doc := mkDocument content md]> st).

(** [doc.page_content] *)
Definition get_page_content (doc : nat) : M string :=
  d ← deref doc; mret (page_content d).

(** [doc.metadata]: the dictionary itself, not a copy of it. *)
Definition get_metadata (doc : nat) : M nat :=
  d ← deref doc; mret (metadata d).

(** [md[key]] *)
Definition dict_getitem (md : nat) (key : string) : M value :=
  entries ← dict_read md;
  match entries !! key with
  | Some v => mret v
  | None => raise (KeyError key)
  end.

(** [md[key] = v] *)
Definition dict_setitem (md : nat) (key : string) (v : value) : M unit :=
  entries ← dict_read md;
  dict_write md (<[key := v]> entries).

(** [md.update(other)] for a dictionary object [other]: the entries of
    [other] are written into [md], and [other] stays as it is. *)
Definition dict_update (md other : nat) : M unit :=
  new_entries ← dict_read other;
  entries ← dict_read md;
  dict_write md (new_entries ∪ entries).

(** [md.update({...})]: the argument is a dictionary display, which
    nothing else refers to; it is not given an address. *)
Definition dict_update_display (md : nat) (new_entries : gmap string value)
    : M unit :=
  entries ← dict_read md;
  dict_write md (new_entries ∪ entries).

(** [doc.metadata[key] = v] *)
Definition metadata_setitem (doc : nat) (key : string) (v : value) : M unit :=
  md ← get_metadata doc;
  dict_setitem md key v.

(** [for x in xs: body(x)] *)
Fixpoint for_each {A} (xs : list A) (body : A → M unit) : M unit :=
  match xs with
  | [] => mret ()
  | x :: xs' => body x;; for_each xs' body
  end.

(** [for x in xs: acc = body(x, acc)] *)
Fixpoint for_fold {A B} (xs : list A) (acc : B) (body : A → B → M B) : M B :=
  match xs with
  | [] => mret acc
  | x :: xs' => acc' ← body x acc; for_fold xs' acc' body
  end.

(** [[f(x) for x in xs]] *)
Fixpoint for_list {A B} (xs : list A) (f : A → M B) : M (list B) :=
  match xs with
  | [] => mret []
  | x :: xs' => y ← f x; ys ← for_list xs' f; mret (y :: ys)
  end.

(** [self.parent_child_map[key] = v] *)
Definition parent_child_map_setitem (key : string) (v : value) : M unit :=
  λ st,
    (Return (), mkPipeline (objects st) (dicts st) (uuids_drawn st)
                  (documents st) (chunks st)
                  (<[key := v]> (parent_child_map st))).

Section Pipeline.

Variable uuid4_str : nat → string.
Variable split_text_fragments : string → list (string * gmap string value).

(** [str(uuid.uuid4())] *)
Definition uuid4 : M string := λ st,
  (Return (uuid4_str (uuids_drawn st)),
   mkPipeline (objects st) (dicts st) (S (uuids_drawn st)) (documents st)
     (chunks st) (parent_child_map st)).

(** [markdown_splitter.split_text(text)]: every fragment is a new
    [Document] object with a new dictionary.  The splitter receives the
    text only, so it holds no dictionary of the pipeline. *)
Definition split_text (text : string) : M (list nat) :=
  for_list (split_text_fragments text)
    (λ fragment, md ← new_dict fragment.2; new_Document fragment.1 md).

(** The body of the loop over [enumerate(md_chunks)]. *)
Definition link_chunk (doc : nat) (parent_id : value) (item : nat * nat)
    : M unit :=
  let '(i, chunk) := item in
  child_id ← uuid4;
  chunk_metadata ← get_metadata chunk;
  doc_metadata ← get_metadata doc;
  dict_update chunk_metadata doc_metadata;;
  chunk_metadata ← get_metadata chunk;
  dict_update_display chunk_metadata
    {[ "chunk_id" := VStr child_id;
       "parent_id" := parent_id;
       "doc_type" := VStr "child";
       "chunk_index" := VInt (Z.of_nat i) ]};;
  parent_child_map_setitem child_id parent_id.

(** The body of the loop over [self.documents]. *)
Definition split_document (doc : nat) (all_chunks : list nat)
    : M (list nat) :=
  content ← get_page_content doc;
  md_chunks ← split_text content;
  doc_metadata ← get_metadata doc;
  parent_id ← dict_getitem doc_metadata "parent_id";
  for_each (enumerate md_chunks) (link_chunk doc parent_id);;
  mret (all_chunks ++ md_chunks).

Definition _markdown_header_split : M (list nat) :=
  docs ← gets documents;
  for_fold docs [] split_document.

End Pipeline.

(** The metadata dictionary that [doc] refers to, if both exist. *)
Definition read_dict (st : pipeline) (doc : nat)
    : option (gmap string value) :=
  d ← objects st !! doc; dicts st !! metadata d.

(** The entry [key] of the metadata of [doc]. *)
Definition read_metadata (st : pipeline) (doc : nat) (key : string)
    : option value :=
  entries ← read_dict st doc; entries !! key.

(** Every listed document is an object whose metadata carries a
    [parent_id]. *)
Definition documents_loaded (st : pipeline) : Prop :=
  ∀ doc, doc ∈ documents st →
    ∃ entries, read_dict st doc = Some entries ∧
               is_Some (entries !! "parent_id").

(** [doc] and [section] are objects and refer to two dictionaries. *)
Definition separate_metadata (st : pipeline) (doc section : nat) : Prop :=
  ∃ d s, objects st !! doc = Some d ∧ objects st !! section = Some s ∧
         metadata d ≠ metadata s.

Section SectionsOf.

Variable split_text_fragments : string → list (string * gmap string value).

(** [group] is the list of sections made from [doc]: one object per
    fragment of the document's content, in emission order, the [i]-th
    with the fragment's text and a dictionary that did not exist before,
    which holds the metadata of position [i]. *)
Definition sections_of (st st' : pipeline) (doc : nat) (group : list nat)
    : Prop :=
  ∃ d entries parent_id,
    objects st !! doc = Some d ∧
    dicts st !! metadata d = Some entries ∧
    entries !! "parent_id" = Some parent_id ∧
    length group = length (split_text_fragments (page_content d)) ∧
    ∀ i chunk, group !! i = Some chunk →
      ∃ fragment child_id md,
        split_text_fragments (page_content d) !! i = Some fragment ∧
        objects st' !! chunk = Some (mkDocument fragment.1 md) ∧
        dicts st !! md = None ∧
        dicts st' !! md
        = Some (section_metadata child_id parent_id i entries fragment.2).

End SectionsOf.

End Ref.

(** A state in which every document has a dictionary of its own, as
    [load_documents] builds them: the dictionary of the object at address
    [l] is at address [l]. *)
Definition with_own_dicts (st : pipeline) : Ref.pipeline :=
  Ref.mkPipeline
    (map_imap (λ l d, Some (Ref.mkDocument (page_content d) l)) (store st))
    (metadata <$> store st)
    (uuids_drawn st) (documents st) (chunks st) (parent_child_map st).

(** The loaded recipes, and their sections. *)
Definition two_recipes_loaded_refs : Ref.pipeline :=
  with_own_dicts two_recipes_loaded.

Definition two_recipes_sections_refs : outcome (list nat) * Ref.pipeline :=
  Ref._markdown_header_split example_uuid4 example_split_text
    two_recipes_loaded_refs.

(** [m'], over the store that keeps the dictionaries apart, does what [m]
    does, on every state in which each document has a dictionary of its
    own: the same result, and the same state again. *)
Definition agrees {A} (m : M A) (m' : Ref.M A) : Prop :=
  ∀ st, m' (with_own_dicts st) = ((m st).1, with_own_dicts (m st).2).

(** * Properties *)

(** ** Running computations *)

Lemma bind_Return {A B} (m : M A) (f : A → M B) st a st' :
  m st = (Return a, st') → (m ≫= f) st = f a st'.
Proof. intros H. unfold mbind, M_bind. by rewrite H. Qed.

Lemma bind_Raise {A B} (m : M A) (f : A → M B) st e st' :
  m st = (Raise e, st') → (m ≫= f) st = (Raise e, st').
Proof. intros H. unfold mbind, M_bind. by rewrite H. Qed.

Lemma set_obj_lookup st doc d : store (set_obj st doc d) !! doc = Some d.
Proof. apply lookup_insert_eq. Qed.

Lemma set_obj_lookup_ne st doc d l :
  doc ≠ l → store (set_obj st doc d) !! l = store st !! l.
Proof. intros. by apply lookup_insert_ne. Qed.

Lemma set_obj_twice st doc d1 d2 :
  set_obj (set_obj st doc d1) doc d2 = set_obj st doc d2.
Proof. unfold set_obj, with_store. simpl. by rewrite insert_insert_eq. Qed.

Lemma deref_run st doc d :
  store st !! doc = Some d → deref doc st = (Return d, st).
Proof. intros H. unfold deref. by rewrite H. Qed.

Lemma deref_dangling st doc :
  store st !! doc = None → deref doc st = (Raise DanglingReference, st).
Proof. intros H. unfold deref. by rewrite H. Qed.

Lemma get_metadata_run st doc d :
  store st !! doc = Some d → get_metadata doc st = (Return (metadata d), st).
Proof. intros H. unfold get_metadata. by rewrite (bind_Return _ _ _ _ _ (deref_run _ _ _ H)). Qed.

Lemma get_page_content_run st doc d :
  store st !! doc = Some d →
  get_page_content doc st = (Return (page_content d), st).
Proof. intros H. unfold get_page_content. by rewrite (bind_Return _ _ _ _ _ (deref_run _ _ _ H)). Qed.

Lemma metadata_get_run st doc d key :
  store st !! doc = Some d →
  metadata_get doc key st = (Return (metadata d !! key), st).
Proof. intros H. unfold metadata_get. by rewrite (bind_Return _ _ _ _ _ (get_metadata_run _ _ _ H)). Qed.

Lemma metadata_setitem_run st doc d key v :
  store st !! doc = Some d →
  metadata_setitem doc key v st
  = (Return (), set_obj st doc (mkDocument (page_content d) (<[key := v]> (metadata d)))).
Proof. intros H. unfold metadata_setitem. by rewrite (bind_Return _ _ _ _ _ (deref_run _ _ _ H)). Qed.

Lemma metadata_update_run st doc d other :
  store st !! doc = Some d →
  metadata_update doc other st
  = (Return (), set_obj st doc (mkDocument (page_content d) (other ∪ metadata d))).
Proof. intros H. unfold metadata_update. by rewrite (bind_Return _ _ _ _ _ (deref_run _ _ _ H)). Qed.

(** ** Enrichment in closed form *)

Lemma category_loop_run items path_parts st doc d :
  store st !! doc = Some d →
  category_loop items path_parts doc st
  = (Return (),
     match List.find (λ kv, bool_decide (kv.1 ∈ path_parts)) items with
     | Some kv =>
         set_obj st doc
           (mkDocument (page_content d)
              (<["category" := VStr kv.2]> (metadata d)))
     | None => st
     end).
Proof.
  intros H. induction items as [|[key v] items IH]; simpl; [done|].
  case_bool_decide; simpl; [by apply metadata_setitem_run | exact IH].
Qed.

Lemma enhance_run st doc d s :
  store st !! doc = Some d →
  source_of d = VStr s →
  _enhance_metadata doc st = (Return (), set_obj st doc (enhanced d s)).
Proof.
  intros H Hs. unfold _enhance_metadata.
  rewrite (bind_Return _ _ _ _ _ (metadata_get_run _ _ _ "source" H)).
  fold (source_of d). rewrite Hs. simpl Path_of.
  erewrite bind_Return by reflexivity.
  erewrite bind_Return by (by apply metadata_setitem_run).
  erewrite bind_Return by (apply category_loop_run, set_obj_lookup).
  set (path_parts := Path.parts (Path.of_str s)).
  assert (match List.find (λ kv, bool_decide (kv.1 ∈ path_parts))
                  category_mapping with
          | Some kv =>
              set_obj
                (set_obj st doc
                   (mkDocument (page_content d)
                      (<["category" := VStr "其他"]> (metadata d))))
                doc
                (mkDocument (page_content d)
                   (<["category" := VStr kv.2]>
                      (<["category" := VStr "其他"]> (metadata d))))
          | None =>
              set_obj st doc
                (mkDocument (page_content d)
                   (<["category" := VStr "其他"]> (metadata d)))
          end
          = set_obj st doc
              (mkDocument (page_content d)
                 (<["category" := VStr (category_in_mapping_order path_parts)]>
                    (metadata d)))) as Hcat.
  { unfold category_in_mapping_order, default_category.
    destruct (List.find _ category_mapping); [|done].
    by rewrite set_obj_twice, insert_insert_eq. }
  simpl in Hcat |- *. rewrite Hcat. clear Hcat.
  erewrite bind_Return by (apply metadata_setitem_run, set_obj_lookup).
  rewrite set_obj_twice.
  erewrite bind_Return by (apply get_page_content_run, set_obj_lookup).
  cbn [page_content metadata].
  assert (∀ label,
    metadata_setitem doc "difficulty" (VStr label)
      (set_obj st doc
         (mkDocument (page_content d)
            (<["dish_name" := VStr (Path.stem (Path.of_str s))]>
               (<["category" := VStr (category_in_mapping_order path_parts)]>
                  (metadata d)))))
    = (Return (),
       set_obj st doc
         (mkDocument (page_content d)
            (<["difficulty" := VStr label]>
               (<["dish_name" := VStr (Path.stem (Path.of_str s))]>
                  (<["category" := VStr (category_in_mapping_order path_parts)]>
                     (metadata d))))))) as Hset.
  { intros label.
    erewrite metadata_setitem_run by apply set_obj_lookup.
    by rewrite set_obj_twice. }
  unfold enhanced, infer_difficulty. fold path_parts.
  repeat (case_match; [apply Hset|]). apply Hset.
Qed.

(** ** Substrings and star runs *)

Lemma append_nil (b : string) : "" +:+ b = b.
Proof. reflexivity. Qed.

Lemma append_cons x (a b : string) : String x a +:+ b = String x (a +:+ b).
Proof. reflexivity. Qed.

Lemma append_assoc (a b c : string) : (a +:+ b) +:+ c = a +:+ (b +:+ c).
Proof.
  induction a as [|x a IH]; [done|]. by rewrite !append_cons, IH.
Qed.

Lemma length_append (a b : string) :
  String.length (a +:+ b) = String.length a + String.length b.
Proof.
  induction a as [|x a IH]; [done|]. rewrite append_cons. simpl. by rewrite IH.
Qed.

Lemma prefix_append (a c : string) : String.prefix a (a +:+ c) = true.
Proof.
  induction a as [|x a IH]; [by destruct c|].
  rewrite append_cons. simpl. by destruct (ascii_dec x x).
Qed.

Lemma prefix_inv (a b : string) :
  String.prefix a b = true → ∃ c, b = a +:+ c.
Proof.
  revert b. induction a as [|x a IH]; intros b H.
  - by exists b.
  - destruct b as [|y b]; simpl in H; [done|].
    destruct (ascii_dec x y) as [->|]; [|done].
    destruct (IH _ H) as [c ->]. by exists c.
Qed.

Lemma contains_unfold (needle hay : string) :
  Str.contains needle hay
  = String.prefix needle hay ||
    match hay with
    | EmptyString => false
    | String _ hay' => Str.contains needle hay'
    end.
Proof. by destruct hay. Qed.

Lemma contains_prefix (needle hay : string) :
  String.prefix needle hay = true → Str.contains needle hay = true.
Proof. intros H. by rewrite contains_unfold, H. Qed.

Lemma contains_intro (needle pre post : string) :
  Str.contains needle (pre +:+ needle +:+ post) = true.
Proof.
  induction pre as [|x pre IH].
  - rewrite append_nil. apply contains_prefix, prefix_append.
  - rewrite append_cons, contains_unfold, IH. apply orb_true_r.
Qed.

Lemma contains_inv (needle hay : string) :
  Str.contains needle hay = true →
  ∃ pre post, hay = pre +:+ needle +:+ post.
Proof.
  induction hay as [|x hay IH]; rewrite contains_unfold; intros H.
  - rewrite orb_false_r in H. destruct (prefix_inv _ _ H) as [c Hc].
    by exists "", c.
  - apply orb_true_iff in H as [H|H].
    + destruct (prefix_inv _ _ H) as [c Hc]. by exists "", c.
    + destruct (IH H) as (pre & post & ->). by exists (String x pre), post.
Qed.

Lemma contains_length (needle hay : string) :
  Str.contains needle hay = true → String.length needle ≤ String.length hay.
Proof.
  intros H. destruct (contains_inv _ _ H) as (pre & post & ->).
  rewrite !length_append. lia.
Qed.

Lemma stars_length k : String.length (stars k) = 3 * k.
Proof.
  induction k as [|k IH]; [done|].
  unfold stars in *. simpl Str.repeat. rewrite length_append, IH.
  change (String.length star) with 3. lia.
Qed.

(** A run of [k + 1] stars contains a run of [k] stars. *)
Lemma has_star_run_pred k content :
  has_star_run (S k) content = true → has_star_run k content = true.
Proof.
  unfold has_star_run. intros H.
  destruct (contains_inv _ _ H) as (pre & post & ->).
  change (stars (S k)) with (star +:+ stars k).
  rewrite (append_assoc star), <- (append_assoc pre star).
  apply contains_intro.
Qed.

Lemma has_star_run_le j k content :
  j ≤ k → has_star_run k content = true → has_star_run j content = true.
Proof.
  induction 1 as [|k Hle IH]; [done|].
  intros H. by apply IH, has_star_run_pred.
Qed.

Lemma has_star_run_0 content : has_star_run 0 content = true.
Proof. unfold has_star_run. by destruct content. Qed.

Lemma longest_star_run_upto_has n content :
  has_star_run (longest_star_run_upto n content) content = true.
Proof.
  induction n as [|n IH]; simpl; [apply has_star_run_0|].
  by destruct (has_star_run (S n) content) eqn:E.
Qed.

Lemma longest_star_run_upto_max n k content :
  k ≤ n → has_star_run k content = true →
  k ≤ longest_star_run_upto n content.
Proof.
  induction n as [|n IH]; simpl; intros Hle H; [lia|].
  destruct (has_star_run (S n) content) eqn:E; [done|].
  apply IH; [|done]. destruct (decide (k = S n)) as [->|]; [congruence | lia].
Qed.

(** [longest_star_run] is the longest run: a run of that length occurs and
    no longer one does. *)
Lemma longest_star_run_spec k content :
  has_star_run k content = true ↔ k ≤ longest_star_run content.
Proof.
  split; intros H.
  - apply longest_star_run_upto_max; [|done].
    apply contains_length in H. rewrite stars_length in H. lia.
  - eapply has_star_run_le; [exact H|]. apply longest_star_run_upto_has.
Qed.

Lemma has_star_run_leb k content :
  has_star_run k content = (k <=? longest_star_run content).
Proof.
  pose proof (longest_star_run_spec k content) as [H1 H2].
  destruct (Nat.leb_spec k (longest_star_run content)) as [Hle|Hlt].
  - by apply H2.
  - destruct (has_star_run k content); [|done]. specialize (H1 eq_refl). lia.
Qed.

Lemma infer_difficulty_tier content :
  infer_difficulty content = difficulty_tier (longest_star_run content).
Proof.
  unfold infer_difficulty.
  change (Str.contains "★★★★★" content) with (has_star_run 5 content).
  change (Str.contains "★★★★" content) with (has_star_run 4 content).
  change (Str.contains "★★★" content) with (has_star_run 3 content).
  change (Str.contains "★★" content) with (has_star_run 2 content).
  change (Str.contains "★" content) with (has_star_run 1 content).
  rewrite !has_star_run_leb.
  destruct (longest_star_run content) as [|[|[|[|[|n]]]]]; reflexivity.
Qed.

(** ** Enrichment: category, difficulty and frame *)

Lemma enhance_raise st doc d n :
  store st !! doc = Some d →
  source_of d = VInt n →
  _enhance_metadata doc st = (Raise TypeError, st).
Proof.
  intros H Hs. unfold _enhance_metadata.
  rewrite (bind_Return _ _ _ _ _ (metadata_get_run _ _ _ "source" H)).
  fold (source_of d). by rewrite Hs.
Qed.

Lemma read_metadata_set_obj st doc d key :
  read_metadata (set_obj st doc d) doc key = metadata d !! key.
Proof. unfold read_metadata. by rewrite set_obj_lookup. Qed.

Lemma find_first {A} (P : A → bool) (l : list A) i x :
  l !! i = Some x →
  P x = true →
  (∀ j y, j < i → l !! j = Some y → P y = false) →
  List.find P l = Some x.
Proof.
  revert i. induction l as [|a l IH]; intros i Hi Hx Hbefore; [done|].
  destruct i as [|i]; simpl in *.
  - injection Hi as ->. by rewrite Hx.
  - rewrite (Hbefore 0 a) by (done || lia).
    apply (IH i); [done..|].
    intros j y Hj Hy. apply (Hbefore (S j)); [lia | done].
Qed.

Lemma find_none {A} (P : A → bool) (l : list A) :
  (∀ x, x ∈ l → P x = false) → List.find P l = None.
Proof.
  induction l as [|a l IH]; intros H; [done|]. simpl.
  rewrite (H a) by left. apply IH. intros x Hx. apply H. by right.
Qed.

(** C5 (amended): [_enhance_metadata] gives every document whose source is
    a path exactly one category.  It is the label of the first key of the
    fixed mapping, in the order of the mapping (meat_dish, vegetable, soup,
    desert, breakfast, staple, squatic, condiment, drink), that equals a
    segment of the path; when no segment is a key, it is the default
    label. *)
Theorem category_first_in_mapping_order st doc d s :
  store st !! doc = Some d →
  source_of d = VStr s →
  ∃ st' label,
    _enhance_metadata doc st = (Return (), st') ∧
    read_metadata st' doc "category" = Some (VStr label) ∧
    label = category_in_mapping_order (Path.parts (Path.of_str s)) ∧
    (∀ i key value,
       category_mapping !! i = Some (key, value) →
       key ∈ Path.parts (Path.of_str s) →
       (∀ j earlier, j < i → category_mapping.*1 !! j = Some earlier →
                     earlier ∉ Path.parts (Path.of_str s)) →
       label = value) ∧
    ((∀ key, key ∈ category_mapping.*1 →
             key ∉ Path.parts (Path.of_str s)) →
     label = default_category).
Proof.
  intros H Hs. eexists _, _. split; [by apply enhance_run|].
  split; [|split; [reflexivity|split]].
  - rewrite read_metadata_set_obj. unfold enhanced. cbn [metadata].
    by rewrite !lookup_insert_ne, lookup_insert_eq by done.
  - intros i key value Hi Hin Hbefore. unfold category_in_mapping_order.
    rewrite (find_first _ _ i (key, value)); [done|done|by apply bool_decide_eq_true|].
    intros j [key' value'] Hj Hy. apply bool_decide_eq_false.
    apply (Hbefore j); [done|]. by rewrite list_lookup_fmap, Hy.
  - intros Hnone. unfold category_in_mapping_order.
    rewrite find_none; [done|].
    intros [key value] Hx. apply bool_decide_eq_false, Hnone.
    apply list_elem_of_fmap. by exists (key, value).
Qed.

(** C9: [_enhance_metadata] sets the difficulty to the tier of the longest
    run of consecutive star glyphs in the content (runs of five or more
    are the hardest tier): a content with a five-star run is tiered
    hardest whatever other stars it has, and a content without a star is
    tiered unknown. *)
Theorem difficulty_longest_star_run st doc d s :
  store st !! doc = Some d →
  source_of d = VStr s →
  ∃ st',
    _enhance_metadata doc st = (Return (), st') ∧
    read_metadata st' doc "difficulty"
    = Some (VStr (difficulty_tier (longest_star_run (page_content d)))) ∧
    (Str.contains "★★★★★" (page_content d) = true →
     read_metadata st' doc "difficulty" = Some (VStr "非常困难")) ∧
    (Str.contains "★" (page_content d) = false →
     read_metadata st' doc "difficulty" = Some (VStr "难度未知")).
Proof.
  intros H Hs. eexists. split; [by apply enhance_run|].
  rewrite read_metadata_set_obj. unfold enhanced. cbn [metadata].
  rewrite lookup_insert_eq, infer_difficulty_tier.
  split; [done|split]; intros Hrun; do 2 f_equal.
  - change (has_star_run 5 (page_content d) = true) in Hrun.
    rewrite has_star_run_leb in Hrun. apply Nat.leb_le in Hrun.
    destruct (longest_star_run (page_content d)) as [|[|[|[|[|n]]]]];
      (done || lia).
  - change (has_star_run 1 (page_content d) = false) in Hrun.
    rewrite has_star_run_leb in Hrun. apply Nat.leb_gt in Hrun.
    destruct (longest_star_run (page_content d)); (done || lia).
Qed.

(** C10: [_enhance_metadata] leaves the content of the document and every
    metadata entry under a key other than category, dish_name and
    difficulty as they were, and touches no other object. *)
Theorem enhance_metadata_frame st doc d :
  store st !! doc = Some d →
  ∃ d',
    store (_enhance_metadata doc st).2 !! doc = Some d' ∧
    page_content d' = page_content d ∧
    (∀ key, key ∉ enriched_keys → metadata d' !! key = metadata d !! key) ∧
    (∀ other, other ≠ doc →
       store (_enhance_metadata doc st).2 !! other = store st !! other) ∧
    documents (_enhance_metadata doc st).2 = documents st ∧
    chunks (_enhance_metadata doc st).2 = chunks st ∧
    parent_child_map (_enhance_metadata doc st).2 = parent_child_map st.
Proof.
  intros H. destruct (source_of d) as [s|n] eqn:Hs.
  - rewrite (enhance_run _ _ _ _ H Hs). exists (enhanced d s). simpl.
    split; [apply lookup_insert_eq|]. split; [done|].
    split; [|split; [|done]].
    + intros key Hkey. unfold enriched_keys in Hkey.
      rewrite !lookup_insert_ne; [done|..]; intros <-; apply Hkey;
        set_solver.
    + intros other Hne. by apply lookup_insert_ne.
  - rewrite (enhance_raise _ _ _ _ H Hs). by exists d.
Qed.

(** ** Aggregation *)

Lemma read_metadata_lookup st doc d key :
  store st !! doc = Some d → read_metadata st doc key = metadata d !! key.
Proof. intros H. unfold read_metadata. by rewrite H. Qed.

(** The first vote already returns: an empty list when the parent-child
    map is empty, and otherwise the attribute error of its first key. *)
Lemma vote_and_return_run parent_id st :
  vote_and_return parent_id [] [] st
  = (if decide (parent_child_map st = ∅)
     then Return (PyList [])
     else Raise (AttributeError "metadata"), st).
Proof.
  unfold vote_and_return. simpl.
  unfold mbind at 1, M_bind. unfold mbind at 1, M_bind. unfold gets.
  destruct (map_to_list (parent_child_map st)) as [|[key v] keys] eqn:E.
  - apply map_to_list_empty_iff in E. rewrite decide_True by done.
    done.
  - rewrite decide_False; [done|].
    intros Hempty. by rewrite Hempty, map_to_list_empty in E.
Qed.

(** [get_parent_documents] in closed form. *)
Lemma get_parent_documents_run child_chunks st :
  Forall (λ chunk, is_Some (store st !! chunk)) child_chunks →
  get_parent_documents child_chunks st
  = (if existsb (λ chunk, truthy (read_metadata st chunk "parent_id"))
          child_chunks
     then if decide (parent_child_map st = ∅)
          then Return (PyList [])
          else Raise (AttributeError "metadata")
     else Return PyNone, st).
Proof.
  unfold get_parent_documents.
  induction 1 as [|chunk child_chunks [d Hd] _ IH]; [done|]. simpl.
  rewrite (bind_Return _ _ _ _ _ (metadata_get_run _ _ _ "parent_id" Hd)).
  rewrite (read_metadata_lookup _ _ _ _ Hd).
  destruct (metadata d !! "parent_id") as [pid|] eqn:Hpid; [|exact IH].
  destruct (truthy (Some pid)); [apply vote_and_return_run | exact IH].
Qed.

Lemma metadata_get_dangling st doc key :
  store st !! doc = None →
  metadata_get doc key st = (Raise DanglingReference, st).
Proof.
  intros H. unfold metadata_get, get_metadata.
  by rewrite (bind_Raise _ _ _ _ _
                (bind_Raise _ _ _ _ _ (deref_dangling _ _ H))).
Qed.

(** Aggregation never changes the state and never raises a [ValueError]. *)
Lemma get_parent_documents_no_check child_chunks st :
  (get_parent_documents child_chunks st).2 = st ∧
  ∀ msg, (get_parent_documents child_chunks st).1 ≠ Raise (ValueError msg).
Proof.
  unfold get_parent_documents.
  induction child_chunks as [|chunk child_chunks IH]; [done|]. simpl.
  destruct (store st !! chunk) as [d|] eqn:Hd.
  - rewrite (bind_Return _ _ _ _ _ (metadata_get_run _ _ _ "parent_id" Hd)).
    destruct (metadata d !! "parent_id") as [pid|]; [|exact IH].
    destruct (truthy (Some pid)); [|exact IH].
    rewrite vote_and_return_run. by destruct (decide _).
  - by rewrite (bind_Raise _ _ _ _ _ (metadata_get_dangling _ _ "parent_id" Hd)).
Qed.

(** Every listed section is an object of a given, closed store. *)
Ltac in_store :=
  repeat (apply Forall_cons_2; [vm_compute; by eexists|]); apply Forall_nil_2.

(** C3: called with no section, [get_parent_documents] runs off the end of
    its loop and evaluates to [None], not to an empty list. *)
Theorem get_parent_documents_no_sections st :
  get_parent_documents [] st = (Return PyNone, st) ∧
  (get_parent_documents [] st).1 ≠ Return (PyList []).
Proof. done. Qed.

(** C1: for the three sections of [two_recipes] (two of the first recipe,
    one of the second) [get_parent_documents] raises an attribute error on
    the first key of the parent-child map; it does not return the two
    recipes. *)
Theorem get_parent_documents_three_sections :
  documents two_recipes_split = [0; 1] ∧
  chunks two_recipes_split = [2; 3; 4] ∧
  (λ chunk, read_metadata two_recipes_split chunk "parent_id")
    <$> [2; 3; 4]
  = [read_metadata two_recipes_split 0 "parent_id";
     read_metadata two_recipes_split 0 "parent_id";
     read_metadata two_recipes_split 1 "parent_id"] ∧
  get_parent_documents [2; 3; 4] two_recipes_split
  = (Raise (AttributeError "metadata"), two_recipes_split) ∧
  (get_parent_documents [2; 3; 4] two_recipes_split).1
  ≠ Return (PyList [ODoc 0; ODoc 1]).
Proof.
  split; [by vm_compute|]. split; [by vm_compute|]. split; [by vm_compute|].
  assert (get_parent_documents [2; 3; 4] two_recipes_split
          = (Raise (AttributeError "metadata"), two_recipes_split)) as Hrun.
  { rewrite get_parent_documents_run; [vm_compute; reflexivity | in_store]. }
  split; [exact Hrun|]. rewrite Hrun. cbn [fst]. discriminate.
Qed.

(** C2: a section whose parent identity names no document, given together
    with two sections of the first recipe, makes [get_parent_documents]
    raise an attribute error. *)
Theorem get_parent_documents_orphan_section :
  read_metadata with_orphan_section 5 "parent_id"
  = Some (VStr "no-such-parent") ∧
  (∀ doc, doc ∈ documents with_orphan_section →
     read_metadata with_orphan_section doc "parent_id"
     ≠ Some (VStr "no-such-parent")) ∧
  parent_child_map with_orphan_section !! "no-such-parent" = None ∧
  get_parent_documents [5; 2; 3] with_orphan_section
  = (Raise (AttributeError "metadata"), with_orphan_section) ∧
  get_parent_documents [5] with_orphan_section
  = (Raise (AttributeError "metadata"), with_orphan_section).
Proof.
  split; [by vm_compute|]. split.
  { assert (documents with_orphan_section = [0; 1]) as ->
      by (vm_compute; reflexivity).
    intros doc Hdoc.
    apply list_elem_of_In in Hdoc as [<-|[<-|[]]]; vm_compute; discriminate. }
  split; [by vm_compute|].
  split; (rewrite get_parent_documents_run;
          [vm_compute; reflexivity | in_store]).
Qed.

(** C8, as the specification states it, fails: on the empty pipeline
    [get_parent_documents] returns. *)
Lemma aggregation_does_not_fail_fast :
  ¬ fails_fast_when_unloaded example_uuid4 example_split_text.
Proof.
  intros Hclaim.
  destruct (Hclaim empty_pipeline eq_refl) as [_ Haggregate].
  destruct (Haggregate []) as [msg Hmsg]. discriminate Hmsg.
Qed.

(** C8 (amended): on an empty document set [chunk_documents] raises a
    [ValueError] and leaves the state as it was: no chunk, no entry of the
    parent-child map, no result.  [get_parent_documents] has no such
    check: it never raises a [ValueError]. *)
Theorem chunk_documents_requires_documents
    (uuid4_str : nat → string)
    (split_text_fragments : string → list (string * gmap string value)) st :
  documents st = [] →
  chunk_documents uuid4_str split_text_fragments st
  = (Raise (ValueError "先加载文档"), st) ∧
  ∀ child_chunks msg,
    (get_parent_documents child_chunks st).1 ≠ Raise (ValueError msg).
Proof.
  intros Hdocs. split.
  - unfold chunk_documents.
    erewrite bind_Return by reflexivity. by rewrite Hdocs.
  - intros child_chunks. apply get_parent_documents_no_check.
Qed.

(** ** Splitting *)

Lemma new_Document_run content md st :
  new_Document content md st
  = (Return (fresh (dom (store st))),
     set_obj st (fresh (dom (store st))) (mkDocument content md)).
Proof. reflexivity. Qed.

Lemma fresh_not_in_store st : store st !! fresh (dom (store st)) = None.
Proof. apply not_elem_of_dom, is_fresh. Qed.

(** The new objects of [split_text]: as many as fragments, pairwise
    distinct, none of them an object of the store before. *)
Lemma allocate_fragments_run (frags : list (string * gmap string value)) st :
  ∃ cs st',
    for_list frags (λ fragment, new_Document fragment.1 fragment.2) st
    = (Return cs, st') ∧
    length cs = length frags ∧
    NoDup cs ∧
    (∀ c, c ∈ cs → store st !! c = None) ∧
    (∀ l, l ∉ cs → store st' !! l = store st !! l) ∧
    (∀ i c, cs !! i = Some c →
       ∃ fragment, frags !! i = Some fragment ∧
                   store st' !! c = Some (mkDocument fragment.1 fragment.2)) ∧
    uuids_drawn st' = uuids_drawn st ∧
    documents st' = documents st ∧
    chunks st' = chunks st ∧
    parent_child_map st' = parent_child_map st.
Proof.
  revert st. induction frags as [|fragment frags IH]; intros st.
  - exists [], st. repeat split; try done; [constructor|set_solver].
  - set (c0 := fresh (dom (store st))).
    set (st1 := set_obj st c0 (mkDocument fragment.1 fragment.2)).
    destruct (IH st1) as
      (cs & st' & Hrun & Hlen & Hnodup & Hnew & Hold & Hnth & Hu & Hd & Hc & Hm).
    assert (c0 ∉ cs) as Hc0.
    { intros Hin. apply Hnew in Hin. unfold st1 in Hin.
      by rewrite set_obj_lookup in Hin. }
    exists (c0 :: cs), st'. split.
    { simpl. rewrite (bind_Return _ _ _ _ _ (new_Document_run _ _ st)).
      fold c0 st1. by rewrite (bind_Return _ _ _ _ _ Hrun). }
    split; [simpl; by rewrite Hlen|].
    split; [by constructor|].
    split.
    { intros c [->|Hin]%elem_of_cons; [apply fresh_not_in_store|].
      specialize (Hnew c Hin). unfold st1 in Hnew.
      destruct (decide (c0 = c)) as [<-|Hne];
        [by rewrite set_obj_lookup in Hnew|].
      by rewrite set_obj_lookup_ne in Hnew. }
    split.
    { intros l Hl. apply not_elem_of_cons in Hl as [Hne Hl].
      rewrite (Hold l Hl). unfold st1. by apply set_obj_lookup_ne. }
    split; [|done].
    intros [|i] c Hi; simpl in Hi.
    + injection Hi as <-. exists fragment. split; [done|].
      rewrite (Hold c0 Hc0). apply set_obj_lookup.
    + apply (Hnth i c Hi).
Qed.

Lemma stamps_lookup (md : gmap string value) key a b :
  key ≠ "batch_index" → key ≠ "chunk_size" →
  (<["chunk_size" := a]> (<["batch_index" := b]> md)) !! key = md !! key.
Proof. intros H1 H2. by rewrite !lookup_insert_ne. Qed.

Lemma not_stamped_key key :
  key ∉ stamped_keys →
  "chunk_id" ≠ key ∧ "parent_id" ≠ key ∧ "doc_type" ≠ key ∧
  "chunk_index" ≠ key ∧ key ≠ "batch_index" ∧ key ≠ "chunk_size".
Proof.
  intros Hkey. unfold stamped_keys in Hkey.
  repeat split; intros Heq; subst key; apply Hkey; set_solver.
Qed.

Section Splitting.

Variable uuid4_str : nat → string.
Variable split_text_fragments : string → list (string * gmap string value).

Lemma link_chunk_run doc parent_id i chunk st dd dc :
  store st !! doc = Some dd →
  store st !! chunk = Some dc →
  link_chunk uuid4_str doc parent_id (i, chunk) st
  = (Return (),
     mkPipeline
       (<[chunk :=
            mkDocument (page_content dc)
              (section_metadata (uuid4_str (uuids_drawn st)) parent_id i
                 (metadata dd) (metadata dc))]> (store st))
       (S (uuids_drawn st)) (documents st) (chunks st)
       (<[uuid4_str (uuids_drawn st) := parent_id]> (parent_child_map st))).
Proof.
  intros Hdoc Hchunk. unfold link_chunk.
  erewrite bind_Return by reflexivity.
  erewrite bind_Return by (by apply get_metadata_run).
  erewrite bind_Return by (by apply metadata_update_run).
  erewrite bind_Return by (apply metadata_update_run, set_obj_lookup).
  rewrite set_obj_twice.
  unfold parent_child_map_setitem, set_obj, with_store, section_metadata.
  reflexivity.
Qed.

(** The loop over [enumerate(md_chunks)], started at position [k]. *)
Lemma link_chunks_run doc parent_id dd cs :
  ∀ k st,
    store st !! doc = Some dd →
    doc ∉ cs →
    NoDup cs →
    (∀ c, c ∈ cs → is_Some (store st !! c)) →
    ∃ st',
      for_each (zip (seq k (length cs)) cs) (link_chunk uuid4_str doc parent_id) st
      = (Return (), st') ∧
      documents st' = documents st ∧
      chunks st' = chunks st ∧
      (∀ l, l ∉ cs → store st' !! l = store st !! l) ∧
      (∀ j c dc, cs !! j = Some c → store st !! c = Some dc →
         ∃ child_id,
           store st' !! c
           = Some (mkDocument (page_content dc)
                     (section_metadata child_id parent_id (k + j)
                        (metadata dd) (metadata dc)))).
Proof.
  induction cs as [|c cs IH]; intros k st Hdoc Hnotin Hnodup Hin.
  - exists st. repeat split; done.
  - apply not_elem_of_cons in Hnotin as [Hne Hnotin].
    apply NoDup_cons in Hnodup as [Hc Hnodup].
    destruct (Hin c) as [dc Hdc]; [by left|].
    pose proof (link_chunk_run doc parent_id k c st dd dc Hdoc Hdc) as Hstep.
    set (st1 := mkPipeline _ _ _ _ _) in Hstep.
    destruct (IH (S k) st1) as (st' & Hrun & Hd & Hch & Hold & Hnth);
      [by (unfold st1; simpl; rewrite lookup_insert_ne)|done|done|..].
    { intros c' Hc'. unfold st1. simpl.
      destruct (decide (c = c')) as [<-|Hne'];
        [by rewrite lookup_insert_eq|].
      rewrite lookup_insert_ne by done. apply Hin. by right. }
    exists st'. split.
    { simpl. rewrite (bind_Return _ _ _ _ _ Hstep). exact Hrun. }
    split; [by rewrite Hd|]. split; [by rewrite Hch|]. split.
    { intros l Hl. apply not_elem_of_cons in Hl as [Hl1 Hl2].
      rewrite (Hold l Hl2). unfold st1. simpl. by rewrite lookup_insert_ne. }
    intros [|j] c' dc' Hj Hdc'; simpl in Hj.
    + injection Hj as <-. rewrite Hdc in Hdc'. injection Hdc' as <-.
      exists (uuid4_str (uuids_drawn st)). rewrite (Hold c Hc).
      unfold st1. simpl. by rewrite lookup_insert_eq, Nat.add_0_r.
    + assert (c ≠ c') as Hne'.
      { intros ->. apply Hc. by apply list_elem_of_lookup_2 in Hj. }
      destruct (Hnth j c' dc' Hj) as [child_id Hchild].
      { unfold st1. simpl. by rewrite lookup_insert_ne. }
      exists child_id. by rewrite Hchild, Nat.add_succ_r.
Qed.

(** One turn of the loop over [self.documents]. *)
Lemma split_document_run doc all_chunks st dd parent_id :
  store st !! doc = Some dd →
  metadata dd !! "parent_id" = Some parent_id →
  ∃ group st',
    split_document uuid4_str split_text_fragments doc all_chunks st
    = (Return (all_chunks ++ group), st') ∧
    documents st' = documents st ∧
    chunks st' = chunks st ∧
    NoDup group ∧
    (∀ l d, store st !! l = Some d → store st' !! l = Some d) ∧
    (∀ c, c ∈ group → is_Some (store st' !! c)) ∧
    sections_of split_text_fragments st st' doc group.
Proof.
  intros Hdoc Hpid. unfold split_document.
  erewrite bind_Return by (by apply get_page_content_run).
  destruct (allocate_fragments_run (split_text_fragments (page_content dd)) st)
    as (cs & st1 & Hrun & Hlen & Hnodup & Hnew & Hold & Hnth & Hu & Hd & Hc & Hm).
  unfold split_text. erewrite bind_Return by exact Hrun.
  assert (doc ∉ cs) as Hnotin.
  { intros Hin. apply Hnew in Hin. congruence. }
  assert (store st1 !! doc = Some dd) as Hdoc1 by (by rewrite Hold).
  erewrite bind_Return;
    [|unfold metadata_getitem;
      erewrite bind_Return by (by apply get_metadata_run);
      rewrite Hpid; reflexivity].
  destruct (link_chunks_run doc parent_id dd cs 0 st1 Hdoc1 Hnotin Hnodup)
    as (st' & Hlink & Hd' & Hc' & Hold' & Hnth').
  { intros c Hin. apply list_elem_of_lookup in Hin as [i Hi].
    destruct (Hnth i c Hi) as (fragment & _ & Hfrag). by rewrite Hfrag. }
  unfold enumerate. erewrite bind_Return by exact Hlink.
  exists cs, st'. split; [done|].
  split; [congruence|]. split; [congruence|]. split; [done|]. split.
  { intros l d Hl. rewrite Hold', Hold; [done|..];
      intros Hin; apply Hnew in Hin; congruence. }
  split.
  { intros c Hin. apply list_elem_of_lookup in Hin as [i Hi].
    destruct (Hnth i c Hi) as (fragment & _ & Hfrag).
    destruct (Hnth' i c _ Hi Hfrag) as [child_id Hchild]. by rewrite Hchild. }
  exists dd, parent_id. split; [done|]. split; [done|]. split; [done|].
  intros i c Hi. split; [apply Hnew; by apply list_elem_of_lookup_2 in Hi|].
  destruct (Hnth i c Hi) as (fragment & Hfragment & Hfrag).
  destruct (Hnth' i c _ Hi Hfrag) as [child_id Hchild].
  exists fragment, child_id. split; [done|]. exact Hchild.
Qed.

(** Sections stay what they are when later steps keep the objects that
    exist. *)
Lemma sections_of_later st st1 st' doc group :
  (∀ l d, store st1 !! l = Some d → store st' !! l = Some d) →
  sections_of split_text_fragments st st1 doc group →
  sections_of split_text_fragments st st' doc group.
Proof.
  intros Hkeep (d & parent_id & Hd & Hpid & Hlen & Hnth).
  exists d, parent_id. split; [done|]. split; [done|]. split; [done|].
  intros i c Hi. destruct (Hnth i c Hi) as (Hnew & fragment & child_id & Hf & Hc).
  split; [done|]. exists fragment, child_id. split; [done|]. by apply Hkeep.
Qed.

Lemma sections_of_earlier st st1 st' doc group d :
  store st !! doc = Some d →
  (∀ l x, store st !! l = Some x → store st1 !! l = Some x) →
  sections_of split_text_fragments st1 st' doc group →
  sections_of split_text_fragments st st' doc group.
Proof.
  intros Hdoc Hkeep (d1 & parent_id & Hd1 & Hpid & Hlen & Hnth).
  rewrite (Hkeep _ _ Hdoc) in Hd1. injection Hd1 as <-.
  exists d, parent_id. split; [done|]. split; [done|]. split; [done|].
  intros i c Hi. destruct (Hnth i c Hi) as (Hnew & Hrest).
  split; [|done].
  destruct (store st !! c) as [x|] eqn:Hx; [|done].
  rewrite (Hkeep _ _ Hx) in Hnew. done.
Qed.

Lemma sections_of_all_earlier st st1 st' docs groups :
  (∀ doc, doc ∈ docs → is_Some (store st !! doc)) →
  (∀ l x, store st !! l = Some x → store st1 !! l = Some x) →
  Forall2 (sections_of split_text_fragments st1 st') docs groups →
  Forall2 (sections_of split_text_fragments st st') docs groups.
Proof.
  intros Hdocs Hkeep Hsec.
  induction Hsec as [|doc group docs groups Hhead _ IH]; constructor.
  - destruct (Hdocs doc) as [d Hd]; [by left|].
    by apply (sections_of_earlier st st1 st' doc group d).
  - apply IH. intros doc' Hdoc'. apply Hdocs. by right.
Qed.

(** A section is a new object. *)
Lemma sections_of_all_new st st' docs groups c :
  Forall2 (sections_of split_text_fragments st st') docs groups →
  c ∈ concat groups →
  store st !! c = None.
Proof.
  induction 1 as [|doc group docs groups (d & pid & _ & _ & _ & Hnth) _ IH];
    simpl; intros Hc.
  - by apply elem_of_nil in Hc.
  - apply elem_of_app in Hc as [Hc|Hc]; [|by apply IH].
    apply list_elem_of_lookup in Hc as [j Hj].
    by destruct (Hnth j c Hj) as [Hnone _].
Qed.

(** The loop over [self.documents]. *)
Lemma split_documents_run docs :
  ∀ all_chunks st,
    (∀ doc, doc ∈ docs →
       ∃ d, store st !! doc = Some d ∧ is_Some (metadata d !! "parent_id")) →
    ∃ groups st',
      for_fold docs all_chunks (split_document uuid4_str split_text_fragments) st
      = (Return (all_chunks ++ concat groups), st') ∧
      documents st' = documents st ∧
      chunks st' = chunks st ∧
      NoDup (concat groups) ∧
      (∀ l d, store st !! l = Some d → store st' !! l = Some d) ∧
      (∀ c, c ∈ concat groups → is_Some (store st' !! c)) ∧
      Forall2 (sections_of split_text_fragments st st') docs groups.
Proof.
  induction docs as [|doc docs IH]; intros all_chunks st Hloaded.
  - exists [], st. simpl. rewrite app_nil_r.
    repeat split; try done; [constructor|set_solver].
  - destruct (Hloaded doc) as (dd & Hdoc & [parent_id Hpid]); [by left|].
    destruct (split_document_run doc all_chunks st dd parent_id Hdoc Hpid)
      as (group & st1 & Hrun1 & Hd1 & Hc1 & Hnodup1 & Hkeep1 & Hin1 & Hsec1).
    destruct (IH (all_chunks ++ group) st1)
      as (groups & st' & Hrun & Hd & Hc & Hnodup & Hkeep & Hin & Hsec).
    { intros doc' Hdoc'. destruct (Hloaded doc') as (d' & Hd' & Hp'); [by right|].
      exists d'. split; [by apply Hkeep1 | done]. }
    exists (group :: groups), st'. split.
    { simpl. rewrite (bind_Return _ _ _ _ _ Hrun1), Hrun.
      by rewrite <- app_assoc. }
    split; [congruence|]. split; [congruence|]. split.
    { simpl. apply NoDup_app. split; [done|]. split; [|done].
      intros c Hc1' Hc2'. apply Hin1 in Hc1' as [x Hx].
      rewrite (sections_of_all_new _ _ _ _ _ Hsec Hc2') in Hx. done. }
    split; [by eauto|]. split.
    { simpl. intros c [Hc'|Hc']%elem_of_app.
      - destruct (Hin1 c Hc') as [x Hx]. exists x. by apply Hkeep.
      - by apply Hin. }
    constructor.
    + by apply (sections_of_later st st1 st').
    + apply (sections_of_all_earlier st st1 st'); [|done..].
      intros doc' Hdoc'. destruct (Hloaded doc') as (d' & Hd' & _); [by right|].
      by rewrite Hd'.
Qed.

(** [_markdown_header_split] on loaded documents: it returns the sections
    of the documents, document after document; they are new, pairwise
    distinct objects and no object that existed is changed. *)
Lemma markdown_header_split_run st :
  documents_loaded st →
  ∃ groups st',
    _markdown_header_split uuid4_str split_text_fragments st
    = (Return (concat groups), st') ∧
    documents st' = documents st ∧
    chunks st' = chunks st ∧
    NoDup (concat groups) ∧
    (∀ l d, store st !! l = Some d → store st' !! l = Some d) ∧
    (∀ c, c ∈ concat groups → is_Some (store st' !! c)) ∧
    Forall2 (sections_of split_text_fragments st st') (documents st) groups.
Proof.
  intros Hloaded. unfold _markdown_header_split.
  erewrite bind_Return by reflexivity.
  destruct (split_documents_run (documents st) [] st Hloaded)
    as (groups & st' & Hrun & Hrest).
  by exists groups, st'.
Qed.

Lemma stamped_refl d : stamped d d.
Proof. by split. Qed.

Lemma stamped_trans d1 d2 d3 : stamped d1 d2 → stamped d2 d3 → stamped d1 d3.
Proof.
  intros [Hc12 Hm12] [Hc23 Hm23]. split; [congruence|].
  intros key H1 H2. by rewrite Hm23, Hm12.
Qed.

Lemma stamp_chunk_run i chunk st dc :
  store st !! chunk = Some dc →
  is_Some (metadata dc !! "chunk_id") →
  stamp_chunk uuid4_str (i, chunk) st
  = (Return (),
     set_obj st chunk
       (mkDocument (page_content dc)
          (<["chunk_size" := VInt (Z.of_nat (Str.len (page_content dc)))]>
             (<["batch_index" := VInt (Z.of_nat i)]> (metadata dc))))).
Proof.
  intros Hchunk [child_id Hid]. unfold stamp_chunk.
  erewrite bind_Return by (by apply get_metadata_run).
  rewrite Hid, bool_decide_eq_false_2 by done.
  erewrite bind_Return by reflexivity.
  erewrite bind_Return by (by apply metadata_setitem_run).
  erewrite bind_Return by (apply get_page_content_run, set_obj_lookup).
  erewrite metadata_setitem_run by apply set_obj_lookup.
  by rewrite set_obj_twice.
Qed.

(** The loop over [enumerate(chunks)], started at index [k]: it changes
    two entries of the listed sections and nothing else. *)
Lemma stamp_chunks_run cs :
  ∀ k st,
    (∀ c, c ∈ cs →
       ∃ dc, store st !! c = Some dc ∧ is_Some (metadata dc !! "chunk_id")) →
    ∃ st',
      for_each (zip (seq k (length cs)) cs) (stamp_chunk uuid4_str) st
      = (Return (), st') ∧
      documents st' = documents st ∧
      chunks st' = chunks st ∧
      parent_child_map st' = parent_child_map st ∧
      (∀ l, l ∉ cs → store st' !! l = store st !! l) ∧
      (∀ l d, store st !! l = Some d →
         ∃ d', store st' !! l = Some d' ∧ stamped d d').
Proof.
  induction cs as [|c cs IH]; intros k st Hcs.
  - exists st. repeat split; try done. intros l d Hl. exists d.
    split; [done | apply stamped_refl].
  - destruct (Hcs c) as (dc & Hdc & Hid); [by left|].
    pose proof (stamp_chunk_run k c st dc Hdc Hid) as Hstep.
    set (d1 := mkDocument _ _) in Hstep.
    assert (stamped dc d1) as Hstamped.
    { split; [done|]. intros key H1 H2. unfold d1. simpl.
      by rewrite !lookup_insert_ne. }
    destruct (IH (S k) (set_obj st c d1))
      as (st' & Hrun & Hd & Hc & Hm & Hold & Hst).
    { intros c' Hc'. destruct (decide (c = c')) as [<-|Hne].
      - exists d1. split; [apply set_obj_lookup|].
        destruct Hstamped as [_ Hkeys]. by rewrite Hkeys.
      - rewrite set_obj_lookup_ne by done. apply Hcs. by right. }
    exists st'. split.
    { simpl. rewrite (bind_Return _ _ _ _ _ Hstep). exact Hrun. }
    split; [done|]. split; [done|]. split; [done|]. split.
    { intros l Hl. apply not_elem_of_cons in Hl as [Hl1 Hl2].
      rewrite (Hold l Hl2). by apply set_obj_lookup_ne. }
    intros l d Hl. destruct (decide (c = l)) as [<-|Hne].
    + rewrite Hdc in Hl. injection Hl as <-.
      destruct (Hst c d1) as (d' & Hd' & Hs'); [apply set_obj_lookup|].
      exists d'. split; [done|]. by apply (stamped_trans dc d1 d').
    + apply Hst. by rewrite set_obj_lookup_ne.
Qed.

Lemma section_metadata_chunk_id child_id parent_id i doc_metadata local :
  section_metadata child_id parent_id i doc_metadata local !! "chunk_id"
  = Some (VStr child_id).
Proof. unfold section_metadata. by apply lookup_union_Some_l. Qed.

Lemma section_metadata_parent_id child_id parent_id i doc_metadata local :
  section_metadata child_id parent_id i doc_metadata local !! "parent_id"
  = Some parent_id.
Proof. unfold section_metadata. by apply lookup_union_Some_l. Qed.

Lemma section_metadata_doc_type child_id parent_id i doc_metadata local :
  section_metadata child_id parent_id i doc_metadata local !! "doc_type"
  = Some (VStr "child").
Proof. unfold section_metadata. by apply lookup_union_Some_l. Qed.

Lemma section_metadata_chunk_index child_id parent_id i doc_metadata local :
  section_metadata child_id parent_id i doc_metadata local !! "chunk_index"
  = Some (VInt (Z.of_nat i)).
Proof. unfold section_metadata. by apply lookup_union_Some_l. Qed.

(** Every other entry of the document is inherited. *)
Lemma section_metadata_inherited child_id parent_id i doc_metadata local key v :
  key ∉ section_keys →
  doc_metadata !! "parent_id" = Some parent_id →
  doc_metadata !! key = Some v →
  section_metadata child_id parent_id i doc_metadata local !! key = Some v.
Proof.
  intros Hkey Hpid Hv. unfold section_keys in Hkey.
  destruct (decide (key = "parent_id")) as [->|Hne].
  { rewrite section_metadata_parent_id. congruence. }
  assert ("chunk_id" ≠ key ∧ "doc_type" ≠ key ∧ "chunk_index" ≠ key)
    as (H1 & H2 & H3)
    by (repeat split; intros <-; apply Hkey; set_solver).
  unfold section_metadata. rewrite lookup_union_r.
  - by apply lookup_union_Some_l.
  - rewrite !lookup_insert_ne by done. by apply lookup_singleton_ne.
Qed.

(** [chunk_documents] on loaded documents: the sections that
    [_markdown_header_split] made (state [st1]), stamped. *)
Lemma chunk_documents_run st :
  documents st ≠ [] →
  documents_loaded st →
  ∃ groups st1 st',
    chunk_documents uuid4_str split_text_fragments st
    = (Return (concat groups), st') ∧
    documents st' = documents st ∧
    chunks st' = concat groups ∧
    NoDup (concat groups) ∧
    Forall2 (sections_of split_text_fragments st st1) (documents st) groups ∧
    (∀ l d, store st1 !! l = Some d →
       ∃ d', store st' !! l = Some d' ∧ stamped d d') ∧
    (∀ l d, store st !! l = Some d → store st' !! l = Some d).
Proof.
  intros Hne Hloaded.
  destruct (markdown_header_split_run st Hloaded)
    as (groups & st1 & Hsplit & Hd1 & Hc1 & Hnodup & Hkeep & Hin & Hsec).
  destruct (stamp_chunks_run (concat groups) 0 st1)
    as (st2 & Hstamp & Hd2 & Hc2 & Hm2 & Hold & Hst).
  { intros c Hc.
    pose proof (sections_of_all_new _ _ _ _ _ Hsec Hc) as Hnew.
    clear -Hsec Hc. induction Hsec
      as [|doc group docs' groups' (d & pid & _ & _ & _ & Hnth) _ IH];
      simpl in Hc; [by apply elem_of_nil in Hc|].
    apply elem_of_app in Hc as [Hc|Hc]; [|by apply IH].
    apply list_elem_of_lookup in Hc as [j Hj].
    destruct (Hnth j c Hj) as (_ & fragment & child_id & _ & Hobj).
    eexists. split; [exact Hobj|]. simpl.
    by rewrite section_metadata_chunk_id. }
  exists groups, st1,
    (mkPipeline (store st2) (uuids_drawn st2) (documents st2) (concat groups)
       (parent_child_map st2)).
  split.
  { unfold chunk_documents. erewrite bind_Return by reflexivity.
    destruct (documents st) as [|doc docs]; [done|].
    erewrite bind_Return by exact Hsplit.
    unfold enumerate. erewrite bind_Return by exact Hstamp.
    reflexivity. }
  simpl. split; [congruence|]. split; [done|]. split; [done|].
  split; [done|]. split; [done|].
  intros l d Hl. rewrite Hold; [by apply Hkeep|].
  intros Hlin. rewrite (sections_of_all_new _ _ _ _ _ Hsec Hlin) in Hl. done.
Qed.

(** What a section of position [i] reads under a key that
    [chunk_documents] does not stamp. *)
Lemma section_read st st1 st' doc group i section key :
  sections_of split_text_fragments st st1 doc group →
  (∀ l d, store st1 !! l = Some d →
     ∃ d', store st' !! l = Some d' ∧ stamped d d') →
  group !! i = Some section →
  key ≠ "batch_index" → key ≠ "chunk_size" →
  ∃ d parent_id (fragment : string * gmap string value) child_id,
    store st !! doc = Some d ∧
    metadata d !! "parent_id" = Some parent_id ∧
    read_metadata st' section key
    = section_metadata child_id parent_id i (metadata d) fragment.2 !! key.
Proof.
  intros (d & parent_id & Hd & Hpid & Hlen & Hnth) Hst Hi H1 H2.
  destruct (Hnth i section Hi) as (_ & fragment & child_id & _ & Hobj).
  destruct (Hst _ _ Hobj) as (d' & Hd' & _ & Hkeys).
  exists d, parent_id, fragment, child_id. split; [done|]. split; [done|].
  rewrite (read_metadata_lookup _ _ _ _ Hd'). by rewrite Hkeys.
Qed.

(** C7: [chunk_documents] returns the sections document after document;
    the sections of one document are as many as the fragments of its
    content and follow the order of emission: the i-th section is the
    i-th fragment (its text, and the entries of the fragment that neither
    the document nor splitting overrides) and has [chunk_index] i.  So
    the sections of a document carry the document's parent identity and
    their [chunk_index] values are 0, 1, ..., n-1 along the returned
    list. *)
Theorem chunk_documents_positions st :
  documents st ≠ [] →
  documents_loaded st →
  ∃ groups st',
    chunk_documents uuid4_str split_text_fragments st
    = (Return (concat groups), st') ∧
    chunks st' = concat groups ∧
    Forall2
      (λ doc group,
         (∃ content, read_content st doc = Some content ∧
                     length group = length (split_text_fragments content) ∧
                     ∀ i section, group !! i = Some section →
                       ∃ fragment,
                         split_text_fragments content !! i = Some fragment ∧
                         read_content st' section = Some fragment.1 ∧
                         read_metadata st' section "chunk_index"
                         = Some (VInt (Z.of_nat i)) ∧
                         ∀ key, key ∉ stamped_keys →
                                read_metadata st doc key = None →
                                read_metadata st' section key
                                = fragment.2 !! key) ∧
         (λ section, read_metadata st' section "parent_id") <$> group
         = replicate (length group) (read_metadata st doc "parent_id") ∧
         (λ section, read_metadata st' section "chunk_index") <$> group
         = (λ i, Some (VInt (Z.of_nat i))) <$> seq 0 (length group))
      (documents st) groups.
Proof.
  intros Hne Hloaded.
  destruct (chunk_documents_run st Hne Hloaded)
    as (groups & st1 & st' & Hrun & Hd & Hc & Hnodup & Hsec & Hst & Hkeep).
  exists groups, st'. split; [done|]. split; [done|].
  eapply Forall2_impl; [exact Hsec|].
  intros doc group Hsections. split; [|split].
  - destruct Hsections as (d & parent_id & Hdoc & _ & Hlen & Hnth).
    exists (page_content d). split; [unfold read_content; by rewrite Hdoc|].
    split; [done|]. intros i section Hi.
    destruct (Hnth i section Hi) as (_ & fragment & child_id & Hfragment & Hobj).
    destruct (Hst _ _ Hobj) as (d' & Hd' & Hcontent & Hkeys).
    exists fragment. split; [done|].
    split; [unfold read_content; rewrite Hd'; simpl; by rewrite Hcontent|].
    split.
    + rewrite (read_metadata_lookup _ _ _ "chunk_index" Hd').
      rewrite Hkeys by done. simpl. apply section_metadata_chunk_index.
    + intros key Hkey Hnone.
      rewrite (read_metadata_lookup _ _ _ key Hdoc) in Hnone.
      destruct (not_stamped_key key Hkey) as (H1 & H2 & H3 & H4 & H5 & H6).
      rewrite (read_metadata_lookup _ _ _ key Hd').
      rewrite Hkeys by done. simpl.
      unfold section_metadata. rewrite lookup_union_r.
      * by rewrite lookup_union_r.
      * rewrite !lookup_insert_ne by done. by apply lookup_singleton_ne.
  - apply list_eq. intros i. rewrite list_lookup_fmap.
    destruct (group !! i) as [section|] eqn:Hi; simpl.
    + destruct (section_read st st1 st' doc group i section "parent_id"
                  Hsections Hst Hi)
        as (d & parent_id & fragment & child_id & Hdoc & Hpid & Hread);
        [done..|].
      rewrite Hread, section_metadata_parent_id.
      rewrite (read_metadata_lookup _ _ _ _ Hdoc), Hpid.
      symmetry. apply lookup_replicate_2. by apply lookup_lt_Some in Hi.
    + symmetry. apply lookup_ge_None. rewrite length_replicate.
      by apply lookup_ge_None in Hi.
  - apply list_eq. intros i. rewrite !list_lookup_fmap.
    destruct (group !! i) as [section|] eqn:Hi; simpl.
    + destruct (section_read st st1 st' doc group i section "chunk_index"
                  Hsections Hst Hi)
        as (d & parent_id & fragment & child_id & Hdoc & Hpid & Hread);
        [done..|].
      rewrite Hread, section_metadata_chunk_index.
      apply lookup_lt_Some in Hi. by rewrite lookup_seq_lt.
    + apply lookup_ge_None in Hi. by rewrite lookup_seq_ge.
Qed.

End Splitting.

(** ** Splitting, with the dictionaries as objects *)

Section SplittingReferences.

Variable uuid4_str : nat → string.
Variable split_text_fragments : string → list (string * gmap string value).

#[local] Existing Instance Ref.M_ret.
#[local] Existing Instance Ref.M_bind.

Lemma ref_bind_Return {A B} (m : Ref.M A) (f : A → Ref.M B) st a st' :
  m st = (Return a, st') → (m ≫= f) st = f a st'.
Proof. intros H. unfold mbind, Ref.M_bind. by rewrite H. Qed.

Lemma ref_get_metadata_run st doc d :
  Ref.objects st !! doc = Some d →
  Ref.get_metadata doc st = (Return (Ref.metadata d), st).
Proof.
  intros H. unfold Ref.get_metadata, Ref.deref, mbind, Ref.M_bind.
  by rewrite H.
Qed.

Lemma ref_get_page_content_run st doc d :
  Ref.objects st !! doc = Some d →
  Ref.get_page_content doc st = (Return (Ref.page_content d), st).
Proof.
  intros H. unfold Ref.get_page_content, Ref.deref, mbind, Ref.M_bind.
  by rewrite H.
Qed.

Lemma ref_dict_setitem_run st md entries key v :
  Ref.dicts st !! md = Some entries →
  Ref.dict_setitem md key v st
  = (Return (), Ref.with_dicts <[md := <[key := v]> entries]> st).
Proof.
  intros H. unfold Ref.dict_setitem, Ref.dict_read, mbind, Ref.M_bind.
  by rewrite H.
Qed.

Lemma ref_dict_getitem_run st md entries key v :
  Ref.dicts st !! md = Some entries →
  entries !! key = Some v →
  Ref.dict_getitem md key st = (Return v, st).
Proof.
  intros H Hv. unfold Ref.dict_getitem, Ref.dict_read, mbind, Ref.M_bind.
  by rewrite H, Hv.
Qed.

Lemma ref_dict_update_run st md other new_entries entries :
  Ref.dicts st !! other = Some new_entries →
  Ref.dicts st !! md = Some entries →
  Ref.dict_update md other st
  = (Return (), Ref.with_dicts <[md := new_entries ∪ entries]> st).
Proof.
  intros Ho Hm. unfold Ref.dict_update, Ref.dict_read, mbind, Ref.M_bind.
  by rewrite Ho, Hm.
Qed.

Lemma ref_dict_update_display_run st md new_entries entries :
  Ref.dicts st !! md = Some entries →
  Ref.dict_update_display md new_entries st
  = (Return (), Ref.with_dicts <[md := new_entries ∪ entries]> st).
Proof.
  intros Hm.
  unfold Ref.dict_update_display, Ref.dict_read, mbind, Ref.M_bind.
  by rewrite Hm.
Qed.

Lemma ref_metadata_setitem_run st doc d entries key v :
  Ref.objects st !! doc = Some d →
  Ref.dicts st !! Ref.metadata d = Some entries →
  Ref.metadata_setitem doc key v st
  = (Return (),
     Ref.with_dicts <[Ref.metadata d := <[key := v]> entries]> st).
Proof.
  intros Hd He. unfold Ref.metadata_setitem.
  erewrite ref_bind_Return by (by apply ref_get_metadata_run).
  by apply ref_dict_setitem_run.
Qed.

Lemma ref_read_dict_lookup st doc d :
  Ref.objects st !! doc = Some d →
  Ref.read_dict st doc = Ref.dicts st !! Ref.metadata d.
Proof. intros H. unfold Ref.read_dict. by rewrite H. Qed.

Lemma ref_read_metadata_lookup st doc entries key :
  Ref.read_dict st doc = Some entries →
  Ref.read_metadata st doc key = entries !! key.
Proof. intros H. unfold Ref.read_metadata. by rewrite H. Qed.

(** Two objects that refer to one dictionary share their metadata: what
    is assigned through one of them is read through the other.  So that
    a section and its document do not share is a property of the code,
    not of the store. *)
Lemma ref_shared_metadata_visible st a b da db entries key v :
  Ref.objects st !! a = Some da →
  Ref.objects st !! b = Some db →
  Ref.metadata da = Ref.metadata db →
  Ref.dicts st !! Ref.metadata da = Some entries →
  Ref.read_metadata (Ref.metadata_setitem a key v st).2 b key = Some v.
Proof.
  intros Ha Hb Heq He.
  rewrite (ref_metadata_setitem_run _ _ _ _ _ _ Ha He). simpl.
  unfold Ref.read_metadata, Ref.read_dict. simpl. rewrite Hb. simpl.
  rewrite <- Heq, lookup_insert_eq. simpl. by rewrite lookup_insert_eq.
Qed.

(** What an assignment to an entry does when the two objects refer to
    two dictionaries: it is read through the object it was made through
    and the metadata of the other object stays what it was. *)
Lemma ref_separate_metadata_setitem st a b da db entries key v :
  Ref.objects st !! a = Some da →
  Ref.objects st !! b = Some db →
  Ref.metadata da ≠ Ref.metadata db →
  Ref.dicts st !! Ref.metadata da = Some entries →
  (Ref.metadata_setitem a key v st).1 = Return () ∧
  Ref.read_metadata (Ref.metadata_setitem a key v st).2 a key = Some v ∧
  Ref.read_dict (Ref.metadata_setitem a key v st).2 b = Ref.read_dict st b.
Proof.
  intros Ha Hb Hne He.
  rewrite (ref_metadata_setitem_run _ _ _ _ _ _ Ha He). simpl.
  split; [done|]. split.
  - unfold Ref.read_metadata, Ref.read_dict. simpl. rewrite Ha. simpl.
    rewrite lookup_insert_eq. simpl. by rewrite lookup_insert_eq.
  - unfold Ref.read_dict. simpl. rewrite Hb. simpl.
    by rewrite lookup_insert_ne.
Qed.

Lemma ref_fresh_object st :
  Ref.objects st !! fresh (dom (Ref.objects st)) = None.
Proof. apply not_elem_of_dom, is_fresh. Qed.

Lemma ref_fresh_dict st :
  Ref.dicts st !! fresh (dom (Ref.dicts st)) = None.
Proof. apply not_elem_of_dom, is_fresh. Qed.

(** A fragment becomes a new dictionary and a new object that refers to
    it. *)
Lemma ref_new_fragment_run content local st :
  (md ← Ref.new_dict local; Ref.new_Document content md) st
  = (Return (fresh (dom (Ref.objects st))),
     Ref.with_objects
       <[fresh (dom (Ref.objects st))
         := Ref.mkDocument content (fresh (dom (Ref.dicts st)))]>
       (Ref.with_dicts <[fresh (dom (Ref.dicts st)) := local]> st)).
Proof. reflexivity. Qed.

(** [split_text]: one new object and one new dictionary per fragment. *)
Lemma ref_allocate_fragments_run (frags : list (string * gmap string value)) :
  ∀ st,
    ∃ cs mds st',
      Ref.for_list frags
        (λ fragment, md ← Ref.new_dict fragment.2;
                     Ref.new_Document fragment.1 md) st
      = (Return cs, st') ∧
      length cs = length frags ∧
      length mds = length frags ∧
      NoDup mds ∧
      (∀ md, md ∈ mds → Ref.dicts st !! md = None) ∧
      (∀ l d, Ref.objects st !! l = Some d → Ref.objects st' !! l = Some d) ∧
      (∀ md, md ∉ mds → Ref.dicts st' !! md = Ref.dicts st !! md) ∧
      (∀ i c, cs !! i = Some c →
         ∃ fragment md,
           frags !! i = Some fragment ∧
           mds !! i = Some md ∧
           Ref.objects st' !! c = Some (Ref.mkDocument fragment.1 md) ∧
           Ref.dicts st' !! md = Some fragment.2).
Proof.
  induction frags as [|fragment frags IH]; intros st.
  - exists [], [], st. repeat split; try done; [constructor|set_solver].
  - set (md0 := fresh (dom (Ref.dicts st))).
    set (st1 := Ref.with_dicts <[md0 := fragment.2]> st).
    set (c0 := fresh (dom (Ref.objects st1))).
    set (st2 := Ref.with_objects <[c0 := Ref.mkDocument fragment.1 md0]> st1).
    destruct (IH st2)
      as (cs & mds & st' & Hrun & Hlen & Hlen' & Hnodup & Hnew & Hobj
          & Hold & Hnth).
    assert (Ref.dicts st2 !! md0 = Some fragment.2) as Hmd0
      by apply lookup_insert_eq.
    assert (md0 ∉ mds) as Hnotin.
    { intros Hin. apply Hnew in Hin. congruence. }
    exists (c0 :: cs), (md0 :: mds), st'. split.
    { simpl.
      rewrite (ref_bind_Return _ _ _ _ _
                 (ref_new_fragment_run fragment.1 fragment.2 st)).
      fold md0 st1 c0 st2. by rewrite (ref_bind_Return _ _ _ _ _ Hrun). }
    split; [simpl; by rewrite Hlen|].
    split; [simpl; by rewrite Hlen'|].
    split; [by constructor|].
    split.
    { intros md [->|Hin]%elem_of_cons; [apply ref_fresh_dict|].
      specialize (Hnew md Hin). unfold st2, st1 in Hnew. simpl in Hnew.
      destruct (decide (md0 = md)) as [<-|Hne];
        [by rewrite lookup_insert_eq in Hnew|].
      by rewrite lookup_insert_ne in Hnew. }
    split.
    { intros l d Hl. apply Hobj. unfold st2. simpl.
      rewrite lookup_insert_ne; [done|].
      intros <-. unfold c0, st1 in Hl. simpl in Hl.
      by rewrite ref_fresh_object in Hl. }
    split.
    { intros md Hmd. apply not_elem_of_cons in Hmd as [Hne Hmd].
      rewrite (Hold md Hmd). unfold st2, st1. simpl.
      by rewrite lookup_insert_ne. }
    intros [|i] c Hi; simpl in Hi.
    + injection Hi as <-. exists fragment, md0.
      split; [done|]. split; [done|]. split.
      * apply Hobj. unfold st2. simpl. apply lookup_insert_eq.
      * by rewrite (Hold md0 Hnotin).
    + apply (Hnth i c Hi).
Qed.

Lemma ref_link_chunk_run doc parent_id i chunk st dd entries dc local :
  Ref.objects st !! doc = Some dd →
  Ref.dicts st !! Ref.metadata dd = Some entries →
  Ref.objects st !! chunk = Some dc →
  Ref.dicts st !! Ref.metadata dc = Some local →
  Ref.link_chunk uuid4_str doc parent_id (i, chunk) st
  = (Return (),
     Ref.mkPipeline
       (Ref.objects st)
       (<[Ref.metadata dc :=
            section_metadata (uuid4_str (Ref.uuids_drawn st)) parent_id i
              entries local]> (Ref.dicts st))
       (S (Ref.uuids_drawn st)) (Ref.documents st) (Ref.chunks st)
       (<[uuid4_str (Ref.uuids_drawn st) := parent_id]>
          (Ref.parent_child_map st))).
Proof.
  intros Hdoc Hentries Hchunk Hlocal. unfold Ref.link_chunk.
  erewrite ref_bind_Return by reflexivity.
  erewrite ref_bind_Return by (by apply ref_get_metadata_run).
  erewrite ref_bind_Return by (by apply ref_get_metadata_run).
  erewrite ref_bind_Return by (by apply ref_dict_update_run).
  erewrite ref_bind_Return by (by apply ref_get_metadata_run).
  erewrite ref_bind_Return
    by (apply ref_dict_update_display_run; simpl; apply lookup_insert_eq).
  unfold Ref.parent_child_map_setitem, Ref.with_dicts, section_metadata.
  simpl. by rewrite insert_insert_eq.
Qed.

(** The loop over [enumerate(md_chunks)], started at position [k]: the
    chunks refer to the dictionaries [mds], one each. *)
Lemma ref_link_chunks_run doc parent_id dd entries :
  ∀ cs mds k st,
    Ref.objects st !! doc = Some dd →
    Ref.dicts st !! Ref.metadata dd = Some entries →
    Ref.metadata dd ∉ mds →
    NoDup mds →
    length cs = length mds →
    (∀ j c, cs !! j = Some c →
       ∃ content md,
         mds !! j = Some md ∧
         Ref.objects st !! c = Some (Ref.mkDocument content md) ∧
         is_Some (Ref.dicts st !! md)) →
    ∃ st',
      Ref.for_each (zip (seq k (length cs)) cs)
        (Ref.link_chunk uuid4_str doc parent_id) st
      = (Return (), st') ∧
      Ref.objects st' = Ref.objects st ∧
      (∀ md, md ∉ mds → Ref.dicts st' !! md = Ref.dicts st !! md) ∧
      (∀ j md local, mds !! j = Some md → Ref.dicts st !! md = Some local →
         ∃ child_id,
           Ref.dicts st' !! md
           = Some (section_metadata child_id parent_id (k + j) entries local)).
Proof.
  induction cs as [|c cs IH]; intros mds k st Hdoc Hentries Hnotin Hnodup
    Hlen Hcs.
  - destruct mds; [|done]. exists st. repeat split; done.
  - destruct mds as [|md mds]; [done|].
    apply not_elem_of_cons in Hnotin as [Hne Hnotin].
    apply NoDup_cons in Hnodup as [Hmd Hnodup].
    destruct (Hcs 0 c eq_refl) as (content & md' & Hmd' & Hc & [local Hlocal]).
    injection Hmd' as <-.
    pose proof (ref_link_chunk_run doc parent_id k c st dd entries
                  (Ref.mkDocument content md) local Hdoc Hentries Hc Hlocal)
      as Hstep.
    simpl in Hstep.
    set (st1 := Ref.mkPipeline _ _ _ _ _ _) in Hstep.
    destruct (IH mds (S k) st1) as (st' & Hrun & Hobj & Hold & Hnth);
      [done|by (unfold st1; simpl; rewrite lookup_insert_ne)|done|done
      |by (simpl in Hlen; lia)|..].
    { intros j c' Hj.
      destruct (Hcs (S j) c' Hj) as (content' & md' & Hj' & Hc' & Hin').
      exists content', md'. split; [done|]. split; [done|].
      unfold st1. simpl.
      destruct (decide (md = md')) as [<-|Hne'];
        [by rewrite lookup_insert_eq|by rewrite lookup_insert_ne]. }
    exists st'. split.
    { simpl. rewrite (ref_bind_Return _ _ _ _ _ Hstep). exact Hrun. }
    split; [by rewrite Hobj|]. split.
    { intros md' Hmd'. apply not_elem_of_cons in Hmd' as [Hne1 Hne2].
      rewrite (Hold md' Hne2). unfold st1. simpl.
      by rewrite lookup_insert_ne. }
    intros [|j] md' local' Hj Hlocal'; simpl in Hj.
    + injection Hj as <-. rewrite Hlocal in Hlocal'. injection Hlocal' as <-.
      exists (uuid4_str (Ref.uuids_drawn st)). rewrite (Hold md Hmd).
      unfold st1. simpl. by rewrite lookup_insert_eq, Nat.add_0_r.
    + assert (md ≠ md') as Hne'.
      { intros ->. apply Hmd. by apply list_elem_of_lookup_2 in Hj. }
      destruct (Hnth j md' local' Hj) as [child_id Hchild].
      { unfold st1. simpl. by rewrite lookup_insert_ne. }
      exists child_id. by rewrite Hchild, Nat.add_succ_r.
Qed.

(** One turn of the loop over [self.documents]. *)
Lemma ref_split_document_run doc all_chunks st dd entries parent_id :
  Ref.objects st !! doc = Some dd →
  Ref.dicts st !! Ref.metadata dd = Some entries →
  entries !! "parent_id" = Some parent_id →
  ∃ group st',
    Ref.split_document uuid4_str split_text_fragments doc all_chunks st
    = (Return (all_chunks ++ group), st') ∧
    (∀ l d, Ref.objects st !! l = Some d → Ref.objects st' !! l = Some d) ∧
    (∀ md e, Ref.dicts st !! md = Some e → Ref.dicts st' !! md = Some e) ∧
    Ref.sections_of split_text_fragments st st' doc group.
Proof.
  intros Hdoc Hentries Hpid. unfold Ref.split_document.
  erewrite ref_bind_Return by (by apply ref_get_page_content_run).
  destruct (ref_allocate_fragments_run
              (split_text_fragments (Ref.page_content dd)) st)
    as (cs & mds & st1 & Hrun & Hlen & Hlen' & Hnodup & Hnew & Hobj
        & Hold & Hnth).
  unfold Ref.split_text. erewrite ref_bind_Return by exact Hrun.
  assert (Ref.metadata dd ∉ mds) as Hnotin.
  { intros Hin. apply Hnew in Hin. congruence. }
  pose proof (Hobj _ _ Hdoc) as Hdoc1.
  assert (Ref.dicts st1 !! Ref.metadata dd = Some entries) as Hentries1
    by (by rewrite Hold).
  erewrite ref_bind_Return by (by apply ref_get_metadata_run).
  erewrite ref_bind_Return by (by eapply ref_dict_getitem_run).
  destruct (ref_link_chunks_run doc parent_id dd entries cs mds 0 st1
              Hdoc1 Hentries1 Hnotin Hnodup)
    as (st' & Hlink & Hobj' & Hold' & Hnth'); [congruence|..].
  { intros j c Hj.
    destruct (Hnth j c Hj) as (fragment & md & _ & Hmd & Hc & Hd).
    exists fragment.1, md. split; [done|]. split; [done|]. by rewrite Hd. }
  unfold enumerate. erewrite ref_bind_Return by exact Hlink.
  exists cs, st'. split; [done|]. split.
  { intros l d Hl. rewrite Hobj'. by apply Hobj. }
  split.
  { intros md e Hmd. rewrite Hold', Hold; [done|..];
      intros Hin; apply Hnew in Hin; congruence. }
  exists dd, entries, parent_id.
  split; [done|]. split; [done|]. split; [done|]. split; [done|].
  intros i c Hi.
  destruct (Hnth i c Hi) as (fragment & md & Hfragment & Hmd & Hc & Hd).
  destruct (Hnth' i md _ Hmd Hd) as [child_id Hchild].
  exists fragment, child_id, md.
  split; [done|]. split; [by rewrite Hobj'|]. split; [|exact Hchild].
  apply Hnew. by apply list_elem_of_lookup_2 in Hmd.
Qed.

(** Sections stay what they are when later steps keep the objects and
    the dictionaries that exist. *)
Lemma ref_sections_of_later st st1 st' doc group :
  (∀ l d, Ref.objects st1 !! l = Some d → Ref.objects st' !! l = Some d) →
  (∀ md e, Ref.dicts st1 !! md = Some e → Ref.dicts st' !! md = Some e) →
  Ref.sections_of split_text_fragments st st1 doc group →
  Ref.sections_of split_text_fragments st st' doc group.
Proof.
  intros Hobj Hdict (d & entries & parent_id & Hd & He & Hpid & Hlen & Hnth).
  exists d, entries, parent_id.
  split; [done|]. split; [done|]. split; [done|]. split; [done|].
  intros i c Hi.
  destruct (Hnth i c Hi) as (fragment & child_id & md & Hf & Hc & Hnew & Hmd).
  exists fragment, child_id, md.
  split; [done|]. split; [by apply Hobj|]. split; [done|]. by apply Hdict.
Qed.

Lemma ref_sections_of_earlier st st1 st' doc group d entries :
  Ref.objects st !! doc = Some d →
  Ref.dicts st !! Ref.metadata d = Some entries →
  (∀ l x, Ref.objects st !! l = Some x → Ref.objects st1 !! l = Some x) →
  (∀ md e, Ref.dicts st !! md = Some e → Ref.dicts st1 !! md = Some e) →
  Ref.sections_of split_text_fragments st1 st' doc group →
  Ref.sections_of split_text_fragments st st' doc group.
Proof.
  intros Hdoc Hentries Hobj Hdict
    (d1 & entries1 & parent_id & Hd1 & He1 & Hpid & Hlen & Hnth).
  rewrite (Hobj _ _ Hdoc) in Hd1. injection Hd1 as <-.
  rewrite (Hdict _ _ Hentries) in He1. injection He1 as <-.
  exists d, entries, parent_id.
  split; [done|]. split; [done|]. split; [done|]. split; [done|].
  intros i c Hi.
  destruct (Hnth i c Hi) as (fragment & child_id & md & Hf & Hc & Hnew & Hmd).
  exists fragment, child_id, md.
  split; [done|]. split; [done|]. split; [|done].
  destruct (Ref.dicts st !! md) as [e|] eqn:He; [|done].
  rewrite (Hdict _ _ He) in Hnew. done.
Qed.

(** The loop over [self.documents]. *)
Lemma ref_split_documents_run docs :
  ∀ all_chunks st,
    (∀ doc, doc ∈ docs →
       ∃ entries, Ref.read_dict st doc = Some entries ∧
                  is_Some (entries !! "parent_id")) →
    ∃ groups st',
      Ref.for_fold docs all_chunks
        (Ref.split_document uuid4_str split_text_fragments) st
      = (Return (all_chunks ++ concat groups), st') ∧
      (∀ l d, Ref.objects st !! l = Some d → Ref.objects st' !! l = Some d) ∧
      (∀ md e, Ref.dicts st !! md = Some e → Ref.dicts st' !! md = Some e) ∧
      Forall2 (Ref.sections_of split_text_fragments st st') docs groups.
Proof.
  induction docs as [|doc docs IH]; intros all_chunks st Hloaded.
  - exists [], st. simpl. rewrite app_nil_r. repeat split; done.
  - destruct (Hloaded doc) as (entries & Hread & [parent_id Hpid]);
      [by left|].
    unfold Ref.read_dict in Hread.
    destruct (Ref.objects st !! doc) as [dd|] eqn:Hdoc; [|done].
    simpl in Hread.
    destruct (ref_split_document_run doc all_chunks st dd entries parent_id
                Hdoc Hread Hpid)
      as (group & st1 & Hrun1 & Hobj1 & Hdict1 & Hsec1).
    assert (∀ doc', doc' ∈ docs →
              ∃ d' entries', Ref.objects st !! doc' = Some d' ∧
                             Ref.dicts st !! Ref.metadata d' = Some entries' ∧
                             is_Some (entries' !! "parent_id")) as Hrest.
    { intros doc' Hdoc'.
      destruct (Hloaded doc') as (entries' & Hread' & Hp'); [by right|].
      unfold Ref.read_dict in Hread'.
      destruct (Ref.objects st !! doc') as [d'|] eqn:Hd'; [|done].
      by exists d', entries'. }
    destruct (IH (all_chunks ++ group) st1)
      as (groups & st' & Hrun & Hobj & Hdict & Hsec).
    { intros doc' Hdoc'.
      destruct (Hrest doc' Hdoc') as (d' & entries' & Hd' & He' & Hp').
      exists entries'. split; [|done].
      rewrite (ref_read_dict_lookup _ _ _ (Hobj1 _ _ Hd')).
      by apply Hdict1. }
    exists (group :: groups), st'. split.
    { simpl. rewrite (ref_bind_Return _ _ _ _ _ Hrun1), Hrun.
      by rewrite <- app_assoc. }
    split; [by eauto|]. split; [by eauto|].
    constructor.
    + by apply (ref_sections_of_later st st1 st').
    + clear Hrun IH Hloaded.
      induction Hsec as [|doc' group' docs groups Hhead _ IHsec];
        constructor.
      * destruct (Hrest doc') as (d' & entries' & Hd' & He' & _); [by left|].
        by apply (ref_sections_of_earlier st st1 st' doc' group' d' entries').
      * apply IHsec. intros doc'' Hdoc''. apply Hrest. by right.
Qed.

(** [_markdown_header_split] on loaded documents: it returns the sections
    of the documents, document after document, and changes no object and
    no dictionary that existed. *)
Lemma ref_markdown_header_split_run st :
  Ref.documents_loaded st →
  ∃ groups st',
    Ref._markdown_header_split uuid4_str split_text_fragments st
    = (Return (concat groups), st') ∧
    (∀ l d, Ref.objects st !! l = Some d → Ref.objects st' !! l = Some d) ∧
    (∀ md e, Ref.dicts st !! md = Some e → Ref.dicts st' !! md = Some e) ∧
    Forall2 (Ref.sections_of split_text_fragments st st')
      (Ref.documents st) groups.
Proof.
  intros Hloaded. unfold Ref._markdown_header_split.
  erewrite ref_bind_Return by reflexivity.
  destruct (ref_split_documents_run (Ref.documents st) [] st Hloaded)
    as (groups & st' & Hrun & Hrest).
  by exists groups, st'.
Qed.

(** C6 (amended): a section made by [_markdown_header_split] has every
    entry that its document has when it is split, except for the entries
    doc_type, chunk_id and chunk_index, which the splitter sets itself
    (doc_type becomes child); the document's metadata is what it was.
    The section has a dictionary of its own, not the document's: after
    the split an assignment to an entry of the document is made, is read
    through the document and leaves the metadata of the section as it
    is, and an assignment to an entry of the section is made, is read
    through the section and leaves the metadata of the document as it
    is. *)
Theorem sections_inherit_metadata st :
  Ref.documents_loaded st →
  ∃ groups st',
    Ref._markdown_header_split uuid4_str split_text_fragments st
    = (Return (concat groups), st') ∧
    Forall2
      (λ doc group,
         Ref.read_dict st' doc = Ref.read_dict st doc ∧
         ∀ section, section ∈ group →
           (∀ key v, key ∉ section_keys →
                     Ref.read_metadata st doc key = Some v →
                     Ref.read_metadata st' section key = Some v) ∧
           Ref.read_metadata st' section "doc_type" = Some (VStr "child") ∧
           Ref.separate_metadata st' doc section ∧
           (∀ key v,
              (Ref.metadata_setitem doc key v st').1 = Return () ∧
              Ref.read_metadata (Ref.metadata_setitem doc key v st').2
                doc key = Some v ∧
              Ref.read_dict (Ref.metadata_setitem doc key v st').2 section
              = Ref.read_dict st' section) ∧
           (∀ key v,
              (Ref.metadata_setitem section key v st').1 = Return () ∧
              Ref.read_metadata (Ref.metadata_setitem section key v st').2
                section key = Some v ∧
              Ref.read_dict (Ref.metadata_setitem section key v st').2 doc
              = Ref.read_dict st' doc))
      (Ref.documents st) groups.
Proof.
  intros Hloaded.
  destruct (ref_markdown_header_split_run st Hloaded)
    as (groups & st' & Hrun & Hobj & Hdict & Hsec).
  exists groups, st'. split; [done|].
  eapply Forall2_impl; [exact Hsec|].
  intros doc group (d & entries & parent_id & Hdoc & He & Hpid & Hlen & Hnth).
  pose proof (Hobj _ _ Hdoc) as Hdoc'.
  pose proof (Hdict _ _ He) as He'.
  split.
  { rewrite (ref_read_dict_lookup _ _ _ Hdoc), (ref_read_dict_lookup _ _ _ Hdoc').
    congruence. }
  intros section Hsection.
  apply list_elem_of_lookup in Hsection as [i Hi].
  destruct (Hnth i section Hi)
    as (fragment & child_id & md & _ & Hobj_s & Hnew & Hmd).
  assert (Ref.metadata d ≠ md) as Hne by congruence.
  assert (Ref.read_dict st' section
          = Some (section_metadata child_id parent_id i entries fragment.2))
    as Hread by (by rewrite (ref_read_dict_lookup _ _ _ Hobj_s)).
  split; [|split; [|split; [|split]]].
  - intros key v Hkey Hv.
    rewrite (ref_read_metadata_lookup st doc entries) in Hv
      by (by rewrite (ref_read_dict_lookup _ _ _ Hdoc)).
    rewrite (ref_read_metadata_lookup _ _ _ _ Hread).
    by apply section_metadata_inherited.
  - rewrite (ref_read_metadata_lookup _ _ _ _ Hread).
    apply section_metadata_doc_type.
  - by exists d, (Ref.mkDocument fragment.1 md).
  - intros key v.
    by apply (ref_separate_metadata_setitem st' doc section d
                (Ref.mkDocument fragment.1 md) entries).
  - intros key v.
    apply (ref_separate_metadata_setitem st' section doc
             (Ref.mkDocument fragment.1 md) d
             (section_metadata child_id parent_id i entries fragment.2));
      [done|done| |done].
    simpl. congruence.
Qed.

End SplittingReferences.

(** ** The two embeddings of [_markdown_header_split]

    As long as every document has a dictionary of its own, the embedding
    in which a document owns its metadata and the one in which it refers
    to a dictionary do the same. *)

Section OwnDictionaries.

Variable uuid4_str : nat → string.
Variable split_text_fragments : string → list (string * gmap string value).

#[local] Existing Instance Ref.M_ret.
#[local] Existing Instance Ref.M_bind.

Lemma with_own_dicts_object st l :
  Ref.objects (with_own_dicts st) !! l
  = (λ d, Ref.mkDocument (page_content d) l) <$> store st !! l.
Proof.
  unfold with_own_dicts. simpl. rewrite map_lookup_imap.
  by destruct (store st !! l).
Qed.

Lemma with_own_dicts_dict st l :
  Ref.dicts (with_own_dicts st) !! l = metadata <$> store st !! l.
Proof. unfold with_own_dicts. simpl. by rewrite lookup_fmap. Qed.

Lemma with_own_dicts_fresh_object st :
  fresh (dom (Ref.objects (with_own_dicts st))) = fresh (dom (store st)).
Proof.
  f_equal. unfold with_own_dicts. simpl. apply dom_imap_L.
  intros i. rewrite elem_of_dom. split.
  - intros [d Hd]. by exists d.
  - intros (d & Hd & _). by exists d.
Qed.

Lemma with_own_dicts_fresh_dict st :
  fresh (dom (Ref.dicts (with_own_dicts st))) = fresh (dom (store st)).
Proof. f_equal. unfold with_own_dicts. simpl. apply dom_fmap_L. Qed.

(** Writing the object at [l] is writing its dictionary only, when the
    text stays. *)
Lemma with_own_dicts_set st l d :
  (∀ d0, store st !! l = Some d0 → page_content d0 = page_content d) →
  with_own_dicts (with_store <[l := d]> st)
  = Ref.with_dicts <[l := metadata d]>
      (Ref.with_objects <[l := Ref.mkDocument (page_content d) l]>
         (with_own_dicts st)).
Proof.
  intros Hsame. unfold with_own_dicts, with_store, Ref.with_dicts,
    Ref.with_objects. simpl. f_equal.
  - by apply map_imap_insert_Some.
  - apply fmap_insert.
Qed.

Lemma agrees_ret {A} (a : A) : agrees (mret a) (mret a).
Proof. done. Qed.

Lemma agrees_bind {A B} (m : M A) (m' : Ref.M A) (f : A → M B)
    (f' : A → Ref.M B) :
  agrees m m' → (∀ a, agrees (f a) (f' a)) → agrees (m ≫= f) (m' ≫= f').
Proof.
  intros Hm Hf st. unfold mbind, M_bind, Ref.M_bind. rewrite Hm.
  destruct (m st) as [[a|e] st1]; simpl; [apply Hf|done].
Qed.

Lemma agrees_for_list {A B} (xs : list A) (f : A → M B) (f' : A → Ref.M B) :
  (∀ x, agrees (f x) (f' x)) → agrees (for_list xs f) (Ref.for_list xs f').
Proof.
  intros Hf. induction xs as [|x xs IH]; simpl; [apply agrees_ret|].
  apply agrees_bind; [done|]. intros y.
  apply agrees_bind; [done|]. intros ys. apply agrees_ret.
Qed.

Lemma agrees_for_each {A} (xs : list A) (f : A → M unit)
    (f' : A → Ref.M unit) :
  (∀ x, agrees (f x) (f' x)) → agrees (for_each xs f) (Ref.for_each xs f').
Proof.
  intros Hf. induction xs as [|x xs IH]; simpl; [apply agrees_ret|].
  apply agrees_bind; [done|]. by intros _.
Qed.

Lemma agrees_for_fold {A B} (xs : list A) (f : A → B → M B)
    (f' : A → B → Ref.M B) :
  (∀ x acc, agrees (f x acc) (f' x acc)) →
  ∀ acc, agrees (for_fold xs acc f) (Ref.for_fold xs acc f').
Proof.
  intros Hf. induction xs as [|x xs IH]; intros acc; simpl;
    [apply agrees_ret|].
  apply agrees_bind; [done|]. intros acc'. apply IH.
Qed.

Lemma agrees_get_page_content doc :
  agrees (get_page_content doc) (Ref.get_page_content doc).
Proof.
  intros st.
  unfold Ref.get_page_content, get_page_content, Ref.deref, deref,
    mbind, M_bind, Ref.M_bind.
  rewrite with_own_dicts_object. by destruct (store st !! doc).
Qed.

Lemma agrees_metadata_getitem doc key :
  agrees (metadata_getitem doc key)
    (md ← Ref.get_metadata doc; Ref.dict_getitem md key).
Proof.
  intros st.
  unfold metadata_getitem, get_metadata, deref, Ref.get_metadata, Ref.deref,
    Ref.dict_getitem, Ref.dict_read, mbind, M_bind, Ref.M_bind.
  rewrite with_own_dicts_object.
  destruct (store st !! doc) as [d|] eqn:Hd; simpl; [|done].
  rewrite lookup_fmap, Hd. simpl.
  by destruct (metadata d !! key).
Qed.

(** A fragment: a new object that owns its entries, or a new dictionary
    and a new object that refers to it. *)
Lemma agrees_new_fragment content local :
  agrees (new_Document content local)
    (md ← Ref.new_dict local; Ref.new_Document content md).
Proof.
  intros st. rewrite ref_new_fragment_run.
  rewrite with_own_dicts_fresh_object, with_own_dicts_fresh_dict.
  unfold new_Document. simpl.
  rewrite (with_own_dicts_set st _ (mkDocument content local)); [done|].
  intros d0 Hd0. by rewrite fresh_not_in_store in Hd0.
Qed.

Lemma agrees_link_chunk doc parent_id item :
  agrees (link_chunk uuid4_str doc parent_id item)
    (Ref.link_chunk uuid4_str doc parent_id item).
Proof.
  destruct item as [i chunk]. intros st.
  destruct (store st !! doc) as [dd|] eqn:Hdoc;
    [destruct (store st !! chunk) as [dc|] eqn:Hchunk|].
  - rewrite (link_chunk_run uuid4_str doc parent_id i chunk st dd dc Hdoc Hchunk).
    rewrite (ref_link_chunk_run uuid4_str doc parent_id i chunk
               (with_own_dicts st)
               (Ref.mkDocument (page_content dd) doc) (metadata dd)
               (Ref.mkDocument (page_content dc) chunk) (metadata dc));
      [|by rewrite with_own_dicts_object, Hdoc
       |by (cbn [Ref.metadata]; rewrite with_own_dicts_dict, Hdoc)
       |by rewrite with_own_dicts_object, Hchunk
       |by (cbn [Ref.metadata]; rewrite with_own_dicts_dict, Hchunk)].
    simpl. unfold with_own_dicts. simpl. f_equal. f_equal.
    + symmetry. erewrite map_imap_insert_Some by reflexivity. simpl.
      apply insert_id. rewrite map_lookup_imap, Hchunk. done.
    + by rewrite fmap_insert.
  - unfold link_chunk, Ref.link_chunk, uuid4, Ref.uuid4, get_metadata,
      Ref.get_metadata, metadata_update, deref, Ref.deref,
      mbind, M_bind, Ref.M_bind. simpl.
    rewrite map_lookup_imap, Hchunk, Hdoc. simpl. by rewrite Hchunk.
  - unfold link_chunk, Ref.link_chunk, uuid4, Ref.uuid4, get_metadata,
      Ref.get_metadata, metadata_update, deref, Ref.deref,
      mbind, M_bind, Ref.M_bind. simpl.
    rewrite Hdoc, map_lookup_imap.
    destruct (store st !! chunk); simpl; [|done].
    by rewrite map_lookup_imap, Hdoc.
Qed.

Lemma ref_bind_assoc {A B C} (m : Ref.M A) (f : A → Ref.M B)
    (g : B → Ref.M C) st :
  ((m ≫= f) ≫= g) st = (m ≫= λ a, f a ≫= g) st.
Proof. unfold mbind, Ref.M_bind. by destruct (m st) as [[a|e] st1]. Qed.

Lemma agrees_ext {A} (m : M A) (m' m'' : Ref.M A) :
  (∀ st, m' st = m'' st) → agrees m m' → agrees m m''.
Proof. intros Hext Hm st. rewrite <- Hext. apply Hm. Qed.

Lemma agrees_split_document doc all_chunks :
  agrees (split_document uuid4_str split_text_fragments doc all_chunks)
    (Ref.split_document uuid4_str split_text_fragments doc all_chunks).
Proof.
  unfold split_document, Ref.split_document.
  apply agrees_bind; [apply agrees_get_page_content|]. intros content.
  apply agrees_bind.
  { apply agrees_for_list. intros fragment. apply agrees_new_fragment. }
  intros md_chunks.
  eapply agrees_ext; [intros st; apply ref_bind_assoc|].
  apply agrees_bind; [apply agrees_metadata_getitem|]. intros parent_id.
  apply agrees_bind; [|intros; apply agrees_ret].
  apply agrees_for_each. intros item. apply agrees_link_chunk.
Qed.

(** On a state in which every document has a dictionary of its own,
    [_markdown_header_split] over dictionaries as objects returns what it
    returns over documents that own their metadata, and leaves the same
    state, again with a dictionary of its own for every document. *)
Lemma markdown_header_split_own_dicts st :
  Ref._markdown_header_split uuid4_str split_text_fragments (with_own_dicts st)
  = ((_markdown_header_split uuid4_str split_text_fragments st).1,
     with_own_dicts
       (_markdown_header_split uuid4_str split_text_fragments st).2).
Proof.
  revert st.
  change (agrees (_markdown_header_split uuid4_str split_text_fragments)
            (Ref._markdown_header_split uuid4_str split_text_fragments)).
  unfold _markdown_header_split, Ref._markdown_header_split.
  apply agrees_bind; [done|]. intros docs.
  apply agrees_for_fold. intros doc all_chunks. apply agrees_split_document.
Qed.

End OwnDictionaries.

(** ** Loading *)

Section Loading.

Variable uuid4_str : nat → string.

(** The first loop of [load_documents]: one new object per file. *)
Lemma create_documents_run (files : list (string * string)) :
  ∀ st,
    ∃ docs st',
      for_list files (λ file,
        let '(md_file, content) := file in
        parent_id ← uuid4 uuid4_str;
        new_Document content
          {[ "source" := VStr md_file;
             "parent_id" := VStr parent_id;
             "doc_type" := VStr "parent" ]}) st
      = (Return docs, st') ∧
      length docs = length files ∧
      NoDup docs ∧
      (∀ doc, doc ∈ docs → store st !! doc = None) ∧
      (∀ l, l ∉ docs → store st' !! l = store st !! l) ∧
      (∀ i doc, docs !! i = Some doc →
         ∃ md_file content,
           files !! i = Some (md_file, content) ∧
           store st' !! doc
           = Some (mkDocument content
                     (loaded_metadata md_file
                        (uuid4_str (uuids_drawn st + i))))) ∧
      chunks st' = chunks st ∧
      parent_child_map st' = parent_child_map st.
Proof.
  induction files as [|[md_file content] files IH]; intros st.
  - exists [], st. repeat split; try done; [constructor|set_solver].
  - set (st0 := mkPipeline (store st) (S (uuids_drawn st)) (documents st)
                  (chunks st) (parent_child_map st)).
    set (doc0 := fresh (dom (store st))).
    set (d0 := mkDocument content
                 (loaded_metadata md_file (uuid4_str (uuids_drawn st)))).
    set (st1 := set_obj st0 doc0 d0).
    destruct (IH st1)
      as (docs & st' & Hrun & Hlen & Hnodup & Hnew & Hold & Hnth & Hc & Hm).
    assert (doc0 ∉ docs) as Hdoc0.
    { intros Hin. apply Hnew in Hin. unfold st1 in Hin.
      by rewrite set_obj_lookup in Hin. }
    exists (doc0 :: docs), st'. split.
    { simpl. erewrite bind_Return; [|erewrite bind_Return by reflexivity;
                                      apply new_Document_run].
      fold st0 doc0 d0 st1. by rewrite (bind_Return _ _ _ _ _ Hrun). }
    split; [simpl; by rewrite Hlen|]. split; [by constructor|]. split.
    { intros doc [->|Hin]%elem_of_cons; [apply (fresh_not_in_store st)|].
      specialize (Hnew doc Hin). unfold st1 in Hnew.
      destruct (decide (doc0 = doc)) as [<-|Hne];
        [by rewrite set_obj_lookup in Hnew|].
      by rewrite set_obj_lookup_ne in Hnew. }
    split.
    { intros l Hl. apply not_elem_of_cons in Hl as [Hne Hl].
      rewrite (Hold l Hl). unfold st1. by rewrite set_obj_lookup_ne. }
    split; [|done].
    intros [|i] doc Hi; simpl in Hi.
    + injection Hi as <-. exists md_file, content. split; [done|].
      rewrite (Hold doc0 Hdoc0), Nat.add_0_r. apply set_obj_lookup.
    + destruct (Hnth i doc Hi) as (md_file' & content' & Hfile & Hobj).
      exists md_file', content'. split; [done|].
      rewrite Hobj. simpl. by rewrite Nat.add_succ_r.
Qed.

End Loading.

(** The second loop of [load_documents]: every document is enriched. *)
Lemma enhance_all_run docs :
  ∀ st,
    NoDup docs →
    (∀ doc, doc ∈ docs →
       ∃ d s, store st !! doc = Some d ∧ source_of d = VStr s) →
    ∃ st',
      for_each docs _enhance_metadata st = (Return (), st') ∧
      (∀ l, l ∉ docs → store st' !! l = store st !! l) ∧
      (∀ doc d s, doc ∈ docs → store st !! doc = Some d →
                  source_of d = VStr s →
                  store st' !! doc = Some (enhanced d s)) ∧
      documents st' = documents st ∧
      chunks st' = chunks st ∧
      parent_child_map st' = parent_child_map st.
Proof.
  induction docs as [|doc docs IH]; intros st Hnodup Hdocs.
  - exists st. repeat split; try done. intros doc d s Hin. set_solver.
  - apply NoDup_cons in Hnodup as [Hdoc Hnodup].
    destruct (Hdocs doc) as (d & s & Hd & Hs); [by left|].
    destruct (IH (set_obj st doc (enhanced d s)) Hnodup)
      as (st' & Hrun & Hold & Hnew & Hfields).
    { intros doc' Hdoc'. rewrite set_obj_lookup_ne by (intros ->; done).
      apply Hdocs. by right. }
    exists st'. split.
    { simpl. by rewrite (bind_Return _ _ _ _ _ (enhance_run _ _ _ _ Hd Hs)). }
    split.
    { intros l Hl. apply not_elem_of_cons in Hl as [Hne Hl].
      rewrite (Hold l Hl). by apply set_obj_lookup_ne. }
    split; [|done].
    intros doc' d' s' [->|Hin]%elem_of_cons Hd' Hs'.
    + rewrite Hd in Hd'. injection Hd' as <-.
      rewrite Hs in Hs'. injection Hs' as <-.
      rewrite (Hold doc Hdoc). apply set_obj_lookup.
    + apply Hnew; [done| |done].
      rewrite set_obj_lookup_ne by (intros ->; done). done.
Qed.

(** [load_documents] returns one enriched document per file, in the order
    of the files. *)
Lemma load_documents_run (uuid4_str : nat → string) files st :
  ∃ docs st',
    load_documents uuid4_str files st = (Return docs, st') ∧
    documents st' = docs ∧
    length docs = length files ∧
    ∀ i doc, docs !! i = Some doc →
      ∃ md_file content,
        files !! i = Some (md_file, content) ∧
        store st' !! doc
        = Some (enhanced
                  (mkDocument content
                     (loaded_metadata md_file
                        (uuid4_str (uuids_drawn st + i))))
                  md_file).
Proof.
  destruct (create_documents_run uuid4_str files st)
    as (docs & st1 & Hrun & Hlen & Hnodup & Hnew & Hold & Hnth & Hc & Hm).
  destruct (enhance_all_run docs st1 Hnodup)
    as (st2 & Hrun2 & Hold2 & Hnew2 & Hd2 & Hc2 & Hm2).
  { intros doc Hdoc. apply list_elem_of_lookup in Hdoc as [i Hi].
    destruct (Hnth i doc Hi) as (md_file & content & _ & Hobj).
    by eexists _, md_file. }
  exists docs,
    (mkPipeline (store st2) (uuids_drawn st2) docs (chunks st2)
       (parent_child_map st2)).
  split.
  { unfold load_documents.
    erewrite bind_Return by exact Hrun.
    erewrite bind_Return by exact Hrun2. reflexivity. }
  split; [done|]. split; [done|].
  intros i doc Hi. simpl.
  destruct (Hnth i doc Hi) as (md_file & content & Hfile & Hobj).
  exists md_file, content. split; [done|].
  apply (Hnew2 doc _ md_file); [by apply list_elem_of_lookup_2 in Hi|done..].
Qed.

(** [load_documents] leaves every listed document with a [parent_id]: the
    precondition of splitting. *)
Lemma load_documents_loaded (uuid4_str : nat → string) files st :
  documents_loaded (load_documents uuid4_str files st).2.
Proof.
  destruct (load_documents_run uuid4_str files st)
    as (docs & st' & Hrun & Hdocs & _ & Hnth).
  rewrite Hrun. simpl. intros doc Hdoc. rewrite Hdocs in Hdoc.
  apply list_elem_of_lookup in Hdoc as [i Hi].
  destruct (Hnth i doc Hi) as (md_file & content & _ & Hobj).
  eexists. split; [exact Hobj|].
  eexists. by vm_compute.
Qed.

(** ** The theorems at concrete inputs *)

(** The two recipes, once loaded, can be split. *)
Lemma two_recipes_loaded_ok : documents_loaded two_recipes_loaded.
Proof. apply load_documents_loaded. Qed.

(** C4: an empty recipe file is loaded as a document, the splitter has no
    fragment for its content, and [chunk_documents] returns no section for
    it: the document is dropped without an error. *)
Theorem chunk_documents_drops_empty_recipe :
  documents empty_recipe_loaded = [0] ∧
  read_content empty_recipe_loaded 0 = Some "" ∧
  example_split_text "" = [] ∧
  chunk_documents example_uuid4 example_split_text empty_recipe_loaded
  = (Return [], empty_recipe_loaded).
Proof. repeat split; vm_compute; reflexivity. Qed.

(** C5, as the specification states it, fails: below [soup/meat_dish/] the
    first matching segment in path order is soup, and the category is the
    one of meat_dish. *)
Lemma category_not_first_in_path_order :
  source_of stew = VStr "dishes/soup/meat_dish/stew.md" ∧
  Path.parts (Path.of_str "dishes/soup/meat_dish/stew.md")
  = ["dishes"; "soup"; "meat_dish"; "stew.md"] ∧
  category_first_in_path_order ["dishes"; "soup"; "meat_dish"; "stew.md"]
  = "汤品" ∧
  read_metadata (_enhance_metadata 0 stew_store).2 0 "category"
  = Some (VStr "荤菜") ∧
  read_metadata (_enhance_metadata 0 stew_store).2 0 "category"
  ≠ Some (VStr (category_first_in_path_order
                  (Path.parts (Path.of_str "dishes/soup/meat_dish/stew.md")))).
Proof.
  repeat split; try (vm_compute; reflexivity). vm_compute. discriminate.
Qed.

(** The category of the stew recipe, by [category_first_in_mapping_order]. *)
Lemma category_first_in_mapping_order_stew :
  store stew_store !! 0 = Some stew ∧
  source_of stew = VStr "dishes/soup/meat_dish/stew.md" ∧
  ∃ st' label,
    _enhance_metadata 0 stew_store = (Return (), st') ∧
    read_metadata st' 0 "category" = Some (VStr label) ∧
    label = category_in_mapping_order
              (Path.parts (Path.of_str "dishes/soup/meat_dish/stew.md")) ∧
    (∀ i key value,
       category_mapping !! i = Some (key, value) →
       key ∈ Path.parts (Path.of_str "dishes/soup/meat_dish/stew.md") →
       (∀ j earlier, j < i → category_mapping.*1 !! j = Some earlier →
                     earlier ∉ Path.parts
                                 (Path.of_str "dishes/soup/meat_dish/stew.md")) →
       label = value) ∧
    ((∀ key, key ∈ category_mapping.*1 →
             key ∉ Path.parts (Path.of_str "dishes/soup/meat_dish/stew.md")) →
     label = default_category).
Proof.
  split; [vm_compute; reflexivity|]. split; [vm_compute; reflexivity|].
  apply (category_first_in_mapping_order stew_store 0 stew
           "dishes/soup/meat_dish/stew.md");
    vm_compute; reflexivity.
Defined.

(** The difficulty of the stew recipe, by [difficulty_longest_star_run]:
    its content has an isolated star and a run of five. *)
Lemma difficulty_longest_star_run_stew :
  store stew_store !! 0 = Some stew ∧
  source_of stew = VStr "dishes/soup/meat_dish/stew.md" ∧
  ∃ st',
    _enhance_metadata 0 stew_store = (Return (), st') ∧
    read_metadata st' 0 "difficulty"
    = Some (VStr (difficulty_tier (longest_star_run (page_content stew)))) ∧
    (Str.contains "★★★★★" (page_content stew) = true →
     read_metadata st' 0 "difficulty" = Some (VStr "非常困难")) ∧
    (Str.contains "★" (page_content stew) = false →
     read_metadata st' 0 "difficulty" = Some (VStr "难度未知")).
Proof.
  split; [vm_compute; reflexivity|]. split; [vm_compute; reflexivity|].
  apply (difficulty_longest_star_run stew_store 0 stew
           "dishes/soup/meat_dish/stew.md");
    vm_compute; reflexivity.
Defined.

(** What enrichment leaves alone in the stew recipe. *)
Lemma enhance_metadata_frame_stew :
  store stew_store !! 0 = Some stew ∧
  ∃ d',
    store (_enhance_metadata 0 stew_store).2 !! 0 = Some d' ∧
    page_content d' = page_content stew ∧
    (∀ key, key ∉ enriched_keys → metadata d' !! key = metadata stew !! key) ∧
    (∀ other, other ≠ 0 →
       store (_enhance_metadata 0 stew_store).2 !! other
       = store stew_store !! other) ∧
    documents (_enhance_metadata 0 stew_store).2 = documents stew_store ∧
    chunks (_enhance_metadata 0 stew_store).2 = chunks stew_store ∧
    parent_child_map (_enhance_metadata 0 stew_store).2
    = parent_child_map stew_store.
Proof.
  split; [vm_compute; reflexivity|].
  apply (enhance_metadata_frame stew_store 0 stew). vm_compute; reflexivity.
Defined.

(** Splitting on the empty pipeline. *)
Lemma chunk_documents_requires_documents_empty_pipeline :
  documents empty_pipeline = [] ∧
  chunk_documents example_uuid4 example_split_text empty_pipeline
  = (Raise (ValueError "先加载文档"), empty_pipeline) ∧
  ∀ child_chunks msg,
    (get_parent_documents child_chunks empty_pipeline).1
    ≠ Raise (ValueError msg).
Proof.
  split; [reflexivity|].
  apply (chunk_documents_requires_documents example_uuid4 example_split_text
           empty_pipeline).
  reflexivity.
Defined.

(** The positions of the sections of the two recipes. *)
Lemma chunk_documents_positions_two_recipes :
  documents two_recipes_loaded ≠ [] ∧
  documents_loaded two_recipes_loaded ∧
  ∃ groups st',
    chunk_documents example_uuid4 example_split_text two_recipes_loaded
    = (Return (concat groups), st') ∧
    chunks st' = concat groups ∧
    Forall2
      (λ doc group,
         (∃ content, read_content two_recipes_loaded doc = Some content ∧
                     length group = length (example_split_text content) ∧
                     ∀ i section, group !! i = Some section →
                       ∃ fragment,
                         example_split_text content !! i = Some fragment ∧
                         read_content st' section = Some fragment.1 ∧
                         read_metadata st' section "chunk_index"
                         = Some (VInt (Z.of_nat i)) ∧
                         ∀ key, key ∉ stamped_keys →
                                read_metadata two_recipes_loaded doc key
                                = None →
                                read_metadata st' section key
                                = fragment.2 !! key) ∧
         (λ section, read_metadata st' section "parent_id") <$> group
         = replicate (length group)
             (read_metadata two_recipes_loaded doc "parent_id") ∧
         (λ section, read_metadata st' section "chunk_index") <$> group
         = (λ i, Some (VInt (Z.of_nat i))) <$> seq 0 (length group))
      (documents two_recipes_loaded) groups.
Proof.
  assert (documents two_recipes_loaded ≠ []) as Hne
    by (vm_compute; discriminate).
  split; [exact Hne|]. split; [exact two_recipes_loaded_ok|].
  exact (chunk_documents_positions example_uuid4 example_split_text
           two_recipes_loaded Hne two_recipes_loaded_ok).
Defined.

(** Documents that are loaded stay loaded when every one of them is
    given a dictionary of its own. *)
Lemma with_own_dicts_loaded st :
  documents_loaded st → Ref.documents_loaded (with_own_dicts st).
Proof.
  intros Hloaded doc Hdoc.
  destruct (Hloaded doc Hdoc) as (d & Hd & Hpid).
  exists (metadata d). split; [|done].
  unfold Ref.read_dict, with_own_dicts. simpl.
  rewrite map_lookup_imap, Hd. simpl. by rewrite lookup_fmap, Hd.
Qed.

(** C6, as the specification states it, fails: the first recipe has the
    entry doc_type = parent when it is split, and its first section has
    doc_type = child. *)
Lemma doc_type_not_inherited :
  two_recipes_sections_refs.1 = Return [2; 3; 4] ∧
  Ref.read_metadata two_recipes_sections_refs.2 2 "parent_id"
  = Ref.read_metadata two_recipes_loaded_refs 0 "parent_id" ∧
  Ref.read_metadata two_recipes_loaded_refs 0 "doc_type"
  = Some (VStr "parent") ∧
  Ref.read_metadata two_recipes_sections_refs.2 2 "doc_type"
  = Some (VStr "child") ∧
  ¬ (∀ key v,
       Ref.read_metadata two_recipes_loaded_refs 0 key = Some v →
       Ref.read_metadata two_recipes_sections_refs.2 2 key = Some v).
Proof.
  repeat split; try (vm_compute; reflexivity).
  intros Hclaim. specialize (Hclaim "doc_type" (VStr "parent")).
  vm_compute in Hclaim. specialize (Hclaim eq_refl). discriminate Hclaim.
Qed.

(** What the sections of the two recipes inherit. *)
Lemma sections_inherit_metadata_two_recipes :
  Ref.documents_loaded two_recipes_loaded_refs ∧
  ∃ groups st',
    Ref._markdown_header_split example_uuid4 example_split_text
      two_recipes_loaded_refs
    = (Return (concat groups), st') ∧
    Forall2
      (λ doc group,
         Ref.read_dict st' doc = Ref.read_dict two_recipes_loaded_refs doc ∧
         ∀ section, section ∈ group →
           (∀ key v, key ∉ section_keys →
                     Ref.read_metadata two_recipes_loaded_refs doc key
                     = Some v →
                     Ref.read_metadata st' section key = Some v) ∧
           Ref.read_metadata st' section "doc_type" = Some (VStr "child") ∧
           Ref.separate_metadata st' doc section ∧
           (∀ key v,
              (Ref.metadata_setitem doc key v st').1 = Return () ∧
              Ref.read_metadata (Ref.metadata_setitem doc key v st').2
                doc key = Some v ∧
              Ref.read_dict (Ref.metadata_setitem doc key v st').2 section
              = Ref.read_dict st' section) ∧
           (∀ key v,
              (Ref.metadata_setitem section key v st').1 = Return () ∧
              Ref.read_metadata (Ref.metadata_setitem section key v st').2
                section key = Some v ∧
              Ref.read_dict (Ref.metadata_setitem section key v st').2 doc
              = Ref.read_dict st' doc))
      (Ref.documents two_recipes_loaded_refs) groups.
Proof.
  assert (Ref.documents_loaded two_recipes_loaded_refs) as Hloaded
    by exact (with_own_dicts_loaded _ two_recipes_loaded_ok).
  split; [exact Hloaded|].
  exact (sections_inherit_metadata example_uuid4 example_split_text
           two_recipes_loaded_refs Hloaded).
Defined.

(** * Further properties *)

(** ** Enrichment *)

Lemma enhanced_source d s : source_of (enhanced d s) = source_of d.
Proof.
  unfold source_of, enhanced. cbn [metadata].
  by rewrite !lookup_insert_ne.
Qed.

Lemma enhanced_idempotent d s : enhanced (enhanced d s) s = enhanced d s.
Proof.
  unfold enhanced. cbn [page_content metadata]. f_equal.
  apply map_eq. intros key. rewrite !lookup_insert.
  repeat case_decide; done.
Qed.

(** X1: enriching a document a second time changes nothing: the second
    call has the outcome of the first and leaves the state the first
    left. *)
Theorem enhance_metadata_idempotent st doc d :
  store st !! doc = Some d →
  _enhance_metadata doc (_enhance_metadata doc st).2
  = _enhance_metadata doc st.
Proof.
  intros H. destruct (source_of d) as [s|n] eqn:Hs.
  - rewrite (enhance_run _ _ _ _ H Hs). cbn [snd].
    rewrite (enhance_run _ _ (enhanced d s) s);
      [|apply set_obj_lookup|by rewrite enhanced_source].
    by rewrite set_obj_twice, enhanced_idempotent.
  - rewrite (enhance_raise _ _ _ _ H Hs). cbn [snd].
    apply (enhance_raise _ _ _ _ H Hs).
Qed.

(** The second enrichment of the stew recipe. *)
Lemma enhance_metadata_idempotent_stew :
  store stew_store !! 0 = Some stew ∧
  _enhance_metadata 0 (_enhance_metadata 0 stew_store).2
  = _enhance_metadata 0 stew_store.
Proof.
  split; [vm_compute; reflexivity|].
  apply (enhance_metadata_idempotent stew_store 0 stew).
  vm_compute; reflexivity.
Defined.

Lemma category_in_mapping_order_label path_parts :
  category_in_mapping_order path_parts ∈ category_labels.
Proof.
  unfold category_in_mapping_order, category_labels.
  destruct (List.find _ category_mapping) as [kv|] eqn:Hfind; [|by left].
  right. apply List.find_some in Hfind as [Hin _].
  apply list_elem_of_fmap. exists kv. split; [done|].
  by apply list_elem_of_In.
Qed.

Lemma infer_difficulty_label content :
  infer_difficulty content ∈ difficulty_labels.
Proof.
  unfold infer_difficulty, difficulty_labels.
  repeat case_match; set_solver.
Qed.

(** X2: whatever the path and the content, enrichment sets the category
    to one of the ten category labels and the difficulty to one of the six
    difficulty labels. *)
Theorem enhance_metadata_labels st doc d s :
  store st !! doc = Some d →
  source_of d = VStr s →
  ∃ category difficulty,
    read_metadata (_enhance_metadata doc st).2 doc "category"
    = Some (VStr category) ∧
    category ∈ category_labels ∧
    read_metadata (_enhance_metadata doc st).2 doc "difficulty"
    = Some (VStr difficulty) ∧
    difficulty ∈ difficulty_labels.
Proof.
  intros H Hs. rewrite (enhance_run _ _ _ _ H Hs). cbn [snd].
  rewrite !read_metadata_set_obj. unfold enhanced. cbn [metadata].
  eexists _, _.
  split; [by rewrite !lookup_insert_ne, lookup_insert_eq by done|].
  split; [apply category_in_mapping_order_label|].
  split; [by rewrite lookup_insert_eq|]. apply infer_difficulty_label.
Qed.

(** The labels of the stew recipe. *)
Lemma enhance_metadata_labels_stew :
  store stew_store !! 0 = Some stew ∧
  source_of stew = VStr "dishes/soup/meat_dish/stew.md" ∧
  ∃ category difficulty,
    read_metadata (_enhance_metadata 0 stew_store).2 0 "category"
    = Some (VStr category) ∧
    category ∈ category_labels ∧
    read_metadata (_enhance_metadata 0 stew_store).2 0 "difficulty"
    = Some (VStr difficulty) ∧
    difficulty ∈ difficulty_labels.
Proof.
  split; [vm_compute; reflexivity|]. split; [vm_compute; reflexivity|].
  apply (enhance_metadata_labels stew_store 0 stew
           "dishes/soup/meat_dish/stew.md");
    vm_compute; reflexivity.
Defined.

(** X3: a document without a [source] entry is enriched as the empty
    path: it gets the default category and the empty dish name, and its
    difficulty is inferred from the content as usual. *)
Theorem enhance_metadata_without_source st doc d :
  store st !! doc = Some d →
  metadata d !! "source" = None →
  ∃ st',
    _enhance_metadata doc st = (Return (), st') ∧
    read_metadata st' doc "source" = None ∧
    read_metadata st' doc "category" = Some (VStr default_category) ∧
    read_metadata st' doc "dish_name" = Some (VStr "") ∧
    read_metadata st' doc "difficulty"
    = Some (VStr (difficulty_tier (longest_star_run (page_content d)))).
Proof.
  intros H Hsource.
  assert (source_of d = VStr "") as Hs by (unfold source_of; by rewrite Hsource).
  eexists. split; [by apply enhance_run|].
  rewrite !read_metadata_set_obj. unfold enhanced. cbn [metadata].
  rewrite infer_difficulty_tier.
  split; [by rewrite !lookup_insert_ne by done|].
  split; [by rewrite !lookup_insert_ne, lookup_insert_eq by done|].
  split; [by rewrite lookup_insert_ne, lookup_insert_eq by done|].
  by rewrite lookup_insert_eq.
Qed.

(** The enrichment of the note, which has no [source]. *)
Lemma enhance_metadata_without_source_note :
  store note_store !! 0 = Some note ∧
  metadata note !! "source" = None ∧
  ∃ st',
    _enhance_metadata 0 note_store = (Return (), st') ∧
    read_metadata st' 0 "source" = None ∧
    read_metadata st' 0 "category" = Some (VStr default_category) ∧
    read_metadata st' 0 "dish_name" = Some (VStr "") ∧
    read_metadata st' 0 "difficulty"
    = Some (VStr (difficulty_tier (longest_star_run (page_content note)))).
Proof.
  split; [vm_compute; reflexivity|]. split; [vm_compute; reflexivity|].
  apply (enhance_metadata_without_source note_store 0 note);
    vm_compute; reflexivity.
Defined.

(** X4: when the [source] entry is an int, [Path] raises a [TypeError]
    and enrichment stops there: the state is the one it found. *)
Theorem enhance_metadata_int_source st doc d n :
  store st !! doc = Some d →
  metadata d !! "source" = Some (VInt n) →
  _enhance_metadata doc st = (Raise TypeError, st).
Proof.
  intros H Hsource. apply (enhance_raise st doc d n H).
  unfold source_of. by rewrite Hsource.
Qed.

(** The enrichment of the numbered document. *)
Lemma enhance_metadata_int_source_numbered :
  store numbered_store !! 0 = Some numbered ∧
  metadata numbered !! "source" = Some (VInt 7) ∧
  _enhance_metadata 0 numbered_store = (Raise TypeError, numbered_store).
Proof.
  split; [vm_compute; reflexivity|]. split; [vm_compute; reflexivity|].
  apply (enhance_metadata_int_source numbered_store 0 numbered 7);
    vm_compute; reflexivity.
Defined.

(** ** The dish name *)

Lemma has_char_append c (a b : string) :
  has_char c (a +:+ b) = has_char c a || has_char c b.
Proof.
  induction a as [|x a IH]; [done|].
  rewrite append_cons. simpl. by rewrite IH, orb_assoc.
Qed.

Lemma split_not_nil sep s : Str.split sep s ≠ [].
Proof.
  destruct s as [|c s]; simpl; [done|].
  destruct (Ascii.eqb c sep); [done|]. by destruct (Str.split sep s).
Qed.

Lemma split_append sep (a b : string) :
  Str.split sep (a +:+ String sep b) = Str.split sep a ++ Str.split sep b.
Proof.
  induction a as [|c a IH].
  - rewrite append_nil. simpl. by rewrite Ascii.eqb_refl.
  - rewrite append_cons. simpl. rewrite IH.
    destruct (Ascii.eqb c sep); [done|].
    pose proof (split_not_nil sep a) as Hne.
    by destruct (Str.split sep a).
Qed.

Lemma split_without_separator sep s :
  has_char sep s = false → Str.split sep s = [s].
Proof.
  induction s as [|c s IH]; simpl; [done|].
  intros [Hc Hs]%orb_false_iff. by rewrite Hc, (IH Hs).
Qed.

(** What [posixpath.splitroot] cuts off is at most two slashes. *)
Lemma splitroot_rel p :
  ∃ pre, p = pre +:+ (Path.splitroot p).2 ∧ (pre = "" ∨ pre = "/" ∨ pre = "//").
Proof.
  destruct p as [|a p]; [exists ""; split; [done|by left]|].
  destruct (ascii_dec a "/"%char) as [->|Ha].
  2:{ exists "". split; [|by left].
      by destruct a as [[|] [|] [|] [|] [|] [|] [|] [|]]. }
  destruct p as [|b p]; [exists "/"; split; [done|by right; left]|].
  destruct (ascii_dec b "/"%char) as [->|Hb].
  2:{ exists "/". split; [|by right; left].
      by destruct b as [[|] [|] [|] [|] [|] [|] [|] [|]]. }
  destruct p as [|c p]; [exists "//"; split; [done|by right; right]|].
  destruct (ascii_dec c "/"%char) as [->|Hc];
    [exists "/"; split; [done|by right; left]|].
  exists "//". split; [|by right; right].
  by destruct c as [[|] [|] [|] [|] [|] [|] [|] [|]].
Qed.

(** The last segment of a path survives [splitroot]. *)
Lemma splitroot_last_segment dir name :
  has_char "/" name = false →
  (Path.splitroot (dir +:+ String "/" name)).2 = name ∨
  ∃ dir', (Path.splitroot (dir +:+ String "/" name)).2
          = dir' +:+ String "/" name.
Proof.
  intros Hname.
  destruct (splitroot_rel (dir +:+ String "/" name)) as (pre & Hp & Hpre).
  revert Hp. generalize (Path.splitroot (dir +:+ String "/" name)).2.
  intros rel Hp.
  assert (∀ x, name ≠ String "/" x) as Hhead.
  { intros x ->. simpl in Hname. done. }
  destruct Hpre as [-> | [-> | ->]].
  - right. exists dir. by rewrite append_nil in Hp.
  - destruct dir as [|a dir].
    + left. rewrite append_nil in Hp. by injection Hp.
    + right. exists dir. rewrite !append_cons, append_nil in Hp.
      by injection Hp.
  - destruct dir as [|a [|b dir]].
    + rewrite append_nil in Hp. injection Hp as Hp. by apply Hhead in Hp.
    + left. rewrite !append_cons, append_nil in Hp. by injection Hp.
    + right. exists dir. rewrite !append_cons, append_nil in Hp.
      by injection Hp.
Qed.

Lemma last_snoc_filter (segments : list string) name :
  Path.keep_segment name = true →
  List.last (List.filter Path.keep_segment (segments ++ [name])) "" = name.
Proof.
  intros Hkeep. rewrite List.filter_app. simpl. rewrite Hkeep.
  apply List.last_last.
Qed.

(** [Path(p).name] is what follows the last slash. *)
Lemma name_of_str dir name :
  has_char "/" name = false →
  Path.keep_segment name = true →
  Path.name (Path.of_str (dir +:+ String "/" name)) = name.
Proof.
  intros Hname Hkeep. unfold Path.of_str, Path.name.
  destruct (splitroot_last_segment dir name Hname) as [Hrel|[dir' Hrel]];
    destruct (Path.splitroot (dir +:+ String "/" name)) as [root rel];
    simpl in Hrel; subst rel; cbn [Path.tail].
  - rewrite split_without_separator by done.
    apply (last_snoc_filter [] name Hkeep).
  - rewrite split_append, (split_without_separator _ name) by done.
    by apply last_snoc_filter.
Qed.

Lemma rfind_absent c s : has_char c s = false → Str.rfind c s = None.
Proof.
  induction s as [|a s IH]; simpl; [done|].
  intros [Ha Hs]%orb_false_iff. by rewrite (IH Hs), Ha.
Qed.

Lemma rfind_last c (a b : string) :
  has_char c b = false →
  Str.rfind c (a +:+ String c b) = Some (String.length a).
Proof.
  intros Hb. induction a as [|x a IH].
  - rewrite append_nil. simpl. by rewrite (rfind_absent _ _ Hb), Ascii.eqb_refl.
  - rewrite append_cons. simpl. by rewrite IH.
Qed.

Lemma substring_prefix (a b : string) :
  String.substring 0 (String.length a) (a +:+ b) = a.
Proof.
  induction a as [|x a IH]; [by destruct b|].
  rewrite append_cons. simpl. by rewrite IH.
Qed.

(** [Path(p).stem] drops the last suffix of the file name. *)
Lemma stem_of_str dir base ext :
  base ≠ "" → ext ≠ "" →
  has_char "/" base = false →
  has_char "/" ext = false →
  has_char "." ext = false →
  Path.stem (Path.of_str (dir +:+ String "/" (base +:+ String "." ext)))
  = base.
Proof.
  intros Hbase Hext Hslash1 Hslash2 Hdot. unfold Path.stem.
  rewrite name_of_str.
  - rewrite rfind_last by done.
    rewrite length_append. simpl String.length.
    destruct base as [|x base]; [done|]. destruct ext as [|y ext]; [done|].
    simpl String.length.
    replace ((0 <? S (String.length base))
             && (S (String.length base)
                 <? S (String.length base) + S (S (String.length ext)) - 1))
      with true.
    + apply (substring_prefix (String x base)).
    + symmetry. apply andb_true_iff. split; apply Nat.ltb_lt; lia.
  - rewrite has_char_append. simpl. by rewrite Hslash1, Hslash2.
  - destruct base as [|x base]; [done|].
    unfold Path.keep_segment. rewrite append_cons. simpl.
    assert (String.eqb (base +:+ String "." ext) "" = false) as ->
      by (by destruct base).
    by destruct (Ascii.eqb x ".").
Qed.

(** X5: for a source path that ends in [/base.ext], where [base] and
    [ext] are not empty, have no slash and [ext] has no dot, enrichment
    sets the dish name to [base]: the directory and the last suffix of the
    file name are dropped. *)
Theorem dish_name_is_file_stem st doc d dir base ext :
  store st !! doc = Some d →
  metadata d !! "source"
  = Some (VStr (dir +:+ "/" +:+ base +:+ "." +:+ ext)) →
  base ≠ "" → ext ≠ "" →
  has_char "/" base = false →
  has_char "/" ext = false →
  has_char "." ext = false →
  ∃ st',
    _enhance_metadata doc st = (Return (), st') ∧
    read_metadata st' doc "dish_name" = Some (VStr base).
Proof.
  intros H Hsource Hbase Hext Hs1 Hs2 Hdot.
  assert (source_of d = VStr (dir +:+ "/" +:+ base +:+ "." +:+ ext)) as Hs
    by (unfold source_of; by rewrite Hsource).
  eexists. split; [by apply enhance_run|].
  rewrite read_metadata_set_obj. unfold enhanced. cbn [metadata].
  rewrite lookup_insert_ne, lookup_insert_eq by done.
  do 2 f_equal. by apply (stem_of_str dir base ext).
Qed.

(** The dish name of the stew recipe. *)
Lemma dish_name_is_file_stem_stew :
  store stew_store !! 0 = Some stew ∧
  metadata stew !! "source"
  = Some (VStr ("dishes/soup/meat_dish" +:+ "/" +:+ "stew" +:+ "." +:+ "md")) ∧
  "stew" ≠ "" ∧ "md" ≠ "" ∧
  has_char "/" "stew" = false ∧
  has_char "/" "md" = false ∧
  has_char "." "md" = false ∧
  ∃ st',
    _enhance_metadata 0 stew_store = (Return (), st') ∧
    read_metadata st' 0 "dish_name" = Some (VStr "stew").
Proof.
  assert ("stew" ≠ "") as H1 by done.
  assert ("md" ≠ "") as H2 by done.
  split; [vm_compute; reflexivity|]. split; [vm_compute; reflexivity|].
  split; [exact H1|]. split; [exact H2|].
  split; [reflexivity|]. split; [reflexivity|]. split; [reflexivity|].
  apply (dish_name_is_file_stem stew_store 0 stew "dishes/soup/meat_dish"
           "stew" "md");
    try (vm_compute; reflexivity); done.
Defined.

(** ** Aggregation, further *)

(** X6: [get_parent_documents] only reads: whatever it is given and
    however it ends, it leaves the documents, the chunks, the parent-child
    map and every object as they were. *)
Theorem get_parent_documents_read_only child_chunks st :
  (get_parent_documents child_chunks st).2 = st.
Proof. apply get_parent_documents_no_check. Qed.

(** X7: for sections whose [parent_id], where there is one, is a string
    or an int (the values of the model, both hashable), the outcome of
    [get_parent_documents] depends on two things only.  When no given
    section has a truthy [parent_id] it is [None]; otherwise it is the
    empty list when the parent-child map is empty and an [AttributeError]
    when the map has a key. *)
Theorem get_parent_documents_outcome child_chunks st :
  Forall (λ chunk, is_Some (store st !! chunk)) child_chunks →
  (get_parent_documents child_chunks st).1
  = if existsb (λ chunk, truthy (read_metadata st chunk "parent_id"))
         child_chunks
    then if decide (parent_child_map st = ∅)
         then Return (PyList [])
         else Raise (AttributeError "metadata")
    else Return PyNone.
Proof. intros Hin. by rewrite (get_parent_documents_run _ _ Hin). Qed.

(** The outcome for the three sections of the two recipes. *)
Lemma get_parent_documents_outcome_two_recipes :
  Forall (λ chunk, is_Some (store two_recipes_split !! chunk)) [2; 3; 4] ∧
  (get_parent_documents [2; 3; 4] two_recipes_split).1
  = if existsb
         (λ chunk, truthy (read_metadata two_recipes_split chunk "parent_id"))
         [2; 3; 4]
    then if decide (parent_child_map two_recipes_split = ∅)
         then Return (PyList [])
         else Raise (AttributeError "metadata")
    else Return PyNone.
Proof.
  assert (Forall (λ chunk, is_Some (store two_recipes_split !! chunk))
            [2; 3; 4]) as Hin by in_store.
  split; [exact Hin|].
  exact (get_parent_documents_outcome [2; 3; 4] two_recipes_split Hin).
Defined.

(** X8: sections without a truthy [parent_id] at the head of the input
    are passed over: the call does what it does on the remaining
    sections. *)
Theorem get_parent_documents_skips_unlinked skipped child_chunks st :
  Forall (λ chunk,
            is_Some (store st !! chunk) ∧
            truthy (read_metadata st chunk "parent_id") = false) skipped →
  get_parent_documents (skipped ++ child_chunks) st
  = get_parent_documents child_chunks st.
Proof.
  unfold get_parent_documents.
  induction 1 as [|chunk skipped [[d Hd] Hfalsy] _ IH]; [done|]. simpl.
  rewrite (bind_Return _ _ _ _ _ (metadata_get_run _ _ _ "parent_id" Hd)).
  rewrite (read_metadata_lookup _ _ _ _ Hd) in Hfalsy.
  destruct (metadata d !! "parent_id") as [pid|]; [|exact IH].
  by rewrite Hfalsy.
Qed.

(** The loose section in front of two sections of the first recipe. *)
Lemma get_parent_documents_skips_unlinked_loose :
  Forall (λ chunk,
            is_Some (store with_unlinked_section !! chunk) ∧
            truthy (read_metadata with_unlinked_section chunk "parent_id")
            = false) [5] ∧
  get_parent_documents ([5] ++ [2; 3]) with_unlinked_section
  = get_parent_documents [2; 3] with_unlinked_section.
Proof.
  assert (Forall (λ chunk,
            is_Some (store with_unlinked_section !! chunk) ∧
            truthy (read_metadata with_unlinked_section chunk "parent_id")
            = false) [5]) as Hskipped.
  { apply Forall_cons_2; [|apply Forall_nil_2].
    split; [vm_compute; by eexists | vm_compute; reflexivity]. }
  split; [exact Hskipped|].
  exact (get_parent_documents_skips_unlinked [5] [2; 3]
           with_unlinked_section Hskipped).
Defined.

(** ** Splitting, further: identifiers and the parent-child map *)

Lemma register_ids_snoc ids id parent_id index :
  register_ids (ids ++ [id]) parent_id index
  = <[id := parent_id]> (register_ids ids parent_id index).
Proof. unfold register_ids. by rewrite foldl_app. Qed.

Lemma register_ids_app ids1 ids2 parent_id index :
  register_ids (ids1 ++ ids2) parent_id index
  = register_ids ids2 parent_id (register_ids ids1 parent_id index).
Proof. unfold register_ids. by rewrite foldl_app. Qed.

Lemma register_ids_lookup_in ids id parent_id index :
  id ∈ ids → register_ids ids parent_id index !! id = Some parent_id.
Proof.
  induction ids as [|id' ids IH] using rev_ind; intros Hin.
  - by apply elem_of_nil in Hin.
  - rewrite register_ids_snoc.
    destruct (decide (id' = id)) as [->|Hne]; [apply lookup_insert_eq|].
    rewrite lookup_insert_ne by done. apply IH.
    apply elem_of_app in Hin as [Hin|Hin]; [done|].
    apply list_elem_of_singleton in Hin. congruence.
Qed.

Lemma register_ids_lookup_notin ids id parent_id index :
  id ∉ ids → register_ids ids parent_id index !! id = index !! id.
Proof.
  induction ids as [|id' ids IH] using rev_ind; intros Hnotin; [done|].
  rewrite register_ids_snoc.
  apply not_elem_of_app in Hnotin as [Hnotin Hne].
  rewrite lookup_insert_ne; [by apply IH|].
  intros ->. apply Hne. by apply list_elem_of_singleton.
Qed.

Section Identifiers.

Variable uuid4_str : nat → string.
Variable split_text_fragments : string → list (string * gmap string value).

(** The loop over [enumerate(md_chunks)] draws one identifier per section,
    in order, and registers each for the parent. *)
Lemma link_chunks_ids doc parent_id dd cs :
  ∀ k st,
    store st !! doc = Some dd →
    doc ∉ cs →
    NoDup cs →
    (∀ c, c ∈ cs → is_Some (store st !! c)) →
    ∃ st',
      for_each (zip (seq k (length cs)) cs) (link_chunk uuid4_str doc parent_id) st
      = (Return (), st') ∧
      uuids_drawn st' = uuids_drawn st + length cs ∧
      (∀ l, l ∉ cs → store st' !! l = store st !! l) ∧
      (∀ j c, cs !! j = Some c →
         read_metadata st' c "chunk_id"
         = Some (VStr (uuid4_str (uuids_drawn st + j))) ∧
         read_metadata st' c "parent_id" = Some parent_id) ∧
      parent_child_map st'
      = register_ids (uuid4_str <$> seq (uuids_drawn st) (length cs))
          parent_id (parent_child_map st).
Proof.
  induction cs as [|c cs IH]; intros k st Hdoc Hnotin Hnodup Hin.
  - exists st. simpl. rewrite Nat.add_0_r. repeat split; done.
  - apply not_elem_of_cons in Hnotin as [Hne Hnotin].
    apply NoDup_cons in Hnodup as [Hc Hnodup].
    destruct (Hin c) as [dc Hdc]; [by left|].
    pose proof (link_chunk_run uuid4_str doc parent_id k c st dd dc Hdoc Hdc)
      as Hstep.
    set (st1 := mkPipeline _ _ _ _ _) in Hstep.
    destruct (IH (S k) st1) as (st' & Hrun & Hu & Hold & Hids & Hmap);
      [by (unfold st1; simpl; rewrite lookup_insert_ne)|done|done|..].
    { intros c' Hc'. unfold st1. simpl.
      destruct (decide (c = c')) as [<-|Hne'];
        [by rewrite lookup_insert_eq|].
      rewrite lookup_insert_ne by done. apply Hin. by right. }
    exists st'. split.
    { simpl. rewrite (bind_Return _ _ _ _ _ Hstep). exact Hrun. }
    split; [rewrite Hu; unfold st1; simpl; lia|]. split.
    { intros l Hl. apply not_elem_of_cons in Hl as [Hl1 Hl2].
      rewrite (Hold l Hl2). unfold st1. simpl. by rewrite lookup_insert_ne. }
    split.
    { intros [|j] c' Hj; simpl in Hj.
      - injection Hj as <-. unfold read_metadata. rewrite (Hold c Hc).
        unfold st1. simpl. rewrite lookup_insert_eq. simpl.
        rewrite Nat.add_0_r.
        by rewrite section_metadata_chunk_id, section_metadata_parent_id.
      - destruct (Hids j c' Hj) as [Hid Hpid]. split; [|done].
        rewrite Hid. unfold st1. simpl. do 3 f_equal. lia. }
    rewrite Hmap. unfold st1. done.
Qed.

(** One turn of the loop over [self.documents], for the identifiers. *)
Lemma split_document_ids doc all_chunks st dd parent_id :
  store st !! doc = Some dd →
  metadata dd !! "parent_id" = Some parent_id →
  ∃ group st',
    split_document uuid4_str split_text_fragments doc all_chunks st
    = (Return (all_chunks ++ group), st') ∧
    uuids_drawn st' = uuids_drawn st + length group ∧
    (∀ j c, group !! j = Some c →
       read_metadata st' c "chunk_id"
       = Some (VStr (uuid4_str (uuids_drawn st + j))) ∧
       read_metadata st' c "parent_id" = Some parent_id) ∧
    parent_child_map st'
    = register_ids (uuid4_str <$> seq (uuids_drawn st) (length group))
        parent_id (parent_child_map st).
Proof.
  intros Hdoc Hpid. unfold split_document.
  erewrite bind_Return by (by apply get_page_content_run).
  destruct (allocate_fragments_run (split_text_fragments (page_content dd)) st)
    as (cs & st1 & Hrun & Hlen & Hnodup & Hnew & Hold & Hnth & Hu & Hd & Hc & Hm).
  unfold split_text. erewrite bind_Return by exact Hrun.
  assert (doc ∉ cs) as Hnotin.
  { intros Hin. apply Hnew in Hin. congruence. }
  assert (store st1 !! doc = Some dd) as Hdoc1 by (by rewrite Hold).
  erewrite bind_Return;
    [|unfold metadata_getitem;
      erewrite bind_Return by (by apply get_metadata_run);
      rewrite Hpid; reflexivity].
  destruct (link_chunks_ids doc parent_id dd cs 0 st1 Hdoc1 Hnotin Hnodup)
    as (st' & Hlink & Hu' & Hold' & Hids & Hmap).
  { intros c Hin. apply list_elem_of_lookup in Hin as [i Hi].
    destruct (Hnth i c Hi) as (fragment & _ & Hfrag). by rewrite Hfrag. }
  unfold enumerate. erewrite bind_Return by exact Hlink.
  exists cs, st'. split; [done|]. rewrite Hu in Hu', Hids, Hmap.
  rewrite Hm in Hmap. done.
Qed.

(** The loop over [self.documents], for the identifiers: the j-th section
    emitted gets the j-th identifier drawn. *)
Lemma split_documents_ids docs :
  ∀ all_chunks st,
    (∀ doc, doc ∈ docs →
       ∃ d, store st !! doc = Some d ∧ is_Some (metadata d !! "parent_id")) →
    ∃ out st',
      for_fold docs all_chunks (split_document uuid4_str split_text_fragments) st
      = (Return (all_chunks ++ out), st') ∧
      uuids_drawn st' = uuids_drawn st + length out ∧
      (∀ j c, out !! j = Some c →
         read_metadata st' c "chunk_id"
         = Some (VStr (uuid4_str (uuids_drawn st + j))) ∧
         is_Some (read_metadata st' c "parent_id")) ∧
      (∀ key, key ∉ uuid4_str <$> seq (uuids_drawn st) (length out) →
              parent_child_map st' !! key = parent_child_map st !! key) ∧
      (Inj (=) (=) uuid4_str →
       ∀ j c, out !! j = Some c →
         parent_child_map st' !! uuid4_str (uuids_drawn st + j)
         = read_metadata st' c "parent_id").
Proof.
  induction docs as [|doc docs IH]; intros all_chunks st Hloaded.
  - exists [], st. simpl. rewrite app_nil_r, Nat.add_0_r.
    repeat split; done.
  - destruct (Hloaded doc) as (dd & Hdoc & [parent_id Hpid]); [by left|].
    destruct (split_document_run uuid4_str split_text_fragments
                doc all_chunks st dd parent_id Hdoc Hpid)
      as (group & st1 & Hrun1 & _ & _ & _ & Hkeep1 & Hin1 & _).
    destruct (split_document_ids doc all_chunks st dd parent_id Hdoc Hpid)
      as (group' & st1' & Hrun1' & Hu1 & Hids1 & Hmap1).
    rewrite Hrun1 in Hrun1'. injection Hrun1' as Hg <-.
    apply app_inv_head in Hg as <-.
    assert (∀ doc', doc' ∈ docs →
              ∃ d, store st1 !! doc' = Some d ∧
                   is_Some (metadata d !! "parent_id")) as Hloaded1.
    { intros doc' Hdoc'. destruct (Hloaded doc') as (d' & Hd' & Hp'); [by right|].
      exists d'. split; [by apply Hkeep1 | done]. }
    destruct (split_documents_run uuid4_str split_text_fragments docs
                (all_chunks ++ group) st1 Hloaded1)
      as (groups & st2 & Hrun2 & _ & _ & _ & Hkeep2 & _ & _).
    destruct (IH (all_chunks ++ group) st1 Hloaded1)
      as (out & st' & Hrun & Hu & Hids & Hmap & Hreg).
    rewrite Hrun2 in Hrun. injection Hrun as Hout ->.
    exists (group ++ out), st'. split.
    { simpl. rewrite (bind_Return _ _ _ _ _ Hrun1), Hrun2, Hout.
      by rewrite app_assoc. }
    assert (∀ j c, group !! j = Some c →
              read_metadata st' c "chunk_id"
              = Some (VStr (uuid4_str (uuids_drawn st + j))) ∧
              read_metadata st' c "parent_id" = Some parent_id) as Hids1'.
    { intros j c Hj. destruct (Hids1 j c Hj) as [Hid Hp].
      destruct (Hin1 c) as [x Hx]; [by apply list_elem_of_lookup_2 in Hj|].
      unfold read_metadata in *. rewrite (Hkeep2 _ _ Hx).
      by rewrite Hx in Hid, Hp. }
    split; [rewrite Hu, Hu1, length_app; lia|]. split.
    { intros j c Hj. destruct (decide (j < length group)) as [Hlt|Hge].
      - rewrite lookup_app_l in Hj by done.
        destruct (Hids1' j c Hj) as [Hid Hp]. split; [done|]. by rewrite Hp.
      - rewrite lookup_app_r in Hj by lia.
        destruct (Hids _ c Hj) as [Hid Hp]. split; [|done].
        rewrite Hid, Hu1. do 3 f_equal. lia. }
    split.
    { intros key Hkey. rewrite length_app, seq_app, fmap_app in Hkey.
      apply not_elem_of_app in Hkey as [Hkey1 Hkey2].
      rewrite Hmap by (by rewrite Hu1).
      rewrite Hmap1. by apply register_ids_lookup_notin. }
    intros Hinj j c Hj. destruct (decide (j < length group)) as [Hlt|Hge].
    + rewrite lookup_app_l in Hj by done.
      destruct (Hids1' j c Hj) as [_ ->].
      rewrite Hmap.
      * rewrite Hmap1. apply register_ids_lookup_in.
        apply list_elem_of_fmap. exists (uuids_drawn st + j).
        split; [done|]. apply elem_of_seq. lia.
      * intros Hin. apply list_elem_of_fmap in Hin as (m & Heq & Hm).
        apply Hinj in Heq. apply elem_of_seq in Hm. lia.
    + rewrite lookup_app_r in Hj by lia.
      rewrite <- (Hreg Hinj _ c Hj). rewrite Hu1. do 2 f_equal. lia.
Qed.

End Identifiers.

(** ** Splitting, further: the whole of [chunk_documents] *)

Lemma for_fold_app {A B} (xs ys : list A) (acc : B) (body : A → B → M B) st :
  for_fold (xs ++ ys) acc body st
  = (for_fold xs acc body ≫= λ acc', for_fold ys acc' body) st.
Proof.
  revert acc st. induction xs as [|x xs IH]; intros acc st; [done|].
  simpl. unfold mbind, M_bind in *.
  destruct (body x acc st) as [[acc'|e] st1]; [apply IH | done].
Qed.

Section Chunking.

Variable uuid4_str : nat → string.
Variable split_text_fragments : string → list (string * gmap string value).

(** The loop over [enumerate(chunks)] on pairwise distinct sections that
    have a [chunk_id]: what each section is afterwards, and what stays. *)
Lemma stamp_chunks_exact cs :
  ∀ k st,
    NoDup cs →
    (∀ c, c ∈ cs →
       ∃ dc, store st !! c = Some dc ∧ is_Some (metadata dc !! "chunk_id")) →
    ∃ st',
      for_each (zip (seq k (length cs)) cs) (stamp_chunk uuid4_str) st
      = (Return (), st') ∧
      uuids_drawn st' = uuids_drawn st ∧
      documents st' = documents st ∧
      parent_child_map st' = parent_child_map st ∧
      (∀ l, l ∉ cs → store st' !! l = store st !! l) ∧
      (∀ j c dc, cs !! j = Some c → store st !! c = Some dc →
         store st' !! c
         = Some (mkDocument (page_content dc)
                   (<["chunk_size" :=
                        VInt (Z.of_nat (Str.len (page_content dc)))]>
                      (<["batch_index" := VInt (Z.of_nat (k + j))]>
                         (metadata dc))))).
Proof.
  induction cs as [|c cs IH]; intros k st Hnodup Hcs.
  - exists st. repeat split; done.
  - apply NoDup_cons in Hnodup as [Hc Hnodup].
    destruct (Hcs c) as (dc & Hdc & Hid); [by left|].
    pose proof (stamp_chunk_run uuid4_str k c st dc Hdc Hid) as Hstep.
    set (d1 := mkDocument _ _) in Hstep.
    destruct (IH (S k) (set_obj st c d1) Hnodup)
      as (st' & Hrun & Hu & Hd & Hm & Hold & Hnth).
    { intros c' Hc'. rewrite set_obj_lookup_ne by (intros ->; done).
      apply Hcs. by right. }
    exists st'. split.
    { simpl. rewrite (bind_Return _ _ _ _ _ Hstep). exact Hrun. }
    split; [done|]. split; [done|]. split; [done|]. split.
    { intros l Hl. apply not_elem_of_cons in Hl as [Hl1 Hl2].
      rewrite (Hold l Hl2). by apply set_obj_lookup_ne. }
    intros [|j] c' dc' Hj Hdc'; simpl in Hj.
    + injection Hj as <-. rewrite Hdc in Hdc'. injection Hdc' as <-.
      rewrite (Hold c Hc), set_obj_lookup. unfold d1.
      by rewrite Nat.add_0_r.
    + assert (c ≠ c') as Hne.
      { intros ->. apply Hc. by apply list_elem_of_lookup_2 in Hj. }
      rewrite (Hnth j c' dc' Hj) by (by rewrite set_obj_lookup_ne).
      by rewrite Nat.add_succ_r.
Qed.

(** [chunk_documents] on loaded documents, step by step: [st1] is the
    state after [_markdown_header_split], [st'] the final one. *)
Lemma chunk_documents_exact st :
  documents st ≠ [] →
  documents_loaded st →
  ∃ groups st1 st',
    chunk_documents uuid4_str split_text_fragments st
    = (Return (concat groups), st') ∧
    chunks st' = concat groups ∧
    documents st' = documents st ∧
    uuids_drawn st' = uuids_drawn st + length (concat groups) ∧
    NoDup (concat groups) ∧
    Forall2 (sections_of split_text_fragments st st1) (documents st) groups ∧
    (∀ l d, store st !! l = Some d → store st1 !! l = Some d) ∧
    (∀ l, l ∉ concat groups → store st' !! l = store st1 !! l) ∧
    (∀ j c, concat groups !! j = Some c →
       ∃ dc,
         store st1 !! c = Some dc ∧
         metadata dc !! "chunk_id"
         = Some (VStr (uuid4_str (uuids_drawn st + j))) ∧
         is_Some (metadata dc !! "parent_id") ∧
         store st' !! c
         = Some (mkDocument (page_content dc)
                   (<["chunk_size" :=
                        VInt (Z.of_nat (Str.len (page_content dc)))]>
                      (<["batch_index" := VInt (Z.of_nat j)]>
                         (metadata dc)))) ∧
         (Inj (=) (=) uuid4_str →
          parent_child_map st' !! uuid4_str (uuids_drawn st + j)
          = metadata dc !! "parent_id")) ∧
    (∀ key,
       key ∉ uuid4_str <$> seq (uuids_drawn st) (length (concat groups)) →
       parent_child_map st' !! key = parent_child_map st !! key).
Proof.
  intros Hne Hloaded.
  destruct (markdown_header_split_run uuid4_str split_text_fragments st Hloaded)
    as (groups & st1 & Hsplit & Hd1 & Hc1 & Hnodup & Hkeep & Hin & Hsec).
  destruct (split_documents_ids uuid4_str split_text_fragments
              (documents st) [] st Hloaded)
    as (out & st1' & Hrun' & Hu1 & Hids & Hmap & Hreg).
  assert (_markdown_header_split uuid4_str split_text_fragments st
          = (Return out, st1')) as Hsplit'.
  { unfold _markdown_header_split. by erewrite bind_Return by reflexivity. }
  rewrite Hsplit in Hsplit'. injection Hsplit' as <- <-.
  assert (∀ j c, concat groups !! j = Some c →
            ∃ dc, store st1 !! c = Some dc ∧
                  metadata dc !! "chunk_id"
                  = Some (VStr (uuid4_str (uuids_drawn st + j))) ∧
                  is_Some (metadata dc !! "parent_id") ∧
                  read_metadata st1 c "parent_id"
                  = metadata dc !! "parent_id") as Hobj.
  { intros j c Hj. destruct (Hids j c Hj) as [Hid Hpid].
    destruct (Hin c) as [dc Hdc]; [by apply list_elem_of_lookup_2 in Hj|].
    exists dc. rewrite (read_metadata_lookup _ _ _ "chunk_id" Hdc) in Hid.
    rewrite (read_metadata_lookup _ _ _ "parent_id" Hdc) in Hpid.
    by rewrite (read_metadata_lookup _ _ _ _ Hdc). }
  destruct (stamp_chunks_exact (concat groups) 0 st1 Hnodup)
    as (st2 & Hstamp & Hu2 & Hd2 & Hm2 & Hold & Hnth).
  { intros c Hc. apply list_elem_of_lookup in Hc as [j Hj].
    destruct (Hobj j c Hj) as (dc & Hdc & Hid & _). exists dc.
    split; [done|]. by rewrite Hid. }
  exists groups, st1,
    (mkPipeline (store st2) (uuids_drawn st2) (documents st2) (concat groups)
       (parent_child_map st2)).
  split.
  { unfold chunk_documents. erewrite bind_Return by reflexivity.
    destruct (documents st) as [|doc docs]; [done|].
    erewrite bind_Return by exact Hsplit.
    unfold enumerate. erewrite bind_Return by exact Hstamp.
    reflexivity. }
  simpl. split; [done|]. split; [congruence|]. split; [congruence|].
  split; [done|]. split; [done|]. split; [done|]. split; [done|]. split.
  - intros j c Hj. destruct (Hobj j c Hj) as (dc & Hdc & Hid & Hpid & Hread).
    exists dc. split; [done|]. split; [done|]. split; [done|].
    split; [by apply (Hnth j c dc Hj Hdc)|].
    intros Hinj. rewrite Hm2, <- Hread. by apply Hreg.
  - intros key Hkey. rewrite Hm2. by apply Hmap.
Qed.

End Chunking.

Lemma Forall2_impl_elem {A B} (P Q : A → B → Prop) (l : list A) (k : list B) :
  Forall2 P l k →
  (∀ x y, y ∈ k → P x y → Q x y) →
  Forall2 Q l k.
Proof.
  induction 1 as [|x y l k Hxy _ IH]; intros Himpl; constructor.
  - apply Himpl; [by left | done].
  - apply IH. intros x' y' Hy'. apply Himpl. by right.
Qed.

Lemma elem_of_concat_group {A} (groups : list (list A)) group x :
  group ∈ groups → x ∈ group → x ∈ concat groups.
Proof.
  induction groups as [|g groups IH]; intros Hgroup Hx.
  - by apply elem_of_nil in Hgroup.
  - simpl. apply elem_of_app.
    apply elem_of_cons in Hgroup as [->|Hgroup]; [by left|].
    right. by apply IH.
Qed.

Section ChunkingProperties.

Variable uuid4_str : nat → string.
Variable split_text_fragments : string → list (string * gmap string value).

(** X9: [chunk_documents] makes new objects and touches no other: the
    sections it returns are pairwise distinct objects that did not exist
    before, every object that existed (each parent document among them) is
    as it was, [self.documents] is unchanged and [self.chunks] is the
    returned list. *)
Theorem chunk_documents_frame st :
  documents st ≠ [] →
  documents_loaded st →
  ∃ sections st',
    chunk_documents uuid4_str split_text_fragments st
    = (Return sections, st') ∧
    chunks st' = sections ∧
    documents st' = documents st ∧
    NoDup sections ∧
    (∀ c, c ∈ sections → store st !! c = None ∧ is_Some (store st' !! c)) ∧
    (∀ l d, store st !! l = Some d → store st' !! l = Some d).
Proof.
  intros Hne Hloaded.
  destruct (chunk_documents_exact uuid4_str split_text_fragments st Hne Hloaded)
    as (groups & st1 & st' & Hrun & Hc & Hd & Hu & Hnodup & Hsec & Hkeep &
        Hold & Hnth & Hmap).
  exists (concat groups), st'. split; [done|]. split; [done|].
  split; [done|]. split; [done|]. split.
  - intros c Hin. split; [by apply (sections_of_all_new _ _ _ _ _ _ Hsec)|].
    apply list_elem_of_lookup in Hin as [j Hj].
    destruct (Hnth j c Hj) as (dc & _ & _ & _ & Hobj & _). by rewrite Hobj.
  - intros l d Hl. rewrite Hold; [by apply Hkeep|].
    intros Hin. by rewrite (sections_of_all_new _ _ _ _ _ _ Hsec Hin) in Hl.
Qed.

(** X10: the j-th section that [chunk_documents] returns has
    [batch_index] j, counted over all documents, and its [chunk_size] is
    the number of characters of its content. *)
Theorem chunk_documents_batch_index st :
  documents st ≠ [] →
  documents_loaded st →
  ∃ sections st',
    chunk_documents uuid4_str split_text_fragments st
    = (Return sections, st') ∧
    ∀ j c, sections !! j = Some c →
      read_metadata st' c "batch_index" = Some (VInt (Z.of_nat j)) ∧
      ∃ content,
        read_content st' c = Some content ∧
        read_metadata st' c "chunk_size"
        = Some (VInt (Z.of_nat (Str.len content))).
Proof.
  intros Hne Hloaded.
  destruct (chunk_documents_exact uuid4_str split_text_fragments st Hne Hloaded)
    as (groups & st1 & st' & Hrun & _ & _ & _ & _ & _ & _ & _ & Hnth & _).
  exists (concat groups), st'. split; [done|].
  intros j c Hj. destruct (Hnth j c Hj) as (dc & _ & _ & _ & Hobj & _).
  unfold read_metadata, read_content. rewrite Hobj. simpl.
  split; [by rewrite lookup_insert_ne, lookup_insert_eq|].
  exists (page_content dc). split; [done|]. by rewrite lookup_insert_eq.
Qed.

(** X11: the i-th section of a document has the text of the i-th
    fragment of the document's content, and it keeps every metadata entry
    of that fragment whose key the document does not have and splitting
    does not set. *)
Theorem chunk_documents_section_content st :
  documents st ≠ [] →
  documents_loaded st →
  ∃ groups st',
    chunk_documents uuid4_str split_text_fragments st
    = (Return (concat groups), st') ∧
    Forall2
      (λ doc group,
         ∃ d, store st !! doc = Some d ∧
           ∀ i c, group !! i = Some c →
             ∃ fragment,
               split_text_fragments (page_content d) !! i = Some fragment ∧
               read_content st' c = Some fragment.1 ∧
               ∀ key, key ∉ stamped_keys → metadata d !! key = None →
                      read_metadata st' c key = fragment.2 !! key)
      (documents st) groups.
Proof.
  intros Hne Hloaded.
  destruct (chunk_documents_exact uuid4_str split_text_fragments st Hne Hloaded)
    as (groups & st1 & st' & Hrun & _ & _ & _ & _ & Hsec & _ & _ & Hnth & _).
  exists groups, st'. split; [done|].
  eapply Forall2_impl_elem; [exact Hsec|].
  intros doc group Hgroup (d & parent_id & Hdoc & Hpid & Hlen & Hfrag).
  exists d. split; [done|]. intros i c Hi.
  destruct (Hfrag i c Hi) as (_ & fragment & child_id & Hfragment & Hobj1).
  exists fragment. split; [done|].
  assert (c ∈ concat groups) as Hin.
  { apply (elem_of_concat_group groups group); [done|].
    by apply list_elem_of_lookup_2 in Hi. }
  apply list_elem_of_lookup in Hin as [j Hj].
  destruct (Hnth j c Hj) as (dc & Hdc & _ & _ & Hobj & _).
  rewrite Hobj1 in Hdc. injection Hdc as <-.
  unfold read_content, read_metadata. rewrite Hobj. simpl.
  split; [done|]. intros key Hkey Hnone.
  destruct (not_stamped_key key Hkey) as (H1 & H2 & H3 & H4 & H5 & H6).
  rewrite stamps_lookup by done.
  unfold section_metadata. rewrite lookup_union_r.
  - by rewrite lookup_union_r.
  - rewrite !lookup_insert_ne by done. by apply lookup_singleton_ne.
Qed.

(** X12: [chunk_documents] draws one identifier per section and no other:
    the j-th section it returns has the j-th identifier drawn during the
    call as its [chunk_id]. *)
Theorem chunk_documents_identifiers st :
  documents st ≠ [] →
  documents_loaded st →
  ∃ sections st',
    chunk_documents uuid4_str split_text_fragments st
    = (Return sections, st') ∧
    uuids_drawn st' = uuids_drawn st + length sections ∧
    ∀ j c, sections !! j = Some c →
      read_metadata st' c "chunk_id"
      = Some (VStr (uuid4_str (uuids_drawn st + j))).
Proof.
  intros Hne Hloaded.
  destruct (chunk_documents_exact uuid4_str split_text_fragments st Hne Hloaded)
    as (groups & st1 & st' & Hrun & _ & _ & Hu & _ & _ & _ & _ & Hnth & _).
  exists (concat groups), st'. split; [done|]. split; [done|].
  intros j c Hj. destruct (Hnth j c Hj) as (dc & _ & Hid & _ & Hobj & _).
  unfold read_metadata. rewrite Hobj. simpl.
  by rewrite stamps_lookup.
Qed.

(** X13: when the identifiers drawn are pairwise distinct, after
    [chunk_documents] the parent-child map sends the [chunk_id] of every
    returned section to the [parent_id] of that section; entries under
    other keys than the identifiers drawn are as they were. *)
Theorem chunk_documents_registers_sections st :
  Inj (=) (=) uuid4_str →
  documents st ≠ [] →
  documents_loaded st →
  ∃ sections st',
    chunk_documents uuid4_str split_text_fragments st
    = (Return sections, st') ∧
    (∀ c, c ∈ sections →
       ∃ child_id parent_id,
         read_metadata st' c "chunk_id" = Some (VStr child_id) ∧
         read_metadata st' c "parent_id" = Some parent_id ∧
         parent_child_map st' !! child_id = Some parent_id) ∧
    (∀ key,
       key ∉ uuid4_str <$> seq (uuids_drawn st) (length sections) →
       parent_child_map st' !! key = parent_child_map st !! key).
Proof.
  intros Hinj Hne Hloaded.
  destruct (chunk_documents_exact uuid4_str split_text_fragments st Hne Hloaded)
    as (groups & st1 & st' & Hrun & _ & _ & _ & _ & _ & _ & _ & Hnth & Hmap).
  exists (concat groups), st'. split; [done|]. split; [|done].
  intros c Hin. apply list_elem_of_lookup in Hin as [j Hj].
  destruct (Hnth j c Hj) as (dc & _ & Hid & [parent_id Hpid] & Hobj & Hreg).
  exists (uuid4_str (uuids_drawn st + j)), parent_id.
  unfold read_metadata. rewrite Hobj. simpl.
  rewrite !stamps_lookup by done.
  split; [done|]. split; [done|]. by rewrite (Hreg Hinj).
Qed.

(** X14: when a listed document has no [parent_id] and the documents
    before it have one, [chunk_documents] raises [KeyError]; it does not
    assign [self.chunks] and changes no object that existed. *)
Theorem chunk_documents_missing_parent_id st before doc after dd :
  documents st = before ++ doc :: after →
  (∀ doc', doc' ∈ before →
     ∃ d, store st !! doc' = Some d ∧ is_Some (metadata d !! "parent_id")) →
  store st !! doc = Some dd →
  metadata dd !! "parent_id" = None →
  ∃ st',
    chunk_documents uuid4_str split_text_fragments st
    = (Raise (KeyError "parent_id"), st') ∧
    chunks st' = chunks st ∧
    documents st' = documents st ∧
    (∀ l d, store st !! l = Some d → store st' !! l = Some d).
Proof.
  intros Hdocs Hbefore Hdoc Hpid.
  destruct (split_documents_run uuid4_str split_text_fragments before [] st
              Hbefore)
    as (groups & st1 & Hrun1 & Hd1 & Hc1 & _ & Hkeep1 & _ & _).
  pose proof (Hkeep1 _ _ Hdoc) as Hdoc1.
  destruct (allocate_fragments_run (split_text_fragments (page_content dd)) st1)
    as (cs & st2 & Hrun2 & _ & _ & Hnew & Hold & _ & _ & Hd2 & Hc2 & _).
  assert (store st2 !! doc = Some dd) as Hdoc2.
  { rewrite Hold; [done|]. intros Hin. apply Hnew in Hin. congruence. }
  assert (split_document uuid4_str split_text_fragments doc
            ([] ++ concat groups) st1
          = (Raise (KeyError "parent_id"), st2)) as Hfail.
  { unfold split_document.
    erewrite bind_Return by (by apply get_page_content_run).
    unfold split_text. erewrite bind_Return by exact Hrun2.
    erewrite bind_Raise; [done|].
    unfold metadata_getitem.
    erewrite bind_Return by (by apply get_metadata_run).
    by rewrite Hpid. }
  exists st2. split.
  - unfold chunk_documents. erewrite bind_Return by reflexivity.
    rewrite Hdocs.
    assert (_markdown_header_split uuid4_str split_text_fragments st
            = (Raise (KeyError "parent_id"), st2)) as Hsplit.
    { unfold _markdown_header_split. erewrite bind_Return by reflexivity.
      rewrite Hdocs, for_fold_app.
      erewrite bind_Return by exact Hrun1. simpl.
      by erewrite bind_Raise by exact Hfail. }
    destruct before; simpl; by erewrite bind_Raise by exact Hsplit.
  - split; [congruence|]. split; [congruence|].
    intros l d Hl. rewrite Hold; [by apply Hkeep1|].
    intros Hin. apply Hnew in Hin. rewrite (Hkeep1 _ _ Hl) in Hin. done.
Qed.

End ChunkingProperties.

(** The example identifiers are pairwise distinct. *)
Lemma example_uuid4_inj : Inj (=) (=) example_uuid4.
Proof.
  assert (∀ n, String.length (Str.repeat "x" n) = n) as Hlen.
  { induction n as [|n IH]; [done|].
    simpl Str.repeat. rewrite length_append, IH. done. }
  intros m n Heq. unfold example_uuid4 in Heq.
  apply (inj (String.app "uuid-")) in Heq.
  by rewrite <- (Hlen m), <- (Hlen n), Heq.
Qed.

Lemma two_recipes_loaded_documents : documents two_recipes_loaded ≠ [].
Proof. vm_compute. discriminate. Qed.

(** The frame of splitting the two recipes. *)
Lemma chunk_documents_frame_two_recipes :
  documents two_recipes_loaded ≠ [] ∧
  documents_loaded two_recipes_loaded ∧
  ∃ sections st',
    chunk_documents example_uuid4 example_split_text two_recipes_loaded
    = (Return sections, st') ∧
    chunks st' = sections ∧
    documents st' = documents two_recipes_loaded ∧
    NoDup sections ∧
    (∀ c, c ∈ sections →
       store two_recipes_loaded !! c = None ∧ is_Some (store st' !! c)) ∧
    (∀ l d, store two_recipes_loaded !! l = Some d → store st' !! l = Some d).
Proof.
  split; [exact two_recipes_loaded_documents|].
  split; [exact two_recipes_loaded_ok|].
  exact (chunk_documents_frame example_uuid4 example_split_text
           two_recipes_loaded two_recipes_loaded_documents
           two_recipes_loaded_ok).
Defined.

(** The batch indices of the sections of the two recipes. *)
Lemma chunk_documents_batch_index_two_recipes :
  documents two_recipes_loaded ≠ [] ∧
  documents_loaded two_recipes_loaded ∧
  ∃ sections st',
    chunk_documents example_uuid4 example_split_text two_recipes_loaded
    = (Return sections, st') ∧
    ∀ j c, sections !! j = Some c →
      read_metadata st' c "batch_index" = Some (VInt (Z.of_nat j)) ∧
      ∃ content,
        read_content st' c = Some content ∧
        read_metadata st' c "chunk_size"
        = Some (VInt (Z.of_nat (Str.len content))).
Proof.
  split; [exact two_recipes_loaded_documents|].
  split; [exact two_recipes_loaded_ok|].
  exact (chunk_documents_batch_index example_uuid4 example_split_text
           two_recipes_loaded two_recipes_loaded_documents
           two_recipes_loaded_ok).
Defined.

(** The content of the sections of the two recipes. *)
Lemma chunk_documents_section_content_two_recipes :
  documents two_recipes_loaded ≠ [] ∧
  documents_loaded two_recipes_loaded ∧
  ∃ groups st',
    chunk_documents example_uuid4 example_split_text two_recipes_loaded
    = (Return (concat groups), st') ∧
    Forall2
      (λ doc group,
         ∃ d, store two_recipes_loaded !! doc = Some d ∧
           ∀ i c, group !! i = Some c →
             ∃ fragment,
               example_split_text (page_content d) !! i = Some fragment ∧
               read_content st' c = Some fragment.1 ∧
               ∀ key, key ∉ stamped_keys → metadata d !! key = None →
                      read_metadata st' c key = fragment.2 !! key)
      (documents two_recipes_loaded) groups.
Proof.
  split; [exact two_recipes_loaded_documents|].
  split; [exact two_recipes_loaded_ok|].
  exact (chunk_documents_section_content example_uuid4 example_split_text
           two_recipes_loaded two_recipes_loaded_documents
           two_recipes_loaded_ok).
Defined.

(** The identifiers of the sections of the two recipes. *)
Lemma chunk_documents_identifiers_two_recipes :
  documents two_recipes_loaded ≠ [] ∧
  documents_loaded two_recipes_loaded ∧
  ∃ sections st',
    chunk_documents example_uuid4 example_split_text two_recipes_loaded
    = (Return sections, st') ∧
    uuids_drawn st' = uuids_drawn two_recipes_loaded + length sections ∧
    ∀ j c, sections !! j = Some c →
      read_metadata st' c "chunk_id"
      = Some (VStr (example_uuid4 (uuids_drawn two_recipes_loaded + j))).
Proof.
  split; [exact two_recipes_loaded_documents|].
  split; [exact two_recipes_loaded_ok|].
  exact (chunk_documents_identifiers example_uuid4 example_split_text
           two_recipes_loaded two_recipes_loaded_documents
           two_recipes_loaded_ok).
Defined.

(** The parent-child map after splitting the two recipes. *)
Lemma chunk_documents_registers_sections_two_recipes :
  Inj (=) (=) example_uuid4 ∧
  documents two_recipes_loaded ≠ [] ∧
  documents_loaded two_recipes_loaded ∧
  ∃ sections st',
    chunk_documents example_uuid4 example_split_text two_recipes_loaded
    = (Return sections, st') ∧
    (∀ c, c ∈ sections →
       ∃ child_id parent_id,
         read_metadata st' c "chunk_id" = Some (VStr child_id) ∧
         read_metadata st' c "parent_id" = Some parent_id ∧
         parent_child_map st' !! child_id = Some parent_id) ∧
    (∀ key,
       key ∉ example_uuid4
             <$> seq (uuids_drawn two_recipes_loaded) (length sections) →
       parent_child_map st' !! key
       = parent_child_map two_recipes_loaded !! key).
Proof.
  split; [exact example_uuid4_inj|].
  split; [exact two_recipes_loaded_documents|].
  split; [exact two_recipes_loaded_ok|].
  exact (chunk_documents_registers_sections example_uuid4 example_split_text
           two_recipes_loaded example_uuid4_inj two_recipes_loaded_documents
           two_recipes_loaded_ok).
Defined.

(** Splitting stops at the document without a [parent_id]. *)
Lemma chunk_documents_missing_parent_id_unlinked :
  documents with_unlinked_document = [0] ++ 6 :: [1] ∧
  (∀ doc', doc' ∈ [0] →
     ∃ d, store with_unlinked_document !! doc' = Some d ∧
          is_Some (metadata d !! "parent_id")) ∧
  store with_unlinked_document !! 6 = Some (mkDocument "# lost" ∅) ∧
  metadata (mkDocument "# lost" ∅) !! "parent_id" = None ∧
  ∃ st',
    chunk_documents example_uuid4 example_split_text with_unlinked_document
    = (Raise (KeyError "parent_id"), st') ∧
    chunks st' = chunks with_unlinked_document ∧
    documents st' = documents with_unlinked_document ∧
    (∀ l d, store with_unlinked_document !! l = Some d →
            store st' !! l = Some d).
Proof.
  assert (documents with_unlinked_document = [0] ++ 6 :: [1]) as Hdocs
    by reflexivity.
  assert (∀ doc', doc' ∈ [0] →
            ∃ d, store with_unlinked_document !! doc' = Some d ∧
                 is_Some (metadata d !! "parent_id")) as Hbefore.
  { intros doc' Hin. apply list_elem_of_singleton in Hin as ->.
    destruct (two_recipes_loaded_ok 0) as (d & Hd & Hp).
    { assert (documents two_recipes_loaded = [0; 1]) as ->
        by (vm_compute; reflexivity).
      by left. }
    exists d. split; [|done].
    unfold with_unlinked_document. cbn [store].
    by rewrite lookup_insert_ne. }
  assert (store with_unlinked_document !! 6 = Some (mkDocument "# lost" ∅))
    as Hdoc by apply lookup_insert_eq.
  assert (metadata (mkDocument "# lost" ∅) !! "parent_id" = None) as Hpid
    by reflexivity.
  split; [exact Hdocs|]. split; [exact Hbefore|]. split; [exact Hdoc|].
  split; [exact Hpid|].
  exact (chunk_documents_missing_parent_id example_uuid4 example_split_text
           with_unlinked_document [0] 6 [1] (mkDocument "# lost" ∅)
           Hdocs Hbefore Hdoc Hpid).
Defined.

(** ** Loading, further *)

Lemma enhanced_lookup_other d s key :
  key ∉ enriched_keys → metadata (enhanced d s) !! key = metadata d !! key.
Proof.
  intros Hkey. unfold enriched_keys in Hkey. unfold enhanced. cbn [metadata].
  rewrite !lookup_insert_ne; [done|..]; intros <-; apply Hkey; set_solver.
Qed.

(** A literal key that [_enhance_metadata] does not write. *)
Ltac not_enriched :=
  let H := fresh in
  unfold enriched_keys; intros H;
  repeat (apply elem_of_cons in H as [H|H]; [discriminate H|]);
  by apply elem_of_nil in H.

Section LoadingProperties.

Variable uuid4_str : nat → string.

(** X15: [load_documents] returns one new document per file, in the order
    of the files: the i-th has the text of the i-th file as its content,
    the path of the file as [source], the i-th identifier drawn as
    [parent_id] and [doc_type] parent.  The returned list replaces
    [self.documents]; [self.chunks], the parent-child map and the objects
    that existed are left as they were. *)
Theorem load_documents_result files st :
  ∃ docs st',
    load_documents uuid4_str files st = (Return docs, st') ∧
    documents st' = docs ∧
    chunks st' = chunks st ∧
    parent_child_map st' = parent_child_map st ∧
    length docs = length files ∧
    NoDup docs ∧
    (∀ l d, store st !! l = Some d → store st' !! l = Some d) ∧
    ∀ i doc, docs !! i = Some doc →
      store st !! doc = None ∧
      ∃ md_file content,
        files !! i = Some (md_file, content) ∧
        read_content st' doc = Some content ∧
        read_metadata st' doc "source" = Some (VStr md_file) ∧
        read_metadata st' doc "parent_id"
        = Some (VStr (uuid4_str (uuids_drawn st + i))) ∧
        read_metadata st' doc "doc_type" = Some (VStr "parent").
Proof.
  destruct (create_documents_run uuid4_str files st)
    as (docs & st1 & Hrun & Hlen & Hnodup & Hnew & Hold & Hnth & Hc & Hm).
  destruct (enhance_all_run docs st1 Hnodup)
    as (st2 & Hrun2 & Hold2 & Hnew2 & Hd2 & Hc2 & Hm2).
  { intros doc Hdoc. apply list_elem_of_lookup in Hdoc as [i Hi].
    destruct (Hnth i doc Hi) as (md_file & content & _ & Hobj).
    by eexists _, md_file. }
  exists docs,
    (mkPipeline (store st2) (uuids_drawn st2) docs (chunks st2)
       (parent_child_map st2)).
  split.
  { unfold load_documents.
    erewrite bind_Return by exact Hrun.
    erewrite bind_Return by exact Hrun2. reflexivity. }
  simpl. split; [done|]. split; [congruence|]. split; [congruence|].
  split; [done|]. split; [done|]. split.
  { intros l d Hl.
    assert (l ∉ docs) as Hnotin.
    { intros Hin. apply Hnew in Hin. congruence. }
    by rewrite Hold2, Hold. }
  intros i doc Hi.
  split; [apply Hnew; by apply list_elem_of_lookup_2 in Hi|].
  destruct (Hnth i doc Hi) as (md_file & content & Hfile & Hobj).
  exists md_file, content. split; [done|].
  pose proof (Hnew2 doc _ md_file (list_elem_of_lookup_2 _ _ _ Hi) Hobj
                eq_refl) as Hobj2.
  unfold read_content, read_metadata. cbn [store]. rewrite Hobj2.
  cbn [fmap option_fmap option_map mbind option_bind page_content enhanced].
  split; [done|].
  rewrite !enhanced_lookup_other by not_enriched.
  done.
Qed.

(** X16: when the identifiers drawn are pairwise distinct, the documents
    that [load_documents] returns have pairwise distinct parent
    identities. *)
Theorem load_documents_distinct_parent_ids files st :
  Inj (=) (=) uuid4_str →
  ∃ docs st',
    load_documents uuid4_str files st = (Return docs, st') ∧
    NoDup ((λ doc, read_metadata st' doc "parent_id") <$> docs).
Proof.
  intros Hinj.
  destruct (load_documents_run uuid4_str files st)
    as (docs & st' & Hrun & _ & _ & Hnth).
  exists docs, st'. split; [done|].
  apply NoDup_alt. intros i j x Hi Hj.
  rewrite list_lookup_fmap in Hi, Hj.
  destruct (docs !! i) as [doc1|] eqn:H1; [|done].
  destruct (docs !! j) as [doc2|] eqn:H2; [|done].
  simpl in Hi, Hj.
  destruct (Hnth i doc1 H1) as (f1 & c1 & _ & Hobj1).
  destruct (Hnth j doc2 H2) as (f2 & c2 & _ & Hobj2).
  rewrite (read_metadata_lookup _ _ _ _ Hobj1) in Hi.
  rewrite (read_metadata_lookup _ _ _ _ Hobj2) in Hj.
  rewrite enhanced_lookup_other in Hi, Hj by not_enriched.
  cbn in Hi, Hj. unfold loaded_metadata in Hi, Hj.
  rewrite lookup_insert_ne, lookup_insert_eq in Hi, Hj by done.
  rewrite <- Hj in Hi. injection Hi as Hi. apply Hinj in Hi. lia.
Qed.

(** X19: on no file, [load_documents] returns the empty list and empties
    [self.documents], whatever was loaded before and without touching
    anything else; a call of [chunk_documents] after it raises
    [ValueError]. *)
Theorem load_documents_no_file
    (split_text_fragments : string → list (string * gmap string value)) st :
  load_documents uuid4_str [] st = (Return [], (set_documents [] st).2) ∧
  (load_documents uuid4_str [];;
   chunk_documents uuid4_str split_text_fragments) st
  = (Raise (ValueError "先加载文档"), (set_documents [] st).2).
Proof. done. Qed.

End LoadingProperties.

(** The parent identities of the two recipes. *)
Lemma load_documents_distinct_parent_ids_two_recipes :
  Inj (=) (=) example_uuid4 ∧
  ∃ docs st',
    load_documents example_uuid4 two_recipes empty_pipeline
    = (Return docs, st') ∧
    NoDup ((λ doc, read_metadata st' doc "parent_id") <$> docs).
Proof.
  split; [exact example_uuid4_inj|].
  exact (load_documents_distinct_parent_ids example_uuid4 two_recipes
           empty_pipeline example_uuid4_inj).
Defined.

(** ** Loading, then splitting *)

Lemma Forall2_compose {A B C} (P : A → B → Prop) (Q : B → C → Prop)
    (l : list A) (k : list B) (m : list C) :
  Forall2 P l k → Forall2 Q k m →
  Forall2 (λ x z, ∃ y, P x y ∧ Q y z) l m.
Proof.
  intros HP. revert m. induction HP as [|x y l k Hxy _ IH]; intros m HQ.
  - inversion HQ. constructor.
  - inversion HQ as [|y' z k' m' Hyz HQ']; subst. constructor; [by eauto|].
    by apply IH.
Qed.

Lemma length_concat_sum {A B} (f : A → nat) (l : list A) (groups : list (list B)) :
  Forall2 (λ x group, length group = f x) l groups →
  length (concat groups) = sum_list (f <$> l).
Proof.
  induction 1 as [|x group l groups Hlen _ IH]; [done|].
  simpl. by rewrite length_app, Hlen, IH.
Qed.

(** A literal key that the splitter does not set on a section. *)
Ltac not_section_key :=
  let H := fresh in
  unfold section_keys; intros H;
  repeat (apply elem_of_cons in H as [H|H]; [discriminate H|]);
  by apply elem_of_nil in H.

Section LoadThenChunk.

Variable uuid4_str : nat → string.
Variable split_text_fragments : string → list (string * gmap string value).

(** [load_documents] followed by [chunk_documents], step by step: [st0]
    is the state after loading, [st1] the state after
    [_markdown_header_split], [st'] the final one. *)
Lemma load_then_chunk_run files st :
  files ≠ [] →
  ∃ docs st0 groups st1 st',
    load_documents uuid4_str files st = (Return docs, st0) ∧
    (load_documents uuid4_str files;;
     chunk_documents uuid4_str split_text_fragments) st
    = (Return (concat groups), st') ∧
    chunks st' = concat groups ∧
    documents st' = docs ∧
    Forall2
      (λ (file : string * string) doc,
         ∃ parent_id,
           store st0 !! doc
           = Some (enhanced
                     (mkDocument file.2 (loaded_metadata file.1 parent_id))
                     file.1))
      files docs ∧
    Forall2 (sections_of split_text_fragments st0 st1) docs groups ∧
    (∀ l d, store st1 !! l = Some d →
       ∃ d', store st' !! l = Some d' ∧ stamped d d').
Proof.
  intros Hfiles.
  destruct (load_documents_run uuid4_str files st)
    as (docs & st0 & Hload & Hdocs & Hlen & Hnth).
  pose proof (load_documents_loaded uuid4_str files st) as Hloaded.
  rewrite Hload in Hloaded. cbn [snd] in Hloaded.
  assert (documents st0 ≠ []) as Hne.
  { rewrite Hdocs. intros ->. simpl in Hlen. by destruct files. }
  destruct (chunk_documents_run uuid4_str split_text_fragments st0 Hne Hloaded)
    as (groups & st1 & st' & Hrun & Hd & Hc & _ & Hsec & Hst & _).
  exists docs, st0, groups, st1, st'. split; [done|]. split.
  { by rewrite (bind_Return _ _ _ _ _ Hload). }
  split; [done|]. split; [congruence|]. split.
  - apply Forall2_same_length_lookup_2; [done|].
    intros i [md_file content] doc Hfile Hdoc.
    destruct (Hnth i doc Hdoc) as (md_file' & content' & Hfile' & Hobj).
    rewrite Hfile in Hfile'. injection Hfile' as <- <-. by eexists.
  - split; [|done]. by rewrite <- Hdocs.
Qed.

(** The number of the sections made from loaded files. *)
Lemma load_then_chunk_count files st :
  files ≠ [] →
  ∃ sections st',
    (load_documents uuid4_str files;;
     chunk_documents uuid4_str split_text_fragments) st
    = (Return sections, st') ∧
    chunks st' = sections ∧
    length sections
    = sum_list ((λ file : string * string,
                   length (split_text_fragments file.2)) <$> files).
Proof.
  intros Hfiles.
  destruct (load_then_chunk_run files st Hfiles)
    as (docs & st0 & groups & st1 & st' & _ & Hrun & Hc & _ & Hdocs & Hsec & _).
  exists (concat groups), st'. split; [done|]. split; [done|].
  apply length_concat_sum.
  eapply Forall2_impl; [exact (Forall2_compose _ _ _ _ _ Hdocs Hsec)|].
  intros file group (doc & [parent_id Hobj] & d & pid & Hd & _ & Hlen & _).
  rewrite Hobj in Hd. injection Hd as <-. exact Hlen.
Qed.

(** The loop [[f(x) for x in xs]] over renamed items. *)
Lemma for_list_fmap {A A' B} (g : A' → A) (f : A → M B) (f' : A' → M B) xs :
  (∀ x st, f (g x) st = f' x st) →
  ∀ st, for_list (g <$> xs) f st = for_list xs f' st.
Proof.
  intros Hbody. induction xs as [|x xs IH]; intros st; [done|].
  simpl. unfold mbind at 1 3, M_bind at 1 3. rewrite Hbody.
  destruct (f' x st) as [[y|e] st1]; [|done].
  unfold mbind, M_bind. by rewrite IH.
Qed.

(** When every file is read, loading is [load_documents] on the texts. *)
Lemma load_documents_reading_readable texts st :
  load_documents_reading uuid4_str (readable <$> texts) st
  = load_documents uuid4_str texts st.
Proof.
  unfold load_documents_reading, load_documents.
  unfold mbind at 1 6, M_bind at 1 6.
  rewrite (for_list_fmap readable _
             (λ file : string * string,
                let '(md_file, content) := file in
                parent_id ← uuid4 uuid4_str;
                new_Document content
                  {[ "source" := VStr md_file;
                     "parent_id" := VStr parent_id;
                     "doc_type" := VStr "parent" ]})); [done|].
  by intros [md_file content] st0.
Qed.

(** The first reading that raises ends the loop over the files: the
    exception leaves [load_documents] before [self.documents] is
    assigned. *)
Lemma load_documents_reading_unreadable files e :
  first_unreadable files = Some e →
  ∀ st, ∃ st',
    load_documents_reading uuid4_str files st = (Raise e, st') ∧
    documents st' = documents st ∧
    chunks st' = chunks st ∧
    parent_child_map st' = parent_child_map st.
Proof.
  intros Hfirst st. unfold load_documents_reading.
  match goal with |- context [for_list files ?f] => set (body := f) end.
  assert (∃ st', for_list files body st = (Raise e, st') ∧
                 documents st' = documents st ∧
                 chunks st' = chunks st ∧
                 parent_child_map st' = parent_child_map st) as Hcreate.
  { revert st.
    induction files as [|[md_file [content|e']] files IH]; intros st;
      simpl in Hfirst; [done|..].
    - assert (∃ doc st1,
                body (md_file, Return content) st = (Return doc, st1) ∧
                documents st1 = documents st ∧
                chunks st1 = chunks st ∧
                parent_child_map st1 = parent_child_map st)
        as (doc & st1 & Hbody & Hd1 & Hc1 & Hm1)
        by (eexists _, _; split; [reflexivity|done]).
      destruct (IH Hfirst st1) as (st' & Hrun & Hd & Hc & Hm).
      exists st'. split; [|split; [|split]; congruence].
      change (for_list ((md_file, Return content) :: files) body)
        with (y ← body (md_file, Return content);
              ys ← for_list files body; mret (y :: ys)).
      by rewrite (bind_Return _ _ _ _ _ Hbody), (bind_Raise _ _ _ _ _ Hrun).
    - injection Hfirst as ->. exists st. split; [|done].
      change (for_list ((md_file, Raise e) :: files) body)
        with (y ← body (md_file, Raise e);
              ys ← for_list files body; mret (y :: ys)).
      by apply bind_Raise. }
  destruct Hcreate as (st' & Hrun & Hrest). exists st'. split; [|done].
  by rewrite (bind_Raise _ _ _ _ _ Hrun).
Qed.

Lemma first_unreadable_None files :
  first_unreadable files = None → ∃ texts, files = readable <$> texts.
Proof.
  induction files as [|[md_file [content|e]] files IH]; simpl; intros Hfirst.
  - by exists [].
  - destruct (IH Hfirst) as [texts ->]. by exists ((md_file, content) :: texts).
  - done.
Qed.

Lemma fragments_read_readable (texts : list (string * string)) :
  fragments_read split_text_fragments <$> (readable <$> texts)
  = (λ file : string * string, length (split_text_fragments file.2)) <$> texts.
Proof.
  induction texts as [|file texts IH]; [done|].
  rewrite !fmap_cons. by rewrite IH.
Qed.

(** X17: [load_documents] on at least one file, followed by
    [chunk_documents], given what reading each file comes to.  When
    every file is read, the two calls return the sections, they are
    assigned to [self.chunks] and their number is the number of
    fragments of all files together.  When the reading of a file raises,
    the exception of the first such file leaves [load_documents]:
    [chunk_documents] is not reached, and [self.documents] and
    [self.chunks] are what they were. *)
Theorem load_then_chunk_returns files st :
  files ≠ [] →
  match first_unreadable files with
  | None =>
      ∃ sections st',
        (load_documents_reading uuid4_str files;;
         chunk_documents uuid4_str split_text_fragments) st
        = (Return sections, st') ∧
        chunks st' = sections ∧
        length sections
        = sum_list (fragments_read split_text_fragments <$> files)
  | Some e =>
      ∃ st',
        (load_documents_reading uuid4_str files;;
         chunk_documents uuid4_str split_text_fragments) st
        = (Raise e, st') ∧
        documents st' = documents st ∧
        chunks st' = chunks st
  end.
Proof.
  intros Hfiles.
  destruct (first_unreadable files) as [e|] eqn:Hfirst.
  - destruct (load_documents_reading_unreadable files e Hfirst st)
      as (st' & Hrun & Hd & Hc & _).
    exists st'. split; [|done]. by rewrite (bind_Raise _ _ _ _ _ Hrun).
  - destruct (first_unreadable_None files Hfirst) as [texts ->].
    destruct (load_then_chunk_count texts st) as (sections & st' & Hrun & Hc & Hlen).
    { intros ->. by apply Hfiles. }
    exists sections, st'. split; [|split; [done|]].
    + unfold mbind, M_bind in Hrun |- *.
      by rewrite load_documents_reading_readable.
    + by rewrite fragments_read_readable.
Qed.

(** X18: every section made from a loaded file carries the enrichment of
    the whole file: the path of the file as [source], the category and
    the dish name inferred from that path, and the difficulty inferred
    from the text of the whole file, not of the section; its [doc_type]
    is child. *)
Theorem load_then_chunk_sections_enriched files st :
  files ≠ [] →
  ∃ groups st',
    (load_documents uuid4_str files;;
     chunk_documents uuid4_str split_text_fragments) st
    = (Return (concat groups), st') ∧
    Forall2
      (λ (file : string * string) group,
         ∀ c, c ∈ group →
           read_metadata st' c "source" = Some (VStr file.1) ∧
           read_metadata st' c "category"
           = Some (VStr (category_in_mapping_order
                           (Path.parts (Path.of_str file.1)))) ∧
           read_metadata st' c "dish_name"
           = Some (VStr (Path.stem (Path.of_str file.1))) ∧
           read_metadata st' c "difficulty"
           = Some (VStr (difficulty_tier (longest_star_run file.2))) ∧
           read_metadata st' c "doc_type" = Some (VStr "child"))
      files groups.
Proof.
  intros Hfiles.
  destruct (load_then_chunk_run files st Hfiles)
    as (docs & st0 & groups & st1 & st' & _ & Hrun & _ & _ & Hdocs & Hsec & Hst).
  exists groups, st'. split; [done|].
  eapply Forall2_impl; [exact (Forall2_compose _ _ _ _ _ Hdocs Hsec)|].
  intros [md_file content] group (doc & [parent_id Hobj] & Hsections) c Hin.
  apply list_elem_of_lookup in Hin as [i Hi]. cbn [fst snd] in *.
  assert (∀ key v,
            key ∉ section_keys → key ≠ "batch_index" → key ≠ "chunk_size" →
            metadata (enhanced
                        (mkDocument content (loaded_metadata md_file parent_id))
                        md_file) !! key = Some v →
            read_metadata st' c key = Some v) as Hinherit.
  { intros key v Hkey H1 H2 Hv.
    destruct (section_read split_text_fragments st0 st1 st' doc group i c key
                Hsections Hst Hi H1 H2)
      as (d & pid & fragment & child_id & Hd & Hpid & Hread).
    rewrite Hobj in Hd. injection Hd as <-.
    rewrite Hread. by apply section_metadata_inherited. }
  split; [|split; [|split; [|split]]].
  - apply Hinherit; [not_section_key|done..|].
    by rewrite enhanced_lookup_other by not_enriched.
  - apply Hinherit; [not_section_key|done..|]. unfold enhanced. cbn [metadata].
    by rewrite !lookup_insert_ne, lookup_insert_eq by done.
  - apply Hinherit; [not_section_key|done..|]. unfold enhanced. cbn [metadata].
    by rewrite lookup_insert_ne, lookup_insert_eq by done.
  - apply Hinherit; [not_section_key|done..|].
    unfold enhanced. cbn [metadata page_content].
    by rewrite lookup_insert_eq, infer_difficulty_tier.
  - destruct (section_read split_text_fragments st0 st1 st' doc group i c
                "doc_type" Hsections Hst Hi)
      as (d & pid & fragment & child_id & Hd & Hpid & Hread); [done..|].
    rewrite Hread. apply section_metadata_doc_type.
Qed.

End LoadThenChunk.

Lemma two_recipes_not_empty : two_recipes ≠ [].
Proof. discriminate. Qed.

(** Loading and splitting the two recipes, both read. *)
Lemma load_then_chunk_returns_two_recipes :
  readable <$> two_recipes ≠ [] ∧
  match first_unreadable (readable <$> two_recipes) with
  | None =>
      ∃ sections st',
        (load_documents_reading example_uuid4 (readable <$> two_recipes);;
         chunk_documents example_uuid4 example_split_text) empty_pipeline
        = (Return sections, st') ∧
        chunks st' = sections ∧
        length sections
        = sum_list (fragments_read example_split_text
                      <$> (readable <$> two_recipes))
  | Some e =>
      ∃ st',
        (load_documents_reading example_uuid4 (readable <$> two_recipes);;
         chunk_documents example_uuid4 example_split_text) empty_pipeline
        = (Raise e, st') ∧
        documents st' = documents empty_pipeline ∧
        chunks st' = chunks empty_pipeline
  end.
Proof.
  assert (readable <$> two_recipes ≠ []) as Hfiles by discriminate.
  split; [exact Hfiles|].
  exact (load_then_chunk_returns example_uuid4 example_split_text
           (readable <$> two_recipes) empty_pipeline Hfiles).
Defined.

(** What the two outcomes are on examples: three sections when both
    recipes are read, and the decoding error, with no document kept,
    when the second one is not. *)
Lemma load_then_chunk_examples :
  ((load_documents_reading example_uuid4 (readable <$> two_recipes);;
    chunk_documents example_uuid4 example_split_text) empty_pipeline).1
  = Return [2; 3; 4] ∧
  ((load_documents_reading example_uuid4 one_unreadable;;
    chunk_documents example_uuid4 example_split_text) empty_pipeline).1
  = Raise UnicodeDecodeError ∧
  documents
    ((load_documents_reading example_uuid4 one_unreadable;;
      chunk_documents example_uuid4 example_split_text) empty_pipeline).2
  = [].
Proof. repeat split; vm_compute; reflexivity. Qed.

(** The enrichment that the sections of the two recipes carry. *)
Lemma load_then_chunk_sections_enriched_two_recipes :
  two_recipes ≠ [] ∧
  ∃ groups st',
    (load_documents example_uuid4 two_recipes;;
     chunk_documents example_uuid4 example_split_text) empty_pipeline
    = (Return (concat groups), st') ∧
    Forall2
      (λ (file : string * string) group,
         ∀ c, c ∈ group →
           read_metadata st' c "source" = Some (VStr file.1) ∧
           read_metadata st' c "category"
           = Some (VStr (category_in_mapping_order
                           (Path.parts (Path.of_str file.1)))) ∧
           read_metadata st' c "dish_name"
           = Some (VStr (Path.stem (Path.of_str file.1))) ∧
           read_metadata st' c "difficulty"
           = Some (VStr (difficulty_tier (longest_star_run file.2))) ∧
           read_metadata st' c "doc_type" = Some (VStr "child"))
      two_recipes groups.
Proof.
  split; [exact two_recipes_not_empty|].
  exact (load_then_chunk_sections_enriched example_uuid4 example_split_text
           two_recipes empty_pipeline two_recipes_not_empty).
Defined.

(** ** Splitting twice *)

Lemma length_concat_same {A} (groups1 groups2 : list (list A)) :
  Forall2 (λ g1 g2, length g1 = length g2) groups1 groups2 →
  length (concat groups1) = length (concat groups2).
Proof.
  induction 1 as [|g1 g2 groups1 groups2 Hlen _ IH]; [done|].
  simpl. by rewrite !length_app, Hlen, IH.
Qed.

Section ChunkingAgain.

Variable uuid4_str : nat → string.
Variable split_text_fragments : string → list (string * gmap string value).

(** X20: a second call of [chunk_documents] splits the documents anew.
    It returns as many sections as the first call, all of them new
    objects; [self.chunks] is the second list; the sections of the first
    call are left as they were and, when the identifiers drawn are
    pairwise distinct, they stay registered in the parent-child map. *)
Theorem chunk_documents_again st :
  Inj (=) (=) uuid4_str →
  documents st ≠ [] →
  documents_loaded st →
  ∃ sections1 st1 sections2 st2,
    chunk_documents uuid4_str split_text_fragments st = (Return sections1, st1) ∧
    chunk_documents uuid4_str split_text_fragments st1
    = (Return sections2, st2) ∧
    chunks st2 = sections2 ∧
    length sections2 = length sections1 ∧
    (∀ c, c ∈ sections1 →
       (c ∉ sections2) ∧
       store st2 !! c = store st1 !! c ∧
       ∃ child_id parent_id,
         read_metadata st2 c "chunk_id" = Some (VStr child_id) ∧
         read_metadata st2 c "parent_id" = Some parent_id ∧
         parent_child_map st2 !! child_id = Some parent_id).
Proof.
  intros Hinj Hne Hloaded.
  destruct (chunk_documents_exact uuid4_str split_text_fragments st Hne Hloaded)
    as (groups1 & sta & st1 & Hrun1 & Hc1 & Hd1 & Hu1 & Hnodup1 & Hsec1 &
        Hkeep1 & Hold1 & Hnth1 & Hmap1).
  assert (∀ l d, store st !! l = Some d → store st1 !! l = Some d) as Hkeep.
  { intros l d Hl. rewrite Hold1; [by apply Hkeep1|].
    intros Hin. by rewrite (sections_of_all_new _ _ _ _ _ _ Hsec1 Hin) in Hl. }
  assert (documents st1 ≠ []) as Hne1 by (by rewrite Hd1).
  assert (documents_loaded st1) as Hloaded1.
  { intros doc Hdoc. rewrite Hd1 in Hdoc.
    destruct (Hloaded doc Hdoc) as (d & Hd & Hp). exists d.
    split; [by apply Hkeep | done]. }
  destruct (chunk_documents_exact uuid4_str split_text_fragments st1 Hne1
              Hloaded1)
    as (groups2 & stb & st2 & Hrun2 & Hc2 & Hd2 & Hu2 & Hnodup2 & Hsec2 &
        Hkeep2 & Hold2 & Hnth2 & Hmap2).
  exists (concat groups1), st1, (concat groups2), st2.
  split; [done|]. split; [done|]. split; [done|]. split.
  { apply length_concat_same. rewrite Hd1 in Hsec2.
    eapply Forall2_impl;
      [exact (Forall2_compose _ _ _ _ _
                (proj2 (Forall2_flip _ _ _) Hsec2) Hsec1)|].
    intros g2 g1 (doc & (d2 & p2 & Hdoc2 & _ & Hlen2 & _)
                      & (d1 & p1 & Hdoc1 & _ & Hlen1 & _)).
    rewrite (Hkeep _ _ Hdoc1) in Hdoc2. injection Hdoc2 as <-. congruence. }
  intros c Hin. apply list_elem_of_lookup in Hin as [j Hj].
  destruct (Hnth1 j c Hj) as (dc & _ & Hid & [parent_id Hpid] & Hobj & Hreg).
  assert (c ∉ concat groups2) as Hnotin.
  { intros Hin2.
    by rewrite (sections_of_all_new _ _ _ _ _ _ Hsec2 Hin2) in Hobj. }
  assert (store st2 !! c = store st1 !! c) as Hsame.
  { rewrite (Hold2 c Hnotin), Hobj. by apply Hkeep2. }
  split; [done|]. split; [done|].
  exists (uuid4_str (uuids_drawn st + j)), parent_id.
  unfold read_metadata. rewrite Hsame, Hobj. simpl.
  rewrite !stamps_lookup by done.
  split; [done|]. split; [done|].
  rewrite Hmap2; [by rewrite (Hreg Hinj)|].
  intros Hin2. apply list_elem_of_fmap in Hin2 as (m & Heq & Hm).
  apply Hinj in Heq. apply elem_of_seq in Hm.
  apply lookup_lt_Some in Hj. lia.
Qed.

End ChunkingAgain.

(** Splitting the two recipes twice. *)
Lemma chunk_documents_again_two_recipes :
  Inj (=) (=) example_uuid4 ∧
  documents two_recipes_loaded ≠ [] ∧
  documents_loaded two_recipes_loaded ∧
  ∃ sections1 st1 sections2 st2,
    chunk_documents example_uuid4 example_split_text two_recipes_loaded
    = (Return sections1, st1) ∧
    chunk_documents example_uuid4 example_split_text st1
    = (Return sections2, st2) ∧
    chunks st2 = sections2 ∧
    length sections2 = length sections1 ∧
    (∀ c, c ∈ sections1 →
       (c ∉ sections2) ∧
       store st2 !! c = store st1 !! c ∧
       ∃ child_id parent_id,
         read_metadata st2 c "chunk_id" = Some (VStr child_id) ∧
         read_metadata st2 c "parent_id" = Some parent_id ∧
         parent_child_map st2 !! child_id = Some parent_id).
Proof.
  split; [exact example_uuid4_inj|].
  split; [exact two_recipes_loaded_documents|].
  split; [exact two_recipes_loaded_ok|].
  exact (chunk_documents_again example_uuid4 example_split_text
           two_recipes_loaded example_uuid4_inj two_recipes_loaded_documents
           two_recipes_loaded_ok).
Defined.
